(** * FSEOF-FS: the FSEOF_FS and FVSEOF analyzers

    A shallow embedding of [fseof_fs.py] and [fvseof/fvseof.py].

    Numbers.  Fluxes, bounds and scores are Python/NumPy floats in the
    source; here they are exact rationals ([Q]).  Rounding, signed zeros
    and NaN inputs are outside the model.  The one place where the source
    can divide by zero (the growth ratio of the essentiality check) keeps
    NumPy's behaviour: the quotient is an infinity or NaN, not an error.

    External collaborators.  The LP solver ([loopless_solution],
    [flux_variability_analysis]) and [np.polyfit] are not part of the
    repository; they are Section variables.  A solver may answer
    differently each time it is asked (the FSEOF sampling relies on it),
    so the oracles receive the number of solver calls made so far.

    [np.polyfit] is a function that answers or raises; what is known of
    it (it raises LinAlgError on the single abscissa 0) enters where it is
    used, as a hypothesis on the fit.

    Shared model.  cobra's [Model] is a mutable object shared by every
    analyzer built on it.  The state [World] holds the model, the stack of
    open [with model:] contexts with their undo records, and the log of
    the solver calls.  The reactions of a model are a cobra DictList:
    ordered, with unique ids.  cobra's bound setters refuse a lower bound
    above the upper bound with ValueError.

    Out of scope: progress bars, logging and printed messages; Python run
    with assertions disabled. *)

From Stdlib Require Import QArith Qabs String Ascii List Permutation Sorted Lia.
From stdpp Require Import base option list strings gmap.

Import ListNotations.
Local Open Scope string_scope.
Local Open Scope list_scope.

(** ** Rational helpers *)

Definition Qlt_bool (x y : Q) : bool := negb (Qle_bool y x).

(** The value of a float division whose operands are finite. *)
Inductive float : Type :=
  | Finite (q : Q)
  | PlusInf
  | MinusInf
  | NaN.

(** [x / y] on NumPy floats: a zero divisor gives an infinity of the sign
    of [x], or NaN for [0 / 0], with a warning and no exception. *)
Definition truediv (x y : Q) : float :=
  if Qeq_bool y 0 then
    match (x ?= 0)%Q with
    | Gt => PlusInf
    | Lt => MinusInf
    | Eq => NaN
    end
  else Finite (x / y).

(** [f < q]: every comparison with NaN is false. *)
Definition float_lt (f : float) (q : Q) : bool :=
  match f with
  | Finite x => Qlt_bool x q
  | PlusInf => false
  | MinusInf => true
  | NaN => false
  end.

(** ** The metabolic model (cobra) *)

Record Reaction : Type := mkReaction {
  r_id : string;
  r_name : string;
  r_gene_reaction_rule : string;
  r_lower_bound : Q;
  r_upper_bound : Q;
  r_metabolites : list (string * Q)   (* metabolite id, coefficient *)
}.

Record Model : Type := mkModel {
  reactions : list Reaction;          (* a DictList: ordered, ids unique *)
  metabolites : list string;          (* the metabolite ids *)
  objective : string                  (* id of the reaction being maximised *)
}.

Definition reaction_ids (m : Model) : list string := map r_id (reactions m).

Definition has_id (rid : string) (m : Model) : bool :=
  existsb (String.eqb rid) (reaction_ids m).

Fixpoint find_reaction (rid : string) (rs : list Reaction) : option Reaction :=
  match rs with
  | [] => None
  | r :: rs' => if String.eqb (r_id r) rid then Some r else find_reaction rid rs'
  end.

(** In-place update of the reaction object registered under [rid]. *)
Fixpoint alter_reaction (f : Reaction -> Reaction) (rid : string)
    (rs : list Reaction) : list Reaction :=
  match rs with
  | [] => []
  | r :: rs' =>
      if String.eqb (r_id r) rid then f r :: rs'
      else r :: alter_reaction f rid rs'
  end.

Fixpoint remove_reaction (rid : string) (rs : list Reaction) : list Reaction :=
  match rs with
  | [] => []
  | r :: rs' =>
      if String.eqb (r_id r) rid then rs' else r :: remove_reaction rid rs'
  end.

Definition with_lower_bound (v : Q) (r : Reaction) : Reaction :=
  mkReaction (r_id r) (r_name r) (r_gene_reaction_rule r) v (r_upper_bound r)
    (r_metabolites r).

Definition with_upper_bound (v : Q) (r : Reaction) : Reaction :=
  mkReaction (r_id r) (r_name r) (r_gene_reaction_rule r) (r_lower_bound r) v
    (r_metabolites r).

Definition with_reactions (rs : list Reaction) (m : Model) : Model :=
  mkModel rs (metabolites m) (objective m).

Definition with_objective (o : string) (m : Model) : Model :=
  mkModel (reactions m) (metabolites m) o.

(** ** Scoped edits: cobra's history of undo records *)

Inductive undo : Type :=
  | UndoObjective (old : string)
  | UndoLowerBound (rid : string) (old : Q)
  | UndoUpperBound (rid : string) (old : Q)
  | UndoAddReaction (rid : string).

Definition undo_one (u : undo) (m : Model) : Model :=
  match u with
  | UndoObjective old => with_objective old m
  | UndoLowerBound rid old =>
      with_reactions (alter_reaction (with_lower_bound old) rid (reactions m)) m
  | UndoUpperBound rid old =>
      with_reactions (alter_reaction (with_upper_bound old) rid (reactions m)) m
  | UndoAddReaction rid =>
      with_reactions (remove_reaction rid (reactions m)) m
  end.

(** Replays a context's records, the most recent first. *)
Definition rewind (c : list undo) (m : Model) : Model :=
  fold_left (fun m' u => undo_one u m') c m.

(** A solver invocation, with the model as the solver saw it. *)
Inductive call : Type :=
  | LooplessCall (m : Model)
  | FvaCall (m : Model) (fraction_of_optimum : Q) (processes : nat).

Record World : Type := mkWorld {
  model : Model;
  contexts : list (list undo);   (* innermost open context first *)
  solver_log : list call
}.

(** A mutation made while a context is open leaves its undo record in the
    innermost context; outside any context it is permanent. *)
Definition remember (u : undo) (cs : list (list undo)) : list (list undo) :=
  match cs with
  | [] => []
  | c :: cs' => (u :: c) :: cs'
  end.

(** ** Exceptions and the program monad *)

Inductive exn : Type :=
  | AssertionError (msg : string)
  | KeyError (key : string)
  | IndexError
  | ValueError            (* raised by cobra's bound setters *)
  | OptimizationError     (* raised by the solver *)
  | LinAlgError.          (* raised by the least-squares fit *)

Inductive result (A : Type) : Type :=
  | Return (a : A)
  | Raise (e : exn).
Arguments Return {A} a.
Arguments Raise {A} e.

Definition M (A : Type) : Type := World -> result A * World.

Definition ret {A} (a : A) : M A := fun w => (Return a, w).

Definition raise {A} (e : exn) : M A := fun w => (Raise e, w).

Definition bind {A B} (p : M A) (k : A -> M B) : M B :=
  fun w =>
    match p w with
    | (Return a, w') => k a w'
    | (Raise e, w') => (Raise e, w')
    end.

(** [try: p except: h], with a bare [except]. *)
Definition try_except {A} (p : M A) (h : M A) : M A :=
  fun w =>
    match p w with
    | (Return a, w') => (Return a, w')
    | (Raise _, w') => h w'
    end.

Notation "'let!' x ':=' p 'in' k" := (bind p (fun x => k))
  (at level 10, x name, p at level 100, k at level 200).
Notation "p '>>' k" := (bind p (fun _ => k))
  (at level 100, right associativity).

(** [for x in xs: body x] *)
Fixpoint for_each {A} (xs : list A) (body : A -> M unit) : M unit :=
  match xs with
  | [] => ret tt
  | x :: xs' => body x >> for_each xs' body
  end.

(** [for x in xs: ...] with a loop-carried value. *)
Fixpoint fold_each {A S} (xs : list A) (body : S -> A -> M S) (s : S) : M S :=
  match xs with
  | [] => ret s
  | x :: xs' => let! s' := body s x in fold_each xs' body s'
  end.

(** ** cobra's primitives *)

Definition get_model : M Model := fun w => (Return (model w), w).

(** [model.reactions.get_by_id(rid)] *)
Definition get_by_id (rid : string) : M Reaction :=
  fun w =>
    match find_reaction rid (reactions (model w)) with
    | Some r => (Return r, w)
    | None => (Raise (KeyError rid), w)
    end.

(** [model.metabolites.get_by_id(mid)] *)
Definition get_metabolite (mid : string) : M string :=
  fun w =>
    if existsb (String.eqb mid) (metabolites (model w)) then (Return mid, w)
    else (Raise (KeyError mid), w).

(** [model.objective = rid] *)
Definition set_objective (rid : string) : M unit :=
  fun w =>
    if has_id rid (model w) then
      (Return tt,
       mkWorld (with_objective rid (model w))
         (remember (UndoObjective (objective (model w))) (contexts w))
         (solver_log w))
    else (Raise (KeyError rid), w).

(** [reaction.lower_bound = v], for the reaction object of id [rid].
    cobra's setter checks the new pair of bounds first and raises
    ValueError when the lower bound would exceed the upper bound; the
    bounds are then as they were. *)
Definition set_lower_bound (rid : string) (v : Q) : M unit :=
  fun w =>
    match find_reaction rid (reactions (model w)) with
    | Some r =>
        if Qlt_bool (r_upper_bound r) v then (Raise ValueError, w)
        else
          (Return tt,
           mkWorld
             (with_reactions
                (alter_reaction (with_lower_bound v) rid
                   (reactions (model w)))
                (model w))
             (remember (UndoLowerBound rid (r_lower_bound r)) (contexts w))
             (solver_log w))
    | None => (Return tt, w)
    end.

(** [reaction.upper_bound = v], with the same check. *)
Definition set_upper_bound (rid : string) (v : Q) : M unit :=
  fun w =>
    match find_reaction rid (reactions (model w)) with
    | Some r =>
        if Qlt_bool v (r_lower_bound r) then (Raise ValueError, w)
        else
          (Return tt,
           mkWorld
             (with_reactions
                (alter_reaction (with_upper_bound v) rid
                   (reactions (model w)))
                (model w))
             (remember (UndoUpperBound rid (r_upper_bound r)) (contexts w))
             (solver_log w))
    | None => (Return tt, w)
    end.

(** [model.add_reactions([r])]: a reaction whose id is already registered
    is ignored (the DictList keeps ids unique). *)
Definition add_reactions (r : Reaction) : M unit :=
  fun w =>
    if has_id (r_id r) (model w) then (Return tt, w)
    else
      (Return tt,
       mkWorld (with_reactions (reactions (model w) ++ [r]) (model w))
         (remember (UndoAddReaction (r_id r)) (contexts w))
         (solver_log w)).

(** [with self.model as model: body]: opens a context, runs the body, and
    on the way out, whether the body returned or raised, replays and drops
    the context. *)
Definition enter (w : World) : World :=
  mkWorld (model w) ([] :: contexts w) (solver_log w).

Definition leave (w : World) : World :=
  match contexts w with
  | [] => w
  | c :: cs => mkWorld (rewind c (model w)) cs (solver_log w)
  end.

Definition with_model {A} (body : M A) : M A :=
  fun w => let (r, w') := body (enter w) in (r, leave w').

(** ** The analyzers *)

(** The attributes of an analyzer object ([self]); both classes have the
    same ones. *)
Record Analyzer : Type := mkAnalyzer {
  biomass_reaction_id : string;
  target_metabolite_id : string;
  product_sink_reaction_id : string;
  product_max_theoretical_yield : Q;
  maximal_biomass_growth : Q;
  check_essential_reaction_threshold : Q
}.


(** A row of [flux_variability_analysis]'s result frame. *)
Record fva_row : Type := mkFva { minimum : Q; maximum : Q }.

(** [assert b, msg] *)
Definition assert (b : bool) (msg : string) : M unit :=
  if b then ret tt else raise (AssertionError msg).

(** [d[key]] on a dict *)
Definition getitem {V} (d : gmap string V) (key : string) : M V :=
  match d !! key with
  | Some v => ret v
  | None => raise (KeyError key)
  end.

(** [xs[i]] on a list *)
Definition index {V} (xs : list V) (i : nat) : M V :=
  match xs !! i with
  | Some v => ret v
  | None => raise IndexError
  end.

(** [xs[-1]] *)
Definition index_last {V} (xs : list V) : M V :=
  match last xs with
  | Some v => ret v
  | None => raise IndexError
  end.

(** [sum(fs)], summing from the left, starting at 0. *)
Definition py_sum (fs : list Q) : Q := fold_left Qplus fs 0%Q.

Definition Q_of_nat (n : nat) : Q := inject_Z (Z.of_nat n).

Section Solver.

(** The solver, asked for the [i]-th time, on the model as it stands. *)
Variable loopless_oracle : nat -> Model -> option (string -> Q).
Variable fva_oracle : nat -> Model -> Q -> nat -> option (string -> fva_row).

(** [loopless_solution(model)]: the fluxes ([sol.fluxes]), or the
    solver's exception. *)
Definition loopless_solution : M (string -> Q) :=
  fun w =>
    let w' := mkWorld (model w) (contexts w)
                (solver_log w ++ [LooplessCall (model w)]) in
    match loopless_oracle (length (solver_log w)) (model w) with
    | Some sol => (Return sol, w')
    | None => (Raise OptimizationError, w')
    end.

(** [flux_variability_analysis(model, fraction_of_optimum, processes)] *)
Definition flux_variability_analysis (fraction_of_optimum : Q)
    (processes : nat) : M (string -> fva_row) :=
  fun w =>
    let w' := mkWorld (model w) (contexts w)
                (solver_log w
                 ++ [FvaCall (model w) fraction_of_optimum processes]) in
    match fva_oracle (length (solver_log w)) (model w)
            fraction_of_optimum processes with
    | Some df => (Return df, w')
    | None => (Raise OptimizationError, w')
    end.

(** *** The methods the two classes share

    [__init__], [add_product_sink_reaction], the two capacity probes and
    [check_essential_reaction] are the same text in both files, up to
    the suffix of the sink's id. *)
Section Shared.

Variable sink_suffix : string.

(** [add_product_sink_reaction] (fseof_fs.py 40-63, fvseof.py 36-59).
    A new [Reaction] has an empty name and gene rule. *)
Definition add_product_sink_reaction (target_metabolite_id : string)
    : M string :=
  let reaction_id := (target_metabolite_id ++ sink_suffix)%string in
  let! met := get_metabolite target_metabolite_id in
  let product_sink_reaction :=
    mkReaction (target_metabolite_id ++ sink_suffix)%string "" ""
      0%Q 1000%Q [(met, (-1)%Q)] in
  add_reactions product_sink_reaction >>
  ret reaction_id.

(** [calc_product_maximal_theoretical_yield] (fseof_fs.py 65-83,
    fvseof.py 61-79); it reads [self.product_sink_reaction_id]. *)
Definition calc_product_maximal_theoretical_yield
    (product_sink_reaction_id : string) : M Q :=
  with_model (
    set_objective product_sink_reaction_id >>
    let! sol := loopless_solution in
    ret (sol product_sink_reaction_id)).

(** [calc_maximal_biomass_growth] (fseof_fs.py 85-97, fvseof.py 81-93) *)
Definition calc_maximal_biomass_growth (biomass_reaction_id : string)
    : M Q :=
  with_model (
    set_objective biomass_reaction_id >>
    let! sol := loopless_solution in
    ret (sol biomass_reaction_id)).

(** [__init__] (fseof_fs.py 10-38, fvseof.py 9-34); the logger of
    FSEOF_FS is left out. *)
Definition init (biomass_reaction_id target_metabolite_id : string)
    (essential_reaction_threshold : Q) : M Analyzer :=
  let! m := get_model in
  assert (existsb (String.eqb biomass_reaction_id) (reaction_ids m))
    "Biomass reaction not in model." >>
  assert (existsb (String.eqb target_metabolite_id) (metabolites m))
    "Target metabolite not in model." >>
  let! product_sink_reaction_id :=
    add_product_sink_reaction target_metabolite_id in
  let! product_max_theoretical_yield :=
    calc_product_maximal_theoretical_yield product_sink_reaction_id in
  let! maximal_biomass_growth :=
    calc_maximal_biomass_growth biomass_reaction_id in
  ret (mkAnalyzer biomass_reaction_id target_metabolite_id
         product_sink_reaction_id product_max_theoretical_yield
         maximal_biomass_growth essential_reaction_threshold).

End Shared.

(** [check_essential_reaction] (fseof_fs.py 99-125, fvseof.py 95-121):
    the [return]s sit inside [try], itself inside [with]. *)
Definition check_essential_reaction (self : Analyzer) (reaction_id : string)
    : M bool :=
  with_model (
    set_objective (biomass_reaction_id self) >>
    let! reaction := get_by_id reaction_id in
    set_lower_bound (r_id reaction) 0%Q >>
    set_upper_bound (r_id reaction) 0%Q >>
    try_except
      (let! sol := loopless_solution in
       if float_lt
            (truediv (sol (biomass_reaction_id self))
               (maximal_biomass_growth self))
            (check_essential_reaction_threshold self)
       then ret true
       else ret false)
      (ret true)).

End Solver.

(** ** pandas: ordering a frame

    [df.sort_values(by=[...], ascending=[False, False])] is a stable sort:
    rows whose keys tie keep their order.  [may_precede a b] says that row
    [a] may stand before row [b]. *)
Section SortValues.

Context {R : Type} (may_precede : R -> R -> bool).

Fixpoint insert_row (x : R) (rows : list R) : list R :=
  match rows with
  | [] => [x]
  | y :: rows' =>
      if may_precede x y then x :: y :: rows'
      else y :: insert_row x rows'
  end.

Definition sort_values (rows : list R) : list R :=
  fold_right insert_row [] rows.

End SortValues.

(** The sort key of both tables: the target type, descending as a string,
    then the score, descending. *)
Definition descending (type1 : string) (score1 : Q) (type2 : string)
    (score2 : Q) : bool :=
  match String.compare type1 type2 with
  | Gt => true
  | Lt => false
  | Eq => Qle_bool score2 score1
  end.

(** [by] must name columns of the frame; [sort_values] raises a
    [KeyError] for the first one that does not. *)
Definition require_columns (by_ columns : list string) : M unit :=
  for_each by_ (fun c =>
    if existsb (String.eqb c) columns then ret tt else raise (KeyError c)).

(** ** FSEOF_FS ([fseof_fs.py]) *)
Module FSEOF_FS.

(** The dict built for a reaction in [run]. *)
Record reaction_data : Type := mkData {
  target_type : string;
  reaction_id : string;
  reaction_name : string;
  mean_flux_low : Q;
  mean_flux_high : Q;
  essential : option bool     (* the key is absent without the check *)
}.

(** A row of the returned frame. *)
Record Row : Type := mkRow {
  data : reaction_data;
  abs_diff_mean_fluxes : Q
}.

(** The columns of [pd.DataFrame(df_data)]: the keys of the dicts; a
    frame built from the empty list has none. *)
Definition columns_of (df_data : list reaction_data) : list string :=
  match df_data with
  | [] => []
  | d :: _ =>
      ["target_type"; "reaction_id"; "reaction_name"; "mean_flux_low";
       "mean_flux_high"]
      ++ match essential d with Some _ => ["essential"] | None => [] end
  end.

Definition may_precede (a b : Row) : bool :=
  descending (target_type (data a)) (abs_diff_mean_fluxes a)
    (target_type (data b)) (abs_diff_mean_fluxes b).

Section WithSolver.

Variable loopless_oracle : nat -> Model -> option (string -> Q).

Definition add_product_sink_reaction : string -> M string :=
  add_product_sink_reaction "_sink".

Definition calc_product_maximal_theoretical_yield : string -> M Q :=
  calc_product_maximal_theoretical_yield loopless_oracle.

Definition calc_maximal_biomass_growth : string -> M Q :=
  calc_maximal_biomass_growth loopless_oracle.

Definition init : string -> string -> Q -> M Analyzer :=
  init loopless_oracle "_sink".

Definition check_essential_reaction : Analyzer -> string -> M bool :=
  check_essential_reaction loopless_oracle.

(** One pass of the inner loop: [flux_list[r.id]] gets the flux of
    this solution appended, or is created. *)
Definition record_flux (sol : string -> Q)
    (flux_list : gmap string (list Q)) (rid : string)
    : gmap string (list Q) :=
  match flux_list !! rid with
  | Some fs => <[rid := fs ++ [sol rid]]> flux_list
  | None => <[rid := [sol rid]]> flux_list
  end.

(** The loop [for _ in range(n)] of
    [get_average_fluxes_from_n_solutions] (fseof_fs.py 141-148). *)
Fixpoint sample (n : nat) (flux_list : gmap string (list Q))
    : M (gmap string (list Q)) :=
  match n with
  | O => ret flux_list
  | S n' =>
      let! sol := loopless_solution loopless_oracle in
      let! m := get_model in
      sample n' (fold_left (record_flux sol) (reaction_ids m) flux_list)
  end.

(** [get_average_fluxes_from_n_solutions] (fseof_fs.py 127-153); the
    progress bar is left out. *)
Definition get_average_fluxes_from_n_solutions (n : nat)
    : M (gmap string Q) :=
  let! flux_list := sample n ∅ in
  ret ((fun fs => (py_sum fs / Q_of_nat (length fs))%Q) <$> flux_list).

(** One of the two [with] blocks of [run] (fseof_fs.py 176-187). *)
Definition fluxes_at (self : Analyzer) (fraction : Q) (n : nat)
    : M (gmap string Q) :=
  with_model (
    set_objective (biomass_reaction_id self) >>
    let! sink := get_by_id (product_sink_reaction_id self) in
    set_lower_bound (r_id sink)
      (product_max_theoretical_yield self * fraction)%Q >>
    get_average_fluxes_from_n_solutions n).

(** The body of the loop over the reaction ids (fseof_fs.py 191-219);
    [np.mean] of a single number is that number. *)
Definition classify (self : Analyzer) (check_essentiality : bool)
    (fluxes_low fluxes_high : gmap string Q)
    (df_data : list reaction_data) (r_id : string)
    : M (list reaction_data) :=
  let! mean_flux_low_r := getitem fluxes_low r_id in
  let! mean_flux_high_r := getitem fluxes_high r_id in
  if Qlt_bool 0 (mean_flux_low_r * mean_flux_high_r) then
    let target_type :=
      if Qlt_bool (Qabs mean_flux_low_r) (Qabs mean_flux_high_r)
      then "Up" else "Down" in
    let! reaction := get_by_id r_id in
    let! essential :=
      (if check_essentiality then
         let! e := check_essential_reaction self r_id in ret (Some e)
       else ret None) in
    ret (df_data
         ++ [mkData target_type r_id (r_name reaction) mean_flux_low_r
               mean_flux_high_r essential])
  else ret df_data.

Definition add_abs_diff (x : reaction_data) : Row :=
  mkRow x (Qabs (mean_flux_low x - mean_flux_high x)).

(** The frame, its added column and the sort.  On a frame without
    columns the added column is all there is (recent pandas refuses
    the assignment itself), and the sort has no [target_type]. *)
Definition to_sorted_frame (df_data : list reaction_data)
    : M (list Row) :=
  let columns := columns_of df_data ++ ["abs_diff_mean_fluxes"] in
  let df := map add_abs_diff df_data in
  require_columns ["target_type"; "abs_diff_mean_fluxes"] columns >>
  ret (sort_values may_precede df).

(** [run] (fseof_fs.py 155-227) *)
Definition run (self : Analyzer) (fraction_low fraction_high : Q)
    (check_essentiality : bool) (n : nat) : M (list Row) :=
  let! fluxes_low := fluxes_at self fraction_low n in
  let! fluxes_high := fluxes_at self fraction_high n in
  let! m := get_model in
  let! df_data :=
    fold_each (reaction_ids m)
      (classify self check_essentiality fluxes_low fluxes_high) [] in
  to_sorted_frame df_data.

End WithSolver.

End FSEOF_FS.

(** ** FVSEOF ([fvseof/fvseof.py]) *)
Module FVSEOF.

(** A row of the returned frame; [reaction_id] is its index. *)
Record Row : Type := mkRow {
  reaction_id : string;
  target_type : string;
  slope : Q;
  gene_reaction_rule : string;
  essentiality : option bool;   (* the key is absent without the check *)
  steps : list Q                (* the columns step_0, step_1, ... *)
}.

Definition may_precede (a b : Row) : bool :=
  descending (target_type a) (Qabs (slope a))
    (target_type b) (Qabs (slope b)).

Definition columns_of (df_data : list Row) : list string :=
  match df_data with
  | [] => []
  | _ :: _ => ["target_type"; "slope"; "gene_reaction_rule"]
  end.

Section WithSolver.

Variable loopless_oracle : nat -> Model -> option (string -> Q).
Variable fva_oracle : nat -> Model -> Q -> nat -> option (string -> fva_row).
(** [np.polyfit(x, y, 1)[0]]; [None] when the fit raises. *)
Variable polyfit : list Q -> list Q -> option Q.

Definition add_product_sink_reaction : string -> M string :=
  add_product_sink_reaction "_fvseof_sink".

Definition calc_product_maximal_theoretical_yield : string -> M Q :=
  calc_product_maximal_theoretical_yield loopless_oracle.

Definition calc_maximal_biomass_growth : string -> M Q :=
  calc_maximal_biomass_growth loopless_oracle.

Definition init : string -> string -> Q -> M Analyzer :=
  init loopless_oracle "_fvseof_sink".

Definition check_essential_reaction : Analyzer -> string -> M bool :=
  check_essential_reaction loopless_oracle.

(** [[n/n_steps*self.product_max_theoretical_yield for n in
    range(0, n_steps)]] (fvseof.py 143) *)
Definition steps_lower_bounds (self : Analyzer) (n_steps : nat) : list Q :=
  map (fun n => (Q_of_nat n / Q_of_nat n_steps
                 * product_max_theoretical_yield self)%Q)
    (seq 0 n_steps).

(** [per_step_fluxes[r_id].append(value r_id)] *)
Definition append_flux (value : string -> Q)
    (per_step_fluxes : gmap string (list Q)) (r_id : string)
    : M (gmap string (list Q)) :=
  let! fs := getitem per_step_fluxes r_id in
  ret (<[r_id := fs ++ [value r_id]]> per_step_fluxes).

(** The body of the loop over the levels: one scoped probe
    (fvseof.py 150-161). *)
Definition step (self : Analyzer) (fva : bool) (fva_n_processes : nat)
    (per_step_fluxes : gmap string (list Q)) (step_lower_bound : Q)
    : M (gmap string (list Q)) :=
  with_model (
    set_objective (biomass_reaction_id self) >>
    let! sink := get_by_id (product_sink_reaction_id self) in
    set_lower_bound (r_id sink) step_lower_bound >>
    if fva then
      let! fva_df :=
        flux_variability_analysis fva_oracle (95 # 100) fva_n_processes in
      let! m := get_model in
      fold_each (reaction_ids m)
        (append_flux (fun r_id =>
           ((maximum (fva_df r_id) + minimum (fva_df r_id)) / 2)%Q))
        per_step_fluxes
    else
      let! fba_sol := loopless_solution loopless_oracle in
      let! m := get_model in
      fold_each (reaction_ids m) (append_flux fba_sol) per_step_fluxes).

(** The first phase of [run]: the sweep over the levels
    (fvseof.py 147-161). *)
Definition sweep (self : Analyzer) (n_steps : nat) (fva : bool)
    (fva_n_processes : nat) : M (gmap string (list Q)) :=
  let! m := get_model in
  let per_step_fluxes : gmap string (list Q) :=
    list_to_map (map (fun r_id => (r_id, [])) (reaction_ids m)) in
  fold_each (steps_lower_bounds self n_steps)
    (step self fva fva_n_processes) per_step_fluxes.

(** The target type given to a flux series, if any (fvseof.py 167-174);
    [and] evaluates the last flux only when the first is not 0. *)
Definition assign_target_type (per_step_fluxes : gmap string (list Q))
    (target_types : gmap string string) (r_id : string)
    : M (gmap string string) :=
  let! fs := getitem per_step_fluxes r_id in
  let! first := index fs 0 in
  if negb (Qeq_bool first 0) then
    let! last := index_last fs in
    if negb (Qeq_bool last 0) then
      if Qle_bool 0 (first * last) then
        if Qlt_bool (Qabs first) (Qabs last)
        then ret (<[r_id := "Up"]> target_types)
        else ret (<[r_id := "Down"]> target_types)
      else if Qlt_bool (first * last) 0
      then ret (<[r_id := "Reverse"]> target_types)
      else ret target_types
    else ret target_types
  else ret target_types.

(** [slopes[r_id] = np.polyfit(steps_lower_bounds,
    per_step_fluxes[r_id], 1)[0]] (fvseof.py 179) *)
Definition fit_slope (steps_lower_bounds : list Q)
    (per_step_fluxes : gmap string (list Q))
    (slopes : gmap string Q) (r_id : string) : M (gmap string Q) :=
  let! fs := getitem per_step_fluxes r_id in
  match polyfit steps_lower_bounds fs with
  | Some s => ret (<[r_id := s]> slopes)
  | None => raise LinAlgError
  end.

(** The body of the essentiality loop (fvseof.py 187-188). *)
Definition find_essentiality (self : Analyzer)
    (target_types : gmap string string)
    (essentialities : gmap string bool) (r_id : string)
    : M (gmap string bool) :=
  match target_types !! r_id with
  | Some _ =>
      let! e := check_essential_reaction self r_id in
      ret (<[r_id := e]> essentialities)
  | None => ret essentialities
  end.

(** The body of the loop that builds [df_data] (fvseof.py 193-204). *)
Definition combine (check_essentiality : bool)
    (steps_lower_bounds : list Q)
    (per_step_fluxes : gmap string (list Q))
    (target_types : gmap string string) (slopes : gmap string Q)
    (essentialities : gmap string bool)
    (df_data : list Row) (r_id : string) : M (list Row) :=
  match target_types !! r_id with
  | Some target_type =>
      let! slope := getitem slopes r_id in
      let! reaction := get_by_id r_id in
      let! essentiality :=
        (if check_essentiality then
           let! e := getitem essentialities r_id in ret (Some e)
         else ret None) in
      let! fs := getitem per_step_fluxes r_id in
      let! steps :=
        fold_each (seq 0 (length steps_lower_bounds))
          (fun acc i => let! f := index fs i in ret (acc ++ [f])) [] in
      ret (df_data
           ++ [mkRow r_id target_type slope
                 (r_gene_reaction_rule reaction) essentiality steps])
  | None => ret df_data
  end.

(** The frame and the sort (fvseof.py 206-208); a frame built from the
    empty dict has no columns. *)
Definition to_sorted_frame (df_data : list Row) : M (list Row) :=
  require_columns ["target_type"; "slope"] (columns_of df_data) >>
  ret (sort_values may_precede df_data).

(** [run] (fvseof.py 123-210); the progress messages are left out. *)
Definition run (self : Analyzer) (n_steps : nat)
    (check_essentiality fva : bool) (fva_n_processes : nat)
    : M (list Row) :=
  let steps_lower_bounds := steps_lower_bounds self n_steps in
  let! per_step_fluxes := sweep self n_steps fva fva_n_processes in
  let! m := get_model in
  let! target_types :=
    fold_each (reaction_ids m) (assign_target_type per_step_fluxes) ∅ in
  let! slopes :=
    fold_each (reaction_ids m)
      (fit_slope steps_lower_bounds per_step_fluxes) ∅ in
  let! essentialities :=
    (if check_essentiality then
       fold_each (reaction_ids m)
         (find_essentiality self target_types) ∅
     else ret ∅) in
  let! df_data :=
    fold_each (reaction_ids m)
      (combine check_essentiality steps_lower_bounds per_step_fluxes
         target_types slopes essentialities) [] in
  to_sorted_frame df_data.

End WithSolver.

End FVSEOF.

(** * Vocabulary of the properties *)

(** ** Effects on the world *)

(** [p] leaves the shared model and the open contexts as it found them,
    whatever its outcome. *)
Definition preserving {A} (p : M A) : Prop :=
  forall w, model (p w).2 = model w /\ contexts (p w).2 = contexts w.

(** [p], run inside an open context, only makes edits that the context
    can take back: replaying the innermost context afterwards gives the
    same model as replaying it before. *)
Definition scoped {A} (p : M A) : Prop :=
  forall w c cs,
    contexts w = c :: cs ->
    exists c',
      contexts (p w).2 = c' :: cs
      /\ rewind c' (model (p w).2) = rewind c (model w).

(** [p] reads the world and leaves all of it as it was. *)
Definition stateless {A} (p : M A) : Prop := forall w, (p w).2 = w.

(** An exception other than a failed assertion. *)
Definition not_assertion {A} (r : result A) : Prop :=
  match r with
  | Raise (AssertionError _) => False
  | _ => True
  end.

Definition assertion_free {A} (p : M A) : Prop :=
  forall w, not_assertion (p w).1.

(** ** Models, bounds and solver calls *)

(** The lower bound a model puts on a reaction (0 when it has none). *)
Definition lower_bound_of (rid : string) (m : Model) : Q :=
  match find_reaction rid (reactions m) with
  | Some r => r_lower_bound r
  | None => 0%Q
  end.

Definition upper_bound_of (rid : string) (m : Model) : Q :=
  match find_reaction rid (reactions m) with
  | Some r => r_upper_bound r
  | None => 0%Q
  end.

(** The reaction built by [add_product_sink_reaction]. *)
Definition sink_reaction (sink_suffix target_metabolite_id : string)
    : Reaction :=
  mkReaction (target_metabolite_id ++ sink_suffix)%string "" ""
    0%Q 1000%Q [(target_metabolite_id, (-1)%Q)].

(** [__init__] after its two assertions. *)
Definition construct oracle (suffix biomass target : string) (threshold : Q)
    : M Analyzer :=
  let! product_sink_reaction_id := add_product_sink_reaction suffix target in
  let! product_max_theoretical_yield :=
    calc_product_maximal_theoretical_yield oracle product_sink_reaction_id in
  let! maximal_biomass_growth :=
    calc_maximal_biomass_growth oracle biomass in
  ret (mkAnalyzer biomass target product_sink_reaction_id
         product_max_theoretical_yield maximal_biomass_growth threshold).

(** The model an essentiality probe hands to the solver: the biomass
    reaction as objective, and both bounds of the probed reaction at 0. *)
Definition knockout (biomass rid : string) (m : Model) : Model :=
  let m1 := with_objective biomass m in
  let m2 :=
    with_reactions (alter_reaction (with_lower_bound 0%Q) rid (reactions m1))
      m1 in
  with_reactions (alter_reaction (with_upper_bound 0%Q) rid (reactions m2)) m2.

(** The model a flux-aggregation probe hands to the solver: the biomass
    reaction as objective, and the sink's lower bound at the level. *)
Definition forced (biomass sink : string) (level : Q) (m : Model) : Model :=
  let m1 := with_objective biomass m in
  with_reactions (alter_reaction (with_lower_bound level) sink (reactions m1))
    m1.

(** The solver call of a level. *)
Definition sweep_call (fva : bool) (processes : nat) (m : Model) : call :=
  if fva then FvaCall m (95 # 100)%Q processes else LooplessCall m.

(** The solver calls of the levels. *)
Definition sweep_calls (fva : bool) (processes : nat) (biomass sink : string)
    (m : Model) (levels : list Q) : list call :=
  map (fun level => sweep_call fva processes (forced biomass sink level m))
    levels.

(** A call made by an essentiality probe. *)
Definition is_knockout_call (biomass : string) (m : Model) (c : call) : Prop :=
  exists rid, c = LooplessCall (knockout biomass rid m).

(** ** Classification *)

(** The three target types, and their order as strings. *)
Definition is_target_type (t : string) : Prop :=
  t = "Up" \/ t = "Down" \/ t = "Reverse".

(** What [FSEOF_FS.run] decides for a pair of mean fluxes: the target
    type, or nothing when the reaction is left out. *)
Definition fseof_target_type (low high : Q) : option string :=
  if Qlt_bool 0 (low * high) then
    Some (if Qlt_bool (Qabs low) (Qabs high) then "Up" else "Down")
  else None.

(** What [FVSEOF.run] decides for the first and the last flux of a
    series: the target type, or nothing when the reaction is left out. *)
Definition fvseof_target_type (first last : Q) : option string :=
  if negb (Qeq_bool first 0) && negb (Qeq_bool last 0) then
    if Qle_bool 0 (first * last) then
      Some (if Qlt_bool (Qabs first) (Qabs last) then "Up" else "Down")
    else if Qlt_bool (first * last) 0 then Some "Reverse"
    else None
  else None.

(** The same, for the series recorded for a reaction. *)
Definition series_target_type (per_step_fluxes : gmap string (list Q))
    (rid : string) : option string :=
  match per_step_fluxes !! rid with
  | Some fs =>
      match fs !! 0%nat, last fs with
      | Some f, Some l => fvseof_target_type f l
      | _, _ => None
      end
  | None => None
  end.

(** ** The sweep as a function *)

(** The representative fluxes of a level, when the solver answers: the
    midpoints of the variability ranges, or the fluxes of one optimum. *)
Definition representative_fluxes
    (lo : nat -> Model -> option (string -> Q))
    (fo : nat -> Model -> Q -> nat -> option (string -> fva_row))
    (fva : bool) (processes : nat) (i : nat) (m : Model)
    : option (string -> Q) :=
  if fva then
    match fo i m (95 # 100)%Q processes with
    | Some df =>
        Some (fun r_id => ((maximum (df r_id) + minimum (df r_id)) / 2)%Q)
    | None => None
    end
  else lo i m.

(** The appends of one level, as a function of the dict. *)
Fixpoint append_fluxes (value : string -> Q) (ids : list string)
    (d : gmap string (list Q)) : result (gmap string (list Q)) :=
  match ids with
  | [] => Return d
  | rid :: ids' =>
      match d !! rid with
      | Some fs => append_fluxes value ids' (<[rid := fs ++ [value rid]]> d)
      | None => Raise (KeyError rid)
      end
  end.

(** The sweep as a function: the [i]-th solver call answers the first
    level, the next one the second, and so on, always on the model forced
    to the level. *)
Fixpoint sweep_from
    (lo : nat -> Model -> option (string -> Q))
    (fo : nat -> Model -> Q -> nat -> option (string -> fva_row))
    (fva : bool) (processes : nat) (biomass sink : string) (m : Model)
    (i : nat) (levels : list Q) (d : gmap string (list Q))
    : result (gmap string (list Q)) :=
  match levels with
  | [] => Return d
  | level :: levels' =>
      match representative_fluxes lo fo fva processes i
              (forced biomass sink level m) with
      | Some value =>
          match append_fluxes value (reaction_ids m) d with
          | Return d' =>
              sweep_from lo fo fva processes biomass sink m (S i) levels' d'
          | Raise e => Raise e
          end
      | None => Raise OptimizationError
      end
  end.

(** ** Outcomes *)

(** The table of a returned run (empty when it raised). *)
Definition table_of {R} (outcome : result (list R) * World) : list R :=
  match outcome.1 with
  | Return tbl => tbl
  | Raise _ => []
  end.

Definition value_of {V} (default : V) (outcome : result V * World) : V :=
  match outcome.1 with
  | Return v => v
  | Raise _ => default
  end.

(** * A small model for the worked examples *)

Definition example_reaction (rid : string) : Reaction :=
  mkReaction rid rid "" (-1000)%Q 1000%Q [].

(** Five reactions and two metabolites; the biomass reaction is the
    objective the model comes with. *)
Definition example_model : Model :=
  mkModel
    [example_reaction "BIO"; example_reaction "R1"; example_reaction "R2";
     example_reaction "R3"; example_reaction "R4"]
    ["A"; "P"] "BIO".

Definition example_world : World := mkWorld example_model [] [].

Definition blocked (rid : string) (m : Model) : bool :=
  Qeq_bool (lower_bound_of rid m) 0 && Qeq_bool (upper_bound_of rid m) 0.

(** An example solver for [example_model] with the sink [sink].  Without
    R1 nothing is feasible; without R2 growth drops to a fifth.  The sink
    carries 10 when it is the objective and its lower bound otherwise; the
    other fluxes follow the sink's lower bound [p]:
    R1 = 1 + p, R2 = 5 - p, R3 = p - 1, R4 = 8 - p / 2. *)
Definition example_solver (sink : string) (i : nat) (m : Model)
    : option (string -> Q) :=
  if blocked "R1" m then None
  else
    let p := lower_bound_of sink m in
    Some (fun rid =>
      if String.eqb rid "BIO" then (if blocked "R2" m then 1 # 5 else 1)
      else if String.eqb rid sink then
        (if String.eqb (objective m) sink then 10 else p)
      else if String.eqb rid "R1" then 1 + p
      else if String.eqb rid "R2" then 5 - p
      else if String.eqb rid "R3" then p - 1
      else if String.eqb rid "R4" then 8 - p / 2
      else 0)%Q.

(** The variability analysis of the example: every range is a point. *)
Definition example_fva (sink : string) (i : nat) (m : Model)
    (fraction_of_optimum : Q) (processes : nat) : option (string -> fva_row) :=
  match example_solver sink i m with
  | Some sol => Some (fun rid => mkFva (sol rid) (sol rid))
  | None => None
  end.

(** A solver for which nothing carries flux. *)
Definition idle_solver (i : nat) (m : Model) : option (string -> Q) :=
  Some (fun _ => 0%Q).

(** A variability analysis for which nothing carries flux. *)
Definition idle_fva (i : nat) (m : Model) (fraction_of_optimum : Q)
    (processes : nat) : option (string -> fva_row) :=
  Some (fun _ => mkFva 0%Q 0%Q).

Definition dot (xs ys : list Q) : Q :=
  py_sum (map (fun xy => (fst xy * snd xy)%Q) (combine xs ys)).

(** The least-squares slope of the points [(x, y)], in closed form:
    (n Sxy - Sx Sy) / (n Sxx - Sx Sx).  [on_singular] is the answer when
    the abscissae do not determine a line (the denominator is 0). *)
Definition least_squares_slope (on_singular : option Q) (xs ys : list Q)
    : option Q :=
  let n := Q_of_nat (length xs) in
  let den := (n * dot xs xs - py_sum xs * py_sum xs)%Q in
  if Qeq_bool den 0 then on_singular
  else Some (Qred ((n * dot xs ys - py_sum xs * py_sum ys) / den)).

(** An example fit that raises on a singular system, as [np.polyfit]
    does for a single abscissa 0. *)
Definition strict_fit : list Q -> list Q -> option Q :=
  least_squares_slope None.

(** The FSEOF_FS analyzer built on the example model, and the world it
    leaves: the example model with the sink "P_sink". *)
Definition fseof_self : Analyzer :=
  mkAnalyzer "BIO" "P" "P_sink" 10%Q 1%Q (1 # 2)%Q.

Definition fseof_world : World :=
  Eval vm_compute in
    (FSEOF_FS.init (example_solver "P_sink") "BIO" "P" (1 # 2)%Q
       example_world).2.

(** The FVSEOF analyzer built on the example model. *)
Definition fvseof_self : Analyzer :=
  mkAnalyzer "BIO" "P" "P_fvseof_sink" 10%Q 1%Q (1 # 2)%Q.

Definition fvseof_world : World :=
  Eval vm_compute in
    (FVSEOF.init (example_solver "P_fvseof_sink") "BIO" "P" (1 # 2)%Q
       example_world).2.

(** The analyzer built with the idle solver: both capacities are 0. *)
Definition idle_self : Analyzer :=
  mkAnalyzer "BIO" "P" "P_sink" 0%Q 0%Q (1 # 2)%Q.

Definition idle_world : World :=
  Eval vm_compute in
    (FSEOF_FS.init idle_solver "BIO" "P" (1 # 2)%Q example_world).2.

(** The FVSEOF analyzer built with the idle solver: the maximal
    theoretical yield is 0. *)
Definition idle_fvseof_self : Analyzer :=
  mkAnalyzer "BIO" "P" "P_fvseof_sink" 0%Q 0%Q (1 # 2)%Q.

Definition idle_fvseof_world : World :=
  Eval vm_compute in
    (FVSEOF.init idle_solver "BIO" "P" (1 # 2)%Q example_world).2.



(** The example model in which the id "P_sink" is already taken, by a
    reaction with bounds [-3, 7] that does not consume P. *)
Definition taken_reaction : Reaction :=
  mkReaction "P_sink" "exchange" "" (-3)%Q 7%Q [("A", 1%Q)].

Definition taken_world : World :=
  mkWorld
    (with_reactions (reactions example_model ++ [taken_reaction])
       example_model)
    [] [].

(** * Further vocabulary *)

(** The model with the sink reaction registered. *)
Definition with_sink (sink_suffix target_metabolite_id : string) (m : Model)
    : Model :=
  with_reactions (reactions m ++ [sink_reaction sink_suffix target_metabolite_id])
    m.

(** A solver that never finds a solution. *)
Definition failing_solver (i : nat) (m : Model) : option (string -> Q) := None.

(** The flux lists of the sampling loop after the solutions [sols], for
    the reaction ids [ids], starting from [flux_list]. *)
Definition recorded (ids : list string) (sols : list (string -> Q))
    (flux_list : gmap string (list Q)) : gmap string (list Q) :=
  fold_left
    (fun acc sol => fold_left (FSEOF_FS.record_flux sol) ids acc)
    sols flux_list.

(** [sum(fs)/len(fs)] *)
Definition mean (fs : list Q) : Q := (py_sum fs / Q_of_nat (length fs))%Q.

(** What a row of FSEOF_FS.run carries beside its fluxes: the name of
    its reaction in the model [m] and, with the check, the answer of
    [check_essential_reaction] on that model. *)
Definition fseof_row_ok (oracle : nat -> Model -> option (string -> Q))
    (self : Analyzer) (ce : bool) (m : Model)
    (d : FSEOF_FS.reaction_data) : Prop :=
  (exists r,
      find_reaction (FSEOF_FS.reaction_id d) (reactions m) = Some r
      /\ FSEOF_FS.reaction_name d = r_name r)
  /\ if ce then
       exists e w1 w2,
         FSEOF_FS.essential d = Some e
         /\ model w1 = m
         /\ check_essential_reaction oracle self (FSEOF_FS.reaction_id d) w1
            = (Return e, w2)
     else FSEOF_FS.essential d = None.

(** The reaction ids that were given a target type, in the order of the
    model. *)
Definition typed (target_types : gmap string string) (ids : list string)
    : list string :=
  filter (fun rid => is_Some (target_types !! rid)) ids.

(** What a row of FVSEOF.run carries beside its target type and slope:
    the gene rule of its reaction in the model [m], with the check the
    flag stored for the reaction, and the fluxes of its series for the
    levels. *)
Definition fvseof_row_ok (ce : bool) (levels : list Q)
    (per_step : gmap string (list Q)) (ess : gmap string bool) (m : Model)
    (row : FVSEOF.Row) : Prop :=
  (exists r,
      find_reaction (FVSEOF.reaction_id row) (reactions m) = Some r
      /\ FVSEOF.gene_reaction_rule row = r_gene_reaction_rule r)
  /\ (if ce then
        exists e,
          ess !! FVSEOF.reaction_id row = Some e
          /\ FVSEOF.essentiality row = Some e
      else FVSEOF.essentiality row = None)
  /\ exists fs,
       per_step !! FVSEOF.reaction_id row = Some fs
       /\ FVSEOF.steps row = take (length levels) fs
       /\ length (FVSEOF.steps row) = length levels.
(** * Properties *)

(** ** Lookups and in-place updates *)

Lemma find_reaction_id rid rs r :
  find_reaction rid rs = Some r -> r_id r = rid.
Proof.
  induction rs as [|r0 rs IH]; simpl; [discriminate|].
  destruct (String.eqb_spec (r_id r0) rid); [congruence | exact IH].
Qed.

Lemma find_reaction_has_id rid m :
  has_id rid m = true <-> is_Some (find_reaction rid (reactions m)).
Proof.
  unfold has_id, reaction_ids.
  induction (reactions m) as [|r0 rs IH]; simpl.
  - split; [discriminate | intros [? ?]; discriminate].
  - rewrite String.eqb_sym.
    destruct (String.eqb (r_id r0) rid); simpl; [|exact IH].
    split; eauto.
Qed.

Lemma has_id_elem_of rid m : has_id rid m = true <-> rid ∈ reaction_ids m.
Proof.
  unfold has_id. rewrite existsb_exists, list_elem_of_In.
  split.
  - intros (x & Hx & He). apply String.eqb_eq in He. congruence.
  - intros Hx. exists rid. split; [exact Hx | apply String.eqb_refl].
Qed.

Lemma model_eta m : mkModel (reactions m) (metabolites m) (objective m) = m.
Proof. destruct m; reflexivity. Qed.

Lemma alter_reaction_ids f rid rs :
  (forall r, r_id (f r) = r_id r) ->
  map r_id (alter_reaction f rid rs) = map r_id rs.
Proof.
  intros Hf. induction rs as [|r0 rs IH]; simpl; [reflexivity|].
  destruct (String.eqb (r_id r0) rid); simpl; [rewrite Hf | rewrite IH];
    reflexivity.
Qed.

(** Writing a bound and then writing the old value back is the identity. *)
Lemma restore_lower_bound rid rs r v :
  find_reaction rid rs = Some r ->
  alter_reaction (with_lower_bound (r_lower_bound r)) rid
    (alter_reaction (with_lower_bound v) rid rs) = rs.
Proof.
  induction rs as [|r0 rs IH]; simpl; [discriminate|].
  destruct (String.eqb (r_id r0) rid) eqn:E; simpl.
  - intros [= <-]. rewrite E. destruct r0; reflexivity.
  - intros H. rewrite E, IH; [reflexivity | exact H].
Qed.

Lemma restore_upper_bound rid rs r v :
  find_reaction rid rs = Some r ->
  alter_reaction (with_upper_bound (r_upper_bound r)) rid
    (alter_reaction (with_upper_bound v) rid rs) = rs.
Proof.
  induction rs as [|r0 rs IH]; simpl; [discriminate|].
  destruct (String.eqb (r_id r0) rid) eqn:E; simpl.
  - intros [= <-]. rewrite E. destruct r0; reflexivity.
  - intros H. rewrite E, IH; [reflexivity | exact H].
Qed.

Lemma remove_added_reaction r rs :
  existsb (String.eqb (r_id r)) (map r_id rs) = false ->
  remove_reaction (r_id r) (rs ++ [r]) = rs.
Proof.
  induction rs as [|r0 rs IH]; simpl.
  - rewrite String.eqb_refl. reflexivity.
  - rewrite String.eqb_sym.
    destruct (String.eqb (r_id r0) (r_id r)); simpl; [discriminate|].
    intros H. rewrite IH; [reflexivity | exact H].
Qed.

(** ** Reasoning about programs *)

Lemma bind_inv {A B} (p : M A) (k : A -> M B) w r w' :
  bind p k w = (r, w') ->
  (exists a w1, p w = (Return a, w1) /\ k a w1 = (r, w'))
  \/ (exists e, p w = (Raise e, w') /\ r = Raise e).
Proof.
  unfold bind. destruct (p w) as [[a|e] w1]; intros H.
  - left. eauto.
  - right. inversion H; subst. eauto.
Qed.

Lemma bind_Return_inv {A B} (p : M A) (k : A -> M B) w b w' :
  bind p k w = (Return b, w') ->
  exists a w1, p w = (Return a, w1) /\ k a w1 = (Return b, w').
Proof.
  intros H. apply bind_inv in H as [H | (e & _ & H)]; [exact H | discriminate].
Qed.

Lemma bind_Return {A B} (p : M A) (k : A -> M B) w a w1 :
  p w = (Return a, w1) -> bind p k w = k a w1.
Proof. unfold bind. intros ->. reflexivity. Qed.

Lemma bind_Raise {A B} (p : M A) (k : A -> M B) w e w1 :
  p w = (Raise e, w1) -> bind p k w = (Raise e, w1).
Proof. unfold bind. intros ->. reflexivity. Qed.

(** ** The frame of a scoped edit *)

Lemma preserving_scoped {A} (p : M A) : preserving p -> scoped p.
Proof.
  intros Hp w c cs Hc. destruct (Hp w) as [Hm Hk].
  exists c. rewrite Hk, Hm. auto.
Qed.

Lemma preserving_ret {A} (a : A) : preserving (ret a).
Proof. intros w. auto. Qed.

Lemma preserving_raise {A} e : preserving (@raise A e).
Proof. intros w. auto. Qed.

Lemma preserving_bind {A B} (p : M A) (k : A -> M B) :
  preserving p -> (forall a, preserving (k a)) -> preserving (bind p k).
Proof.
  intros Hp Hk w. unfold bind. specialize (Hp w).
  destruct (p w) as [[a|e] w1]; simpl in *; [|exact Hp].
  destruct (Hk a w1) as [H1 H2]. destruct Hp as [H3 H4].
  split; congruence.
Qed.

Lemma preserving_try_except {A} (p h : M A) :
  preserving p -> preserving h -> preserving (try_except p h).
Proof.
  intros Hp Hh w. unfold try_except. specialize (Hp w).
  destruct (p w) as [[a|e] w1]; simpl in *; [exact Hp|].
  destruct (Hh w1) as [H1 H2]. destruct Hp as [H3 H4].
  split; congruence.
Qed.

Lemma preserving_fold_each {A S} (body : S -> A -> M S) xs :
  (forall s x, preserving (body s x)) ->
  forall s, preserving (fold_each xs body s).
Proof.
  intros Hb. induction xs as [|x xs IH]; simpl; intros s.
  - apply preserving_ret.
  - apply preserving_bind; [apply Hb | exact IH].
Qed.

Lemma preserving_for_each {A} (body : A -> M unit) xs :
  (forall x, preserving (body x)) -> preserving (for_each xs body).
Proof.
  intros Hb. induction xs as [|x xs IH]; simpl.
  - apply preserving_ret.
  - apply preserving_bind; [apply Hb | intros _; exact IH].
Qed.

Lemma scoped_bind {A B} (p : M A) (k : A -> M B) :
  scoped p -> (forall a, scoped (k a)) -> scoped (bind p k).
Proof.
  intros Hp Hk w c cs Hc. unfold bind.
  destruct (Hp w c cs Hc) as (c1 & H1 & H2).
  destruct (p w) as [[a|e] w1]; simpl in *.
  - destruct (Hk a w1 c1 cs H1) as (c2 & H3 & H4).
    exists c2. split; [exact H3 | congruence].
  - exists c1. auto.
Qed.

Lemma scoped_try_except {A} (p h : M A) :
  scoped p -> scoped h -> scoped (try_except p h).
Proof.
  intros Hp Hh w c cs Hc. unfold try_except.
  destruct (Hp w c cs Hc) as (c1 & H1 & H2).
  destruct (p w) as [[a|e] w1]; simpl in *.
  - exists c1. auto.
  - destruct (Hh w1 c1 cs H1) as (c2 & H3 & H4).
    exists c2. split; [exact H3 | congruence].
Qed.

Lemma scoped_fold_each {A S} (body : S -> A -> M S) xs :
  (forall s x, scoped (body s x)) ->
  forall s, scoped (fold_each xs body s).
Proof.
  intros Hb. induction xs as [|x xs IH]; simpl; intros s.
  - apply preserving_scoped, preserving_ret.
  - apply scoped_bind; [apply Hb | exact IH].
Qed.

(** *** The primitives *)

Lemma preserving_get_model : preserving get_model.
Proof. intros w. auto. Qed.

Lemma preserving_get_by_id rid : preserving (get_by_id rid).
Proof.
  intros w. unfold get_by_id.
  destruct (find_reaction rid (reactions (model w))); auto.
Qed.

Lemma preserving_get_metabolite mid : preserving (get_metabolite mid).
Proof.
  intros w. unfold get_metabolite.
  destruct (existsb (String.eqb mid) (metabolites (model w))); auto.
Qed.

Lemma preserving_assert b msg : preserving (assert b msg).
Proof. destruct b; [apply preserving_ret | apply preserving_raise]. Qed.

Lemma preserving_getitem {V} (d : gmap string V) key :
  preserving (getitem d key).
Proof.
  unfold getitem.
  destruct (d !! key); [apply preserving_ret | apply preserving_raise].
Qed.

Lemma preserving_index {V} (xs : list V) i : preserving (index xs i).
Proof.
  unfold index.
  destruct (xs !! i); [apply preserving_ret | apply preserving_raise].
Qed.

Lemma preserving_index_last {V} (xs : list V) : preserving (index_last xs).
Proof.
  unfold index_last.
  destruct (last xs); [apply preserving_ret | apply preserving_raise].
Qed.

Lemma preserving_require_columns by_ columns :
  preserving (require_columns by_ columns).
Proof.
  apply preserving_for_each. intros c.
  destruct (existsb (String.eqb c) columns);
    [apply preserving_ret | apply preserving_raise].
Qed.

Lemma preserving_loopless_solution oracle :
  preserving (loopless_solution oracle).
Proof.
  intros w. unfold loopless_solution.
  destruct (oracle _ _); auto.
Qed.

Lemma preserving_flux_variability_analysis oracle fraction processes :
  preserving (flux_variability_analysis oracle fraction processes).
Proof.
  intros w. unfold flux_variability_analysis.
  destruct (oracle _ _ _ _); auto.
Qed.

Lemma scoped_set_objective rid : scoped (set_objective rid).
Proof.
  intros w c cs Hc. unfold set_objective.
  destruct (has_id rid (model w)); simpl.
  - rewrite Hc. simpl. eexists. split; [reflexivity|].
    simpl. unfold with_objective. simpl. rewrite model_eta. reflexivity.
  - exists c. auto.
Qed.

Lemma scoped_set_lower_bound rid v : scoped (set_lower_bound rid v).
Proof.
  intros w c cs Hc. unfold set_lower_bound.
  destruct (find_reaction rid (reactions (model w))) as [r|] eqn:Hr; simpl.
  - destruct (Qlt_bool (r_upper_bound r) v); simpl; [exists c; auto|].
    rewrite Hc. simpl. eexists. split; [reflexivity|].
    simpl. unfold with_reactions. simpl.
    rewrite (restore_lower_bound _ _ _ _ Hr), model_eta. reflexivity.
  - exists c. auto.
Qed.

Lemma scoped_set_upper_bound rid v : scoped (set_upper_bound rid v).
Proof.
  intros w c cs Hc. unfold set_upper_bound.
  destruct (find_reaction rid (reactions (model w))) as [r|] eqn:Hr; simpl.
  - destruct (Qlt_bool v (r_lower_bound r)); simpl; [exists c; auto|].
    rewrite Hc. simpl. eexists. split; [reflexivity|].
    simpl. unfold with_reactions. simpl.
    rewrite (restore_upper_bound _ _ _ _ Hr), model_eta. reflexivity.
  - exists c. auto.
Qed.

Lemma scoped_add_reactions r : scoped (add_reactions r).
Proof.
  intros w c cs Hc. unfold add_reactions.
  destruct (has_id (r_id r) (model w)) eqn:Hr; simpl.
  - exists c. auto.
  - rewrite Hc. simpl. eexists. split; [reflexivity|].
    simpl. unfold with_reactions. simpl.
    rewrite (remove_added_reaction _ _ Hr), model_eta. reflexivity.
Qed.

(** *** Leaving a context restores the model *)

Lemma with_model_preserving {A} (body : M A) :
  scoped body -> preserving (with_model body).
Proof.
  intros Hb w. unfold with_model.
  destruct (Hb (enter w) [] (contexts w) eq_refl) as (c' & H1 & H2).
  destruct (body (enter w)) as [r w1]. simpl in *.
  unfold leave. rewrite H1. simpl. auto.
Qed.

Create HintDb frame discriminated.

#[local] Hint Resolve preserving_ret preserving_raise preserving_get_model
  preserving_get_by_id preserving_get_metabolite preserving_assert
  preserving_getitem preserving_index preserving_index_last
  preserving_require_columns preserving_loopless_solution
  preserving_flux_variability_analysis : frame.
#[local] Hint Resolve scoped_set_objective scoped_set_lower_bound
  scoped_set_upper_bound scoped_add_reactions : frame.

(** Walks through a program text: binds, handlers, loops, branches. *)
Ltac frame :=
  repeat first
    [ progress intros
    | apply preserving_bind
    | apply preserving_try_except
    | apply preserving_fold_each
    | apply with_model_preserving
    | apply scoped_bind
    | apply scoped_try_except
    | apply scoped_fold_each
    | solve [auto with frame]
    | solve [apply preserving_scoped; auto with frame]
    | match goal with
      | |- preserving (if ?b then _ else _) => destruct b
      | |- scoped (if ?b then _ else _) => destruct b
      | |- preserving (match ?x with _ => _ end) => destruct x
      | |- scoped (match ?x with _ => _ end) => destruct x
      end ].

(** *** The probes *)

Lemma preserving_calc_yield oracle sink :
  preserving (calc_product_maximal_theoretical_yield oracle sink).
Proof. unfold calc_product_maximal_theoretical_yield. frame. Qed.

Lemma preserving_calc_growth oracle biomass :
  preserving (calc_maximal_biomass_growth oracle biomass).
Proof. unfold calc_maximal_biomass_growth. frame. Qed.

Lemma preserving_check_essential oracle self rid :
  preserving (check_essential_reaction oracle self rid).
Proof. unfold check_essential_reaction. frame. Qed.

#[local] Hint Resolve preserving_calc_yield preserving_calc_growth
  preserving_check_essential : frame.

Lemma preserving_sample oracle n :
  forall flux_list, preserving (FSEOF_FS.sample oracle n flux_list).
Proof. induction n as [|n IH]; simpl; frame. Qed.

#[local] Hint Resolve preserving_sample : frame.

Lemma preserving_fluxes_at oracle self fraction n :
  preserving (FSEOF_FS.fluxes_at oracle self fraction n).
Proof.
  unfold FSEOF_FS.fluxes_at, FSEOF_FS.get_average_fluxes_from_n_solutions.
  frame.
Qed.

#[local] Hint Resolve preserving_fluxes_at : frame.

Lemma preserving_fseof_run oracle self fraction_low fraction_high ce n :
  preserving (FSEOF_FS.run oracle self fraction_low fraction_high ce n).
Proof.
  unfold FSEOF_FS.run, FSEOF_FS.to_sorted_frame. frame.
Qed.

Lemma preserving_step lo fo self fva processes per_step level :
  preserving (FVSEOF.step lo fo self fva processes per_step level).
Proof. unfold FVSEOF.step, FVSEOF.append_flux. frame. Qed.

Lemma preserving_sweep lo fo self n_steps fva processes :
  preserving (FVSEOF.sweep lo fo self n_steps fva processes).
Proof. unfold FVSEOF.sweep. frame. Qed.

#[local] Hint Resolve preserving_step preserving_sweep : frame.

Lemma preserving_fvseof_run lo fo pf self n_steps ce fva processes :
  preserving (FVSEOF.run lo fo pf self n_steps ce fva processes).
Proof.
  unfold FVSEOF.run, FVSEOF.to_sorted_frame, FVSEOF.assign_target_type,
    FVSEOF.fit_slope, FVSEOF.find_essentiality, FVSEOF.combine,
    FVSEOF.check_essential_reaction.
  frame.
Qed.

(** ** Construction *)

Lemma bind_then_preserving {A B} (p : M A) (k : A -> M B) w :
  (forall a, preserving (k a)) ->
  model (bind p k w).2 = model (p w).2
  /\ contexts (bind p k w).2 = contexts (p w).2.
Proof.
  intros Hk. unfold bind. destruct (p w) as [[a|e] w1]; simpl; [|auto].
  apply Hk.
Qed.

Lemma existsb_eqb_elem_of (x : string) (xs : list string) :
  existsb (String.eqb x) xs = true <-> x ∈ xs.
Proof.
  rewrite existsb_exists, list_elem_of_In. split.
  - intros (y & Hy & He). apply String.eqb_eq in He. congruence.
  - intros Hx. exists x. split; [exact Hx | apply String.eqb_refl].
Qed.

Lemma add_product_sink_reaction_spec suffix target w :
  target ∈ metabolites (model w) ->
  add_product_sink_reaction suffix target w
  = (Return (target ++ suffix)%string,
     if has_id (target ++ suffix)%string (model w) then w
     else mkWorld
            (with_reactions
               (reactions (model w) ++ [sink_reaction suffix target])
               (model w))
            (remember (UndoAddReaction (target ++ suffix)%string) (contexts w))
            (solver_log w)).
Proof.
  intros Ht. apply existsb_eqb_elem_of in Ht.
  unfold add_product_sink_reaction, bind, get_metabolite, add_reactions.
  rewrite Ht. simpl.
  destruct (has_id (target ++ suffix)%string (model w)); reflexivity.
Qed.

Lemma init_unfold oracle suffix biomass target threshold w :
  init oracle suffix biomass target threshold w
  = if existsb (String.eqb biomass) (reaction_ids (model w)) then
      if existsb (String.eqb target) (metabolites (model w)) then
        construct oracle suffix biomass target threshold w
      else (Raise (AssertionError "Target metabolite not in model."), w)
    else (Raise (AssertionError "Biomass reaction not in model."), w).
Proof.
  unfold init, construct. unfold bind at 1. simpl.
  unfold bind at 1.
  destruct (existsb (String.eqb biomass) (reaction_ids (model w))); simpl;
    [|reflexivity].
  unfold bind at 1.
  destruct (existsb (String.eqb target) (metabolites (model w))); simpl;
    reflexivity.
Qed.

(** What construction leaves on the shared model: nothing, or the sink
    reaction appended to the reactions. *)
Lemma init_model oracle suffix biomass target threshold w :
  model (init oracle suffix biomass target threshold w).2 = model w
  \/ (has_id (target ++ suffix)%string (model w) = false
      /\ model (init oracle suffix biomass target threshold w).2
         = with_reactions
             (reactions (model w) ++ [sink_reaction suffix target]) (model w)).
Proof.
  rewrite init_unfold.
  destruct (existsb (String.eqb biomass) (reaction_ids (model w)));
    [|left; reflexivity].
  destruct (existsb (String.eqb target) (metabolites (model w))) eqn:Ht;
    [|left; reflexivity].
  apply existsb_eqb_elem_of in Ht.
  unfold construct.
  match goal with
  | |- context [bind ?p ?k w] =>
      destruct (bind_then_preserving p k w) as [Hm _]; [frame|]
  end.
  rewrite Hm, (add_product_sink_reaction_spec _ _ _ Ht). simpl.
  destruct (has_id (target ++ suffix)%string (model w)); simpl; auto.
Qed.

Lemma assertion_free_bind {A B} (p : M A) (k : A -> M B) :
  assertion_free p -> (forall a, assertion_free (k a)) ->
  assertion_free (bind p k).
Proof.
  intros Hp Hk w. unfold bind. specialize (Hp w).
  destruct (p w) as [[a|e] w1]; simpl in *; [apply Hk | exact Hp].
Qed.

Lemma assertion_free_with_model {A} (body : M A) :
  assertion_free body -> assertion_free (with_model body).
Proof.
  intros Hb w. unfold with_model. specialize (Hb (enter w)).
  destruct (body (enter w)) as [r w1]. exact Hb.
Qed.

Lemma assertion_free_set_objective rid : assertion_free (set_objective rid).
Proof.
  intros w. unfold set_objective. destruct (has_id rid (model w)); exact I.
Qed.

Lemma assertion_free_loopless oracle :
  assertion_free (loopless_solution oracle).
Proof.
  intros w. unfold loopless_solution. destruct (oracle _ _); exact I.
Qed.

Lemma assertion_free_calc_yield oracle sink :
  assertion_free (calc_product_maximal_theoretical_yield oracle sink).
Proof.
  apply assertion_free_with_model, assertion_free_bind;
    [apply assertion_free_set_objective|intros _].
  apply assertion_free_bind; [apply assertion_free_loopless|].
  intros sol w. exact I.
Qed.

Lemma assertion_free_calc_growth oracle biomass :
  assertion_free (calc_maximal_biomass_growth oracle biomass).
Proof.
  apply assertion_free_with_model, assertion_free_bind;
    [apply assertion_free_set_objective|intros _].
  apply assertion_free_bind; [apply assertion_free_loopless|].
  intros sol w. exact I.
Qed.


Lemma init_rejects oracle suffix biomass target threshold w :
  biomass ∉ reaction_ids (model w) \/ target ∉ metabolites (model w) ->
  exists msg,
    init oracle suffix biomass target threshold w
    = (Raise (AssertionError msg), w).
Proof.
  intros H. rewrite init_unfold.
  destruct (existsb (String.eqb biomass) (reaction_ids (model w))) eqn:Hb;
    [|eauto].
  destruct (existsb (String.eqb target) (metabolites (model w))) eqn:Ht;
    [|eauto].
  apply existsb_eqb_elem_of in Hb, Ht. tauto.
Qed.

Lemma init_accepts oracle suffix biomass target threshold w :
  biomass ∈ reaction_ids (model w) -> target ∈ metabolites (model w) ->
  not_assertion (init oracle suffix biomass target threshold w).1.
Proof.
  intros Hb Ht. rewrite init_unfold.
  apply existsb_eqb_elem_of in Hb, Ht. rewrite Hb, Ht.
  apply existsb_eqb_elem_of in Ht.
  unfold construct, bind at 1.
  rewrite (add_product_sink_reaction_spec _ _ _ Ht).
  match goal with |- not_assertion (?p ?w1).1 => generalize w1 end.
  apply assertion_free_bind; [apply assertion_free_calc_yield|intros y].
  apply assertion_free_bind; [apply assertion_free_calc_growth|intros g].
  intros w1. exact I.
Qed.

Lemma append_inj_l (s t u : string) : (s ++ t = s ++ u)%string -> t = u.
Proof. induction s as [|a s IH]; simpl; [auto | intros [= H]; auto]. Qed.

(** ** The essentiality check *)

Lemma find_alter_same f rid rs :
  (forall r, r_id (f r) = r_id r) ->
  find_reaction rid (alter_reaction f rid rs) = f <$> find_reaction rid rs.
Proof.
  intros Hf. induction rs as [|r0 rs IH]; simpl; [reflexivity|].
  destruct (String.eqb (r_id r0) rid) eqn:E; simpl.
  - rewrite Hf, E. reflexivity.
  - rewrite E. exact IH.
Qed.


Lemma find_of_elem rid m :
  rid ∈ reaction_ids m -> exists r, find_reaction rid (reactions m) = Some r.
Proof.
  intros H. apply has_id_elem_of, find_reaction_has_id in H.
  destruct H as [r Hr]. eauto.
Qed.


Lemma Qlt_bool_ge x y : (y <= x)%Q -> Qlt_bool x y = false.
Proof.
  intros H. unfold Qlt_bool. apply Qle_bool_iff in H. rewrite H. reflexivity.
Qed.

Lemma Qlt_bool_lt x y : (x < y)%Q -> Qlt_bool x y = true.
Proof.
  intros H. unfold Qlt_bool.
  destruct (Qle_bool y x) eqn:E; [|reflexivity].
  apply Qle_bool_iff in E. exfalso. exact (Qlt_not_le _ _ H E).
Qed.

(** The outcome and the solver call of an essentiality probe, for a
    reaction whose lower bound may be set to 0. *)
Lemma check_essential_reaction_result oracle self rid w r :
  has_id (biomass_reaction_id self) (model w) = true ->
  find_reaction rid (reactions (model w)) = Some r ->
  (0 <= r_upper_bound r)%Q ->
  let probe := knockout (biomass_reaction_id self) rid (model w) in
  let w' := (check_essential_reaction oracle self rid w).2 in
  (check_essential_reaction oracle self rid w).1
  = Return
      match oracle (length (solver_log w)) probe with
      | Some sol =>
          float_lt
            (truediv (sol (biomass_reaction_id self))
               (maximal_biomass_growth self))
            (check_essential_reaction_threshold self)
      | None => true
      end
  /\ solver_log w' = solver_log w ++ [LooplessCall probe].
Proof.
  intros Hb Hr Hub probe w'. subst probe w'.
  pose proof (find_reaction_id _ _ _ Hr) as Hid.
  unfold check_essential_reaction, with_model, bind, set_objective,
    get_by_id, set_lower_bound, set_upper_bound, try_except,
    loopless_solution, knockout.
  simpl. rewrite Hb. simpl. rewrite Hr. simpl. rewrite Hid, Hr.
  rewrite (Qlt_bool_ge _ _ Hub). simpl.
  rewrite find_alter_same, Hr by reflexivity. simpl.
  match goal with
  | |- context [oracle ?n ?m] => destruct (oracle n m) as [sol|]
  end; simpl.
  - destruct (float_lt _ _); simpl; auto.
  - auto.
Qed.

Lemma Qlt_bool_iff x y : Qlt_bool x y = true <-> (x < y)%Q.
Proof.
  unfold Qlt_bool. rewrite negb_true_iff.
  split.
  - intros H. apply Qnot_le_lt. intros Hle.
    apply Qle_bool_iff in Hle. congruence.
  - intros H. destruct (Qle_bool y x) eqn:E; [|reflexivity].
    apply Qle_bool_iff in E. exfalso. exact (Qlt_not_le _ _ H E).
Qed.


(** ** Sorting *)

Section SortValuesFacts.

Context {R : Type} (may_precede : R -> R -> bool).

Let before (a b : R) : Prop := may_precede a b = true.

Hypothesis total : forall a b, may_precede a b = false -> may_precede b a = true.

Lemma insert_row_perm x rows :
  Permutation (x :: rows) (insert_row may_precede x rows).
Proof.
  induction rows as [|y rows IH]; simpl; [reflexivity|].
  destruct (may_precede x y); [reflexivity|].
  rewrite perm_swap. apply perm_skip, IH.
Qed.

Lemma sort_values_perm rows :
  Permutation rows (sort_values may_precede rows).
Proof.
  induction rows as [|x rows IH]; simpl; [reflexivity|].
  rewrite <- insert_row_perm. apply perm_skip, IH.
Qed.

Lemma insert_row_HdRel a x rows :
  before a x -> HdRel before a rows ->
  HdRel before a (insert_row may_precede x rows).
Proof.
  intros Hax Hrows. destruct rows as [|y rows]; simpl.
  - constructor. exact Hax.
  - destruct (may_precede x y); constructor; [exact Hax|].
    inversion Hrows; assumption.
Qed.

Lemma insert_row_Sorted x rows :
  Sorted before rows -> Sorted before (insert_row may_precede x rows).
Proof.
  induction 1 as [|y rows Hs IH Hd]; simpl.
  - repeat constructor.
  - destruct (may_precede x y) eqn:E.
    + constructor; [constructor; assumption|]. constructor. exact E.
    + constructor; [exact IH|].
      apply insert_row_HdRel; [apply total, E | exact Hd].
Qed.

Lemma sort_values_Sorted rows : Sorted before (sort_values may_precede rows).
Proof.
  induction rows as [|x rows IH]; simpl; [constructor|].
  apply insert_row_Sorted, IH.
Qed.

End SortValuesFacts.

(** In a list sorted along a relation that is transitive on its elements,
    an earlier row is related to every later one. *)
Lemma Sorted_lookup {R} (before : R -> R -> Prop) (P : R -> Prop) rows :
  (forall a b c, P a -> P b -> P c -> before a b -> before b c -> before a c) ->
  Forall P rows ->
  Sorted before rows ->
  forall i j a b,
    (i < j)%nat -> rows !! i = Some a -> rows !! j = Some b -> before a b.
Proof.
  intros Htrans HP Hs.
  assert (Hall : forall x l, Forall P (x :: l) -> Sorted before (x :: l) ->
                   Forall (before x) l).
  { intros x l. revert x. induction l as [|y l IH]; intros x HPx Hsx.
    - constructor.
    - inversion Hsx as [|? ? Hs' Hd]; subst.
      inversion Hd as [|? ? Hxy]; subst.
      inversion HPx as [|? ? Px HPl]; subst.
      inversion HPl as [|? ? Py HPl']; subst.
      constructor; [exact Hxy|].
      specialize (IH y HPl Hs').
      rewrite Forall_forall in IH, HPl' |- *.
      intros z Hz. apply (Htrans x y z); auto. }
  induction rows as [|x rows IH]; intros i j a b Hij Hi Hj.
  - discriminate.
  - inversion Hs as [|? ? Hs' Hd]; subst.
    inversion HP as [|? ? Px HP']; subst.
    destruct j as [|j]; [lia|]. simpl in Hj.
    destruct i as [|i]; simpl in Hi.
    + injection Hi as <-.
      specialize (Hall x rows HP Hs). rewrite Forall_forall in Hall.
      apply Hall. eapply list_elem_of_lookup_2. exact Hj.
    + apply (IH HP' Hs' i j); [lia | exact Hi | exact Hj].
Qed.

(** *** The order of the keys *)

Lemma descending_total t1 s1 t2 s2 :
  descending t1 s1 t2 s2 = false -> descending t2 s2 t1 s1 = true.
Proof.
  unfold descending. rewrite (String.compare_antisym t1 t2).
  destruct (String.compare t2 t1); simpl; try discriminate; [|reflexivity].
  intros H. apply Qle_bool_iff.
  destruct (Qle_bool s2 s1) eqn:E; [discriminate|].
  apply Qlt_le_weak, Qnot_le_lt. intros Hle.
  apply Qle_bool_iff in Hle. congruence.
Qed.

Lemma descending_trans t1 s1 t2 s2 t3 s3 :
  is_target_type t1 -> is_target_type t2 -> is_target_type t3 ->
  descending t1 s1 t2 s2 = true -> descending t2 s2 t3 s3 = true ->
  descending t1 s1 t3 s3 = true.
Proof.
  unfold descending.
  intros [-> | [-> | ->]] [-> | [-> | ->]] [-> | [-> | ->]]; simpl;
    try discriminate; try reflexivity;
    rewrite !Qle_bool_iff; intros H1 H2; eapply Qle_trans; eauto.
Qed.

(** ** Inversion of the small programs *)

Lemma ret_inv {A} (a b : A) w w' : ret a w = (Return b, w') -> a = b /\ w' = w.
Proof. unfold ret. intros [= -> ->]. auto. Qed.

Lemma getitem_inv {V} (d : gmap string V) key w v w' :
  getitem d key w = (Return v, w') -> d !! key = Some v /\ w' = w.
Proof.
  unfold getitem. destruct (d !! key); [|discriminate].
  intros H. apply ret_inv in H as [-> ->]. auto.
Qed.

Lemma index_inv {V} (xs : list V) i w v w' :
  index xs i w = (Return v, w') -> xs !! i = Some v /\ w' = w.
Proof.
  unfold index. destruct (xs !! i); [|discriminate].
  intros H. apply ret_inv in H as [-> ->]. auto.
Qed.

Lemma index_last_inv {V} (xs : list V) w v w' :
  index_last xs w = (Return v, w') -> last xs = Some v /\ w' = w.
Proof.
  unfold index_last. destruct (last xs); [|discriminate].
  intros H. apply ret_inv in H as [-> ->]. auto.
Qed.

Lemma get_model_inv w m w' :
  get_model w = (Return m, w') -> m = model w /\ w' = w.
Proof. unfold get_model. intros [= -> ->]. auto. Qed.

(** The model seen after a program that preserves it. *)
Lemma preserving_model {A} (p : M A) w r w' :
  preserving p -> p w = (r, w') -> model w' = model w.
Proof. intros Hp H. destruct (Hp w) as [Hm _]. rewrite H in Hm. exact Hm. Qed.

Lemma require_columns_inv by_ columns w w' :
  require_columns by_ columns w = (Return tt, w') ->
  w' = w /\ Forall (fun c => c ∈ columns) by_.
Proof.
  unfold require_columns. revert w.
  induction by_ as [|c by_ IH]; simpl; intros w H.
  - apply ret_inv in H as [_ ->]. auto.
  - apply bind_Return_inv in H as ([] & w1 & H1 & H2).
    destruct (existsb (String.eqb c) columns) eqn:E; [|discriminate].
    apply ret_inv in H1 as [_ ->].
    apply IH in H2 as [-> H2]. split; [reflexivity|].
    constructor; [|exact H2]. apply existsb_eqb_elem_of, E.
Qed.

(** ** FSEOF_FS.run, phase by phase *)

Lemma fseof_classify_inv oracle self ce fl fh acc rid w acc' w' :
  FSEOF_FS.classify oracle self ce fl fh acc rid w = (Return acc', w') ->
  exists low high,
    fl !! rid = Some low /\ fh !! rid = Some high
    /\ match fseof_target_type low high with
       | Some t =>
           exists name e, acc' = acc ++ [FSEOF_FS.mkData t rid name low high e]
       | None => acc' = acc
       end.
Proof.
  unfold FSEOF_FS.classify, fseof_target_type. intros H.
  apply bind_Return_inv in H as (low & w1 & H1 & H).
  apply getitem_inv in H1 as [Hl ->].
  apply bind_Return_inv in H as (high & w1 & H1 & H).
  apply getitem_inv in H1 as [Hh ->].
  exists low, high. split; [exact Hl|]. split; [exact Hh|].
  destruct (Qlt_bool 0 (low * high)).
  - apply bind_Return_inv in H as (r & w1 & _ & H).
    apply bind_Return_inv in H as (e & w2 & _ & H).
    apply ret_inv in H as [<- _]. eauto.
  - apply ret_inv in H as [<- _]. reflexivity.
Qed.

(** The rows built by the loop over the reaction ids: in the order of the
    ids, one for each id whose pair of fluxes gets a target type. *)
Lemma fseof_classify_fold oracle self ce fl fh ids :
  forall acc w df_data w',
    fold_each ids (FSEOF_FS.classify oracle self ce fl fh) acc w
    = (Return df_data, w') ->
    exists new,
      df_data = acc ++ new
      /\ Forall (fun d =>
           FSEOF_FS.reaction_id d ∈ ids
           /\ fl !! FSEOF_FS.reaction_id d = Some (FSEOF_FS.mean_flux_low d)
           /\ fh !! FSEOF_FS.reaction_id d = Some (FSEOF_FS.mean_flux_high d)
           /\ fseof_target_type (FSEOF_FS.mean_flux_low d)
                (FSEOF_FS.mean_flux_high d)
              = Some (FSEOF_FS.target_type d)) new
      /\ Forall (fun rid =>
           exists low high,
             fl !! rid = Some low /\ fh !! rid = Some high
             /\ (is_Some (fseof_target_type low high) ->
                 exists d, d ∈ new /\ FSEOF_FS.reaction_id d = rid)) ids.
Proof.
  induction ids as [|rid ids IH]; simpl; intros acc w df_data w' H.
  - apply ret_inv in H as [<- _]. exists []. rewrite app_nil_r. auto.
  - apply bind_Return_inv in H as (acc1 & w1 & H1 & H2).
    apply fseof_classify_inv in H1 as (low & high & Hl & Hh & Hacc).
    apply IH in H2 as (new & -> & Hnew & Hids).
    assert (Hnew' : Forall (fun d =>
           FSEOF_FS.reaction_id d ∈ rid :: ids
           /\ fl !! FSEOF_FS.reaction_id d = Some (FSEOF_FS.mean_flux_low d)
           /\ fh !! FSEOF_FS.reaction_id d = Some (FSEOF_FS.mean_flux_high d)
           /\ fseof_target_type (FSEOF_FS.mean_flux_low d)
                (FSEOF_FS.mean_flux_high d)
              = Some (FSEOF_FS.target_type d)) new).
    { eapply Forall_impl; [exact Hnew|]. simpl.
      intros d (? & ? & ? & ?). repeat split; auto. set_solver. }
    assert (Hids' : forall extra, Forall (fun rid0 =>
           exists low high,
             fl !! rid0 = Some low /\ fh !! rid0 = Some high
             /\ (is_Some (fseof_target_type low high) ->
                 exists d, d ∈ extra ++ new /\ FSEOF_FS.reaction_id d = rid0))
           ids).
    { intros extra. eapply Forall_impl; [exact Hids|]. simpl.
      intros rid0 (l0 & h0 & ? & ? & Hd). exists l0, h0.
      repeat split; auto. intros Hs. destruct (Hd Hs) as (d & ? & ?).
      exists d. split; [set_solver | assumption]. }
    destruct (fseof_target_type low high) as [t|] eqn:Et.
    + destruct Hacc as (name & e & ->).
      exists (FSEOF_FS.mkData t rid name low high e :: new).
      split; [rewrite <- app_assoc; reflexivity|]. split.
      * constructor; [|exact Hnew']. simpl. repeat split; auto. set_solver.
      * constructor; [|apply (Hids' [_])].
        exists low, high. repeat split; auto. intros _.
        eexists. split; [apply list_elem_of_here | reflexivity].
    + subst acc1. exists new. split; [reflexivity|]. split; [exact Hnew'|].
      constructor; [|apply (Hids' [])].
      exists low, high. repeat split; auto. rewrite Et.
      intros [? ?]. discriminate.
Qed.

Lemma fseof_to_sorted_frame_inv df_data w tbl w' :
  FSEOF_FS.to_sorted_frame df_data w = (Return tbl, w') ->
  df_data <> []
  /\ tbl = sort_values FSEOF_FS.may_precede (map FSEOF_FS.add_abs_diff df_data)
  /\ w' = w.
Proof.
  unfold FSEOF_FS.to_sorted_frame. intros H.
  apply bind_Return_inv in H as ([] & w1 & H1 & H2).
  apply require_columns_inv in H1 as [-> Hc].
  apply ret_inv in H2 as [<- ->]. split; [|auto].
  intros ->. inversion Hc as [|? ? Hin _]; subst. simpl in Hin.
  set_solver.
Qed.

(** The phases of a run that returned. *)
Lemma fseof_run_inv oracle self fraction_low fraction_high ce n w tbl w' :
  FSEOF_FS.run oracle self fraction_low fraction_high ce n w
  = (Return tbl, w') ->
  exists fluxes_low w1 fluxes_high w2 df_data,
    FSEOF_FS.fluxes_at oracle self fraction_low n w = (Return fluxes_low, w1)
    /\ FSEOF_FS.fluxes_at oracle self fraction_high n w1
       = (Return fluxes_high, w2)
    /\ fold_each (reaction_ids (model w))
         (FSEOF_FS.classify oracle self ce fluxes_low fluxes_high) [] w2
       = (Return df_data, w')
    /\ df_data <> []
    /\ tbl = sort_values FSEOF_FS.may_precede
               (map FSEOF_FS.add_abs_diff df_data).
Proof.
  unfold FSEOF_FS.run. intros H.
  apply bind_Return_inv in H as (fl & w1 & H1 & H).
  apply bind_Return_inv in H as (fh & w2 & H2 & H).
  apply bind_Return_inv in H as (m & w3 & H3 & H).
  apply get_model_inv in H3 as [-> ->].
  apply bind_Return_inv in H as (df_data & w3 & H3 & H).
  apply fseof_to_sorted_frame_inv in H as (Hne & -> & ->).
  exists fl, w1, fh, w2, df_data.
  assert (Hm : model w2 = model w).
  { rewrite (preserving_model _ _ _ _ (preserving_fluxes_at _ _ _ _) H2).
    apply (preserving_model _ _ _ _ (preserving_fluxes_at _ _ _ _) H1). }
  rewrite <- Hm. auto.
Qed.

Lemma fseof_target_type_Some low high t :
  fseof_target_type low high = Some t <->
  (0 < low * high)%Q
  /\ t = (if Qlt_bool (Qabs low) (Qabs high) then "Up" else "Down").
Proof.
  unfold fseof_target_type.
  destruct (Qlt_bool 0 (low * high)) eqn:E.
  - apply Qlt_bool_iff in E. split.
    + intros [= <-]. auto.
    + intros [_ ->]. reflexivity.
  - split; [discriminate|]. intros [H _].
    apply Qlt_bool_iff in H. congruence.
Qed.

Lemma fseof_classify_skip oracle self ce fl fh acc rid w low high :
  fl !! rid = Some low -> fh !! rid = Some high ->
  ~ (0 < low * high)%Q ->
  FSEOF_FS.classify oracle self ce fl fh acc rid w = (Return acc, w).
Proof.
  intros Hl Hh Hp. unfold FSEOF_FS.classify, bind, getitem.
  rewrite Hl. simpl. rewrite Hh. simpl.
  destruct (Qlt_bool 0 (low * high)) eqn:E; [|reflexivity].
  apply Qlt_bool_iff in E. contradiction.
Qed.

Lemma fseof_classify_fold_skip oracle self ce fl fh ids w :
  Forall (fun rid =>
    exists low high,
      fl !! rid = Some low /\ fh !! rid = Some high
      /\ ~ (0 < low * high)%Q) ids ->
  fold_each ids (FSEOF_FS.classify oracle self ce fl fh) [] w
  = (Return [], w).
Proof.
  induction 1 as [|rid ids (low & high & Hl & Hh & Hp) _ IH]; simpl.
  - reflexivity.
  - rewrite (bind_Return _ _ _ _ _
               (fseof_classify_skip _ _ _ _ _ _ _ _ _ _ Hl Hh Hp)).
    exact IH.
Qed.

(** ** Programs that do not touch the world *)

Lemma stateless_ret {A} (a : A) : stateless (ret a).
Proof. intros w. reflexivity. Qed.

Lemma stateless_raise {A} e : stateless (@raise A e).
Proof. intros w. reflexivity. Qed.

Lemma stateless_bind {A B} (p : M A) (k : A -> M B) :
  stateless p -> (forall a, stateless (k a)) -> stateless (bind p k).
Proof.
  intros Hp Hk w. unfold bind. specialize (Hp w).
  destruct (p w) as [[a|e] w1]; simpl in *; subst w1; [apply Hk | reflexivity].
Qed.

Lemma stateless_fold_each {A S} (body : S -> A -> M S) xs :
  (forall s x, stateless (body s x)) ->
  forall s, stateless (fold_each xs body s).
Proof.
  intros Hb. induction xs as [|x xs IH]; simpl; intros s.
  - apply stateless_ret.
  - apply stateless_bind; [apply Hb | exact IH].
Qed.

Lemma stateless_getitem {V} (d : gmap string V) key : stateless (getitem d key).
Proof.
  unfold getitem.
  destruct (d !! key); [apply stateless_ret | apply stateless_raise].
Qed.

Lemma stateless_index {V} (xs : list V) i : stateless (index xs i).
Proof.
  unfold index.
  destruct (xs !! i); [apply stateless_ret | apply stateless_raise].
Qed.

Lemma stateless_index_last {V} (xs : list V) : stateless (index_last xs).
Proof.
  unfold index_last.
  destruct (last xs); [apply stateless_ret | apply stateless_raise].
Qed.

Lemma stateless_get_by_id rid : stateless (get_by_id rid).
Proof.
  intros w. unfold get_by_id.
  destruct (find_reaction rid (reactions (model w))); reflexivity.
Qed.

Lemma stateless_inv {A} (p : M A) w r w' :
  stateless p -> p w = (r, w') -> w' = w.
Proof. intros Hp H. specialize (Hp w). rewrite H in Hp. exact Hp. Qed.

Ltac stateless :=
  repeat first
    [ progress intros
    | apply stateless_bind
    | apply stateless_fold_each
    | apply stateless_ret
    | apply stateless_raise
    | apply stateless_getitem
    | apply stateless_index
    | apply stateless_index_last
    | apply stateless_get_by_id
    | match goal with
      | |- stateless (if ?b then _ else _) => destruct b
      | |- stateless (match ?x with _ => _ end) => destruct x
      end ].

Lemma stateless_combine ce levels per_step tt slopes ess acc rid :
  stateless (FVSEOF.combine ce levels per_step tt slopes ess acc rid).
Proof. unfold FVSEOF.combine. stateless. Qed.

(** ** FVSEOF.run, phase by phase *)

Lemma last_is_Some {V} (xs : list V) v : xs !! 0%nat = Some v -> is_Some (last xs).
Proof.
  destruct xs as [|x xs]; [discriminate|]. intros _.
  rewrite last_cons. destruct (last xs); eauto.
Qed.

Lemma assign_target_type_inv per_step tt rid w tt' w' :
  FVSEOF.assign_target_type per_step tt rid w = (Return tt', w') ->
  w' = w
  /\ exists fs f l,
       per_step !! rid = Some fs /\ fs !! 0%nat = Some f /\ last fs = Some l
       /\ tt' = match fvseof_target_type f l with
                | Some t => <[rid := t]> tt
                | None => tt
                end.
Proof.
  unfold FVSEOF.assign_target_type. intros H.
  apply bind_Return_inv in H as (fs & w1 & H1 & H).
  apply getitem_inv in H1 as [Hfs ->].
  apply bind_Return_inv in H as (f & w1 & H1 & H).
  apply index_inv in H1 as [Hf ->].
  destruct (last_is_Some _ _ Hf) as [l Hl].
  unfold fvseof_target_type.
  destruct (negb (Qeq_bool f 0)) eqn:Ef; simpl.
  - apply bind_Return_inv in H as (l' & w1 & H1 & H).
    apply index_last_inv in H1 as [Hl' ->].
    rewrite Hl in Hl'. injection Hl' as <-.
    assert (Hres : w' = w /\ tt' = match
              (if negb (Qeq_bool l 0) then
                 if Qle_bool 0 (f * l) then
                   Some (if Qlt_bool (Qabs f) (Qabs l) then "Up" else "Down")
                 else if Qlt_bool (f * l) 0 then Some "Reverse" else None
               else None)
              with Some t => <[rid := t]> tt | None => tt end).
    { destruct (negb (Qeq_bool l 0)).
      - destruct (Qle_bool 0 (f * l)).
        + destruct (Qlt_bool (Qabs f) (Qabs l));
            apply ret_inv in H as [<- ->]; auto.
        + destruct (Qlt_bool (f * l) 0);
            apply ret_inv in H as [<- ->]; auto.
      - apply ret_inv in H as [<- ->]; auto. }
    destruct Hres as [-> ->]. split; [reflexivity|].
    exists fs, f, l. repeat split; try assumption.
    rewrite Ef. reflexivity.
  - apply ret_inv in H as [<- ->]. split; [reflexivity|].
    exists fs, f, l. repeat split; try assumption.
    rewrite Ef. reflexivity.
Qed.

(** The target types assigned by the loop over the reaction ids. *)
Lemma assign_target_type_fold per_step ids :
  forall acc w tt w',
    fold_each ids (FVSEOF.assign_target_type per_step) acc w
    = (Return tt, w') ->
    w' = w
    /\ Forall (fun rid =>
         exists fs f l,
           per_step !! rid = Some fs /\ fs !! 0%nat = Some f
           /\ last fs = Some l) ids
    /\ forall rid,
         tt !! rid
         = if decide (rid ∈ ids) then
             match series_target_type per_step rid with
             | Some t => Some t
             | None => acc !! rid
             end
           else acc !! rid.
Proof.
  induction ids as [|rid0 ids IH]; simpl; intros acc w tt w' H.
  - apply ret_inv in H as [<- ->]. split; [reflexivity|]. split; [constructor|].
    intros rid. destruct (decide (rid ∈ [])) as [Hin|]; [|reflexivity].
    apply elem_of_nil in Hin. contradiction.
  - apply bind_Return_inv in H as (acc1 & w1 & H1 & H2).
    apply assign_target_type_inv in H1
      as (-> & fs & f & l & Hfs & Hf & Hl & Hacc).
    apply IH in H2 as (-> & Hall & Htt).
    split; [reflexivity|]. split.
    { constructor; [|exact Hall]. exists fs, f, l. auto. }
    intros rid. rewrite Htt.
    assert (Hs0 : series_target_type per_step rid0 = fvseof_target_type f l).
    { unfold series_target_type. rewrite Hfs, Hf, Hl. reflexivity. }
    destruct (decide (rid = rid0)) as [->|Hne].
    + rewrite Hs0.
      assert (Hacc1 : acc1 !! rid0
                      = match fvseof_target_type f l with
                        | Some t => Some t
                        | None => acc !! rid0
                        end).
      { subst acc1. destruct (fvseof_target_type f l);
          [apply lookup_insert_eq | reflexivity]. }
      destruct (decide (rid0 ∈ rid0 :: ids)) as [_|Hn];
        [|exfalso; apply Hn; apply list_elem_of_here].
      destruct (decide (rid0 ∈ ids));
        destruct (fvseof_target_type f l); rewrite ?Hacc1; reflexivity.
    + assert (Hacc1 : acc1 !! rid = acc !! rid).
      { subst acc1. destruct (fvseof_target_type f l);
          [apply lookup_insert_ne; congruence | reflexivity]. }
      rewrite Hacc1.
      destruct (decide (rid ∈ ids)), (decide (rid ∈ rid0 :: ids));
        try reflexivity; set_solver.
Qed.

Lemma fit_slope_inv polyfit levels per_step slopes rid w slopes' w' :
  FVSEOF.fit_slope polyfit levels per_step slopes rid w
  = (Return slopes', w') ->
  w' = w
  /\ exists fs s,
       per_step !! rid = Some fs /\ polyfit levels fs = Some s
       /\ slopes' = <[rid := s]> slopes.
Proof.
  unfold FVSEOF.fit_slope. intros H.
  apply bind_Return_inv in H as (fs & w1 & H1 & H).
  apply getitem_inv in H1 as [Hfs ->].
  destruct (polyfit levels fs) as [s|] eqn:Es; [|discriminate].
  apply ret_inv in H as [<- ->]. split; [reflexivity|].
  exists fs, s. auto.
Qed.

(** The slopes fitted by the loop over the reaction ids. *)
Lemma fit_slope_fold polyfit levels per_step ids :
  forall acc w slopes w',
    fold_each ids (FVSEOF.fit_slope polyfit levels per_step) acc w
    = (Return slopes, w') ->
    w' = w
    /\ Forall (fun rid =>
         exists fs s,
           per_step !! rid = Some fs /\ polyfit levels fs = Some s
           /\ slopes !! rid = Some s) ids.
Proof.
  induction ids as [|rid0 ids IH]; simpl; intros acc w slopes w' H.
  - apply ret_inv in H as [<- ->]. auto.
  - apply bind_Return_inv in H as (acc1 & w1 & H1 & H2).
    apply fit_slope_inv in H1 as (-> & fs & s & Hfs & Hs & ->).
    pose proof H2 as H2'.
    apply IH in H2 as (-> & Hall).
    split; [reflexivity|]. constructor; [|exact Hall].
    exists fs, s. split; [exact Hfs|]. split; [exact Hs|].
    destruct (decide (rid0 ∈ ids)) as [Hin|Hnin].
    + rewrite Forall_forall in Hall.
      destruct (Hall rid0 Hin) as (fs' & s' & Hfs' & Hs' & Hl).
      rewrite Hfs in Hfs'. injection Hfs' as <-. congruence.
    + clear IH Hall. revert H2' Hnin.
      generalize (<[rid0 := s]> acc) (lookup_insert_eq acc rid0 s).
      clear. revert w.
      induction ids as [|rid1 ids IH]; simpl; intros w acc1 Hl H Hnin.
      * apply ret_inv in H as [<- _]. exact Hl.
      * apply bind_Return_inv in H as (acc2 & w1 & H1 & H2).
        apply fit_slope_inv in H1 as (-> & fs & s1 & _ & _ & ->).
        apply (IH w (<[rid1 := s1]> acc1)); [|exact H2|set_solver].
        rewrite lookup_insert_ne; [exact Hl | set_solver].
Qed.

Lemma combine_inv ce levels per_step tt slopes ess acc rid w acc' w' :
  FVSEOF.combine ce levels per_step tt slopes ess acc rid w
  = (Return acc', w') ->
  match tt !! rid with
  | Some t =>
      exists s g e steps,
        slopes !! rid = Some s
        /\ acc' = acc ++ [FVSEOF.mkRow rid t s g e steps]
  | None => acc' = acc
  end.
Proof.
  unfold FVSEOF.combine. destruct (tt !! rid) as [t|].
  - intros H.
    apply bind_Return_inv in H as (s & w1 & H1 & H).
    apply getitem_inv in H1 as [Hs ->].
    apply bind_Return_inv in H as (r & w1 & _ & H).
    apply bind_Return_inv in H as (e & w2 & _ & H).
    apply bind_Return_inv in H as (fs & w3 & _ & H).
    apply bind_Return_inv in H as (steps & w4 & _ & H).
    apply ret_inv in H as [<- _]. eauto 10.
  - intros H. apply ret_inv in H as [<- _]. reflexivity.
Qed.

(** The rows built by the last loop: in the order of the ids, one for
    each id that has a target type. *)
Lemma combine_fold ce levels per_step tt slopes ess ids :
  forall acc w df_data w',
    fold_each ids (FVSEOF.combine ce levels per_step tt slopes ess) acc w
    = (Return df_data, w') ->
    exists new,
      df_data = acc ++ new
      /\ Forall (fun row =>
           FVSEOF.reaction_id row ∈ ids
           /\ tt !! FVSEOF.reaction_id row = Some (FVSEOF.target_type row)
           /\ slopes !! FVSEOF.reaction_id row = Some (FVSEOF.slope row)) new
      /\ Forall (fun rid =>
           is_Some (tt !! rid) ->
           exists row, row ∈ new /\ FVSEOF.reaction_id row = rid) ids.
Proof.
  induction ids as [|rid ids IH]; simpl; intros acc w df_data w' H.
  - apply ret_inv in H as [<- _]. exists []. rewrite app_nil_r. auto.
  - apply bind_Return_inv in H as (acc1 & w1 & H1 & H2).
    apply combine_inv in H1.
    apply IH in H2 as (new & -> & Hnew & Hids).
    assert (Hnew' : Forall (fun row =>
           FVSEOF.reaction_id row ∈ rid :: ids
           /\ tt !! FVSEOF.reaction_id row = Some (FVSEOF.target_type row)
           /\ slopes !! FVSEOF.reaction_id row = Some (FVSEOF.slope row)) new).
    { eapply Forall_impl; [exact Hnew|]. simpl.
      intros row (? & ? & ?). repeat split; auto. set_solver. }
    assert (Hids' : forall extra, Forall (fun rid0 =>
           is_Some (tt !! rid0) ->
           exists row, row ∈ extra ++ new /\ FVSEOF.reaction_id row = rid0)
           ids).
    { intros extra. eapply Forall_impl; [exact Hids|]. simpl.
      intros rid0 Hd Hs. destruct (Hd Hs) as (row & ? & ?).
      exists row. split; [set_solver | assumption]. }
    destruct (tt !! rid) as [t|] eqn:Et.
    + destruct H1 as (s & g & e & steps & Hs & ->).
      exists (FVSEOF.mkRow rid t s g e steps :: new).
      split; [rewrite <- app_assoc; reflexivity|]. split.
      * constructor; [|exact Hnew']. simpl. repeat split; auto. set_solver.
      * constructor; [|apply (Hids' [_])].
        intros _. eexists. split; [apply list_elem_of_here | reflexivity].
    + subst acc1. exists new. split; [reflexivity|]. split; [exact Hnew'|].
      constructor; [|apply (Hids' [])].
      rewrite Et. intros [? ?]. discriminate.
Qed.

Lemma fvseof_to_sorted_frame_inv df_data w tbl w' :
  FVSEOF.to_sorted_frame df_data w = (Return tbl, w') ->
  df_data <> []
  /\ tbl = sort_values FVSEOF.may_precede df_data
  /\ w' = w.
Proof.
  unfold FVSEOF.to_sorted_frame. intros H.
  apply bind_Return_inv in H as ([] & w1 & H1 & H2).
  apply require_columns_inv in H1 as [-> Hc].
  apply ret_inv in H2 as [<- ->]. split; [|auto].
  intros ->. inversion Hc as [|? ? Hin _]; subst. simpl in Hin.
  set_solver.
Qed.

(** The phases of a run that returned. *)
Lemma fvseof_run_inv lo fo pf self n_steps ce fva processes w tbl w' :
  FVSEOF.run lo fo pf self n_steps ce fva processes w = (Return tbl, w') ->
  exists per_step w1 tt slopes ess df_data,
    FVSEOF.sweep lo fo self n_steps fva processes w = (Return per_step, w1)
    /\ fold_each (reaction_ids (model w))
         (FVSEOF.assign_target_type per_step) ∅ w1 = (Return tt, w1)
    /\ fold_each (reaction_ids (model w))
         (FVSEOF.fit_slope pf (FVSEOF.steps_lower_bounds self n_steps)
            per_step) ∅ w1 = (Return slopes, w1)
    /\ (if ce then
          fold_each (reaction_ids (model w))
            (FVSEOF.find_essentiality lo self tt) ∅
        else ret ∅) w1 = (Return ess, w')
    /\ fold_each (reaction_ids (model w))
         (FVSEOF.combine ce (FVSEOF.steps_lower_bounds self n_steps)
            per_step tt slopes ess) [] w' = (Return df_data, w')
    /\ df_data <> []
    /\ tbl = sort_values FVSEOF.may_precede df_data.
Proof.
  unfold FVSEOF.run. intros H.
  apply bind_Return_inv in H as (per_step & w1 & H1 & H).
  apply bind_Return_inv in H as (m & w2 & H2 & H).
  apply get_model_inv in H2 as [-> ->].
  apply bind_Return_inv in H as (tt & w2 & H2 & H).
  pose proof (assign_target_type_fold _ _ _ _ _ _ H2) as (-> & _).
  apply bind_Return_inv in H as (slopes & w2 & H3 & H).
  pose proof (fit_slope_fold _ _ _ _ _ _ _ _ H3) as (-> & _).
  apply bind_Return_inv in H as (ess & w2 & H4 & H).
  apply bind_Return_inv in H as (df_data & w3 & H5 & H).
  apply fvseof_to_sorted_frame_inv in H as (Hne & -> & ->).
  assert (Hm : model w1 = model w)
    by apply (preserving_model _ _ _ _ (preserving_sweep _ _ _ _ _ _) H1).
  assert (Hw3 : w3 = w2).
  { eapply stateless_inv; [|exact H5].
    apply stateless_fold_each. intros. apply stateless_combine. }
  subst w3. rewrite Hm in *.
  exists per_step, w1, tt, slopes, ess, df_data. auto 10.
Qed.

(** ** The sweep of FVSEOF.run *)

Lemma world_eta w : mkWorld (model w) (contexts w) (solver_log w) = w.
Proof. destruct w; reflexivity. Qed.

Lemma append_flux_fold value ids :
  forall d w,
    fold_each ids (FVSEOF.append_flux value) d w
    = (append_fluxes value ids d, w).
Proof.
  induction ids as [|rid ids IH]; simpl; intros d w; [reflexivity|].
  unfold bind, FVSEOF.append_flux at 1, bind, getitem.
  destruct (d !! rid) as [fs|]; simpl; [apply IH | reflexivity].
Qed.

Lemma forced_bounds biomass sink level m r :
  find_reaction sink (reactions m) = Some r ->
  objective (forced biomass sink level m) = biomass
  /\ find_reaction sink (reactions (forced biomass sink level m))
     = Some (with_lower_bound level r)
  /\ reaction_ids (forced biomass sink level m) = reaction_ids m.
Proof.
  intros Hr. unfold forced, reaction_ids. simpl.
  split; [reflexivity|]. split.
  - rewrite find_alter_same, Hr by reflexivity. reflexivity.
  - rewrite alter_reaction_ids by reflexivity. reflexivity.
Qed.

Lemma set_objective_eval rid w :
  has_id rid (model w) = true ->
  set_objective rid w
  = (Return tt,
     mkWorld (with_objective rid (model w))
       (remember (UndoObjective (objective (model w))) (contexts w))
       (solver_log w)).
Proof. intros H. unfold set_objective. rewrite H. reflexivity. Qed.

Lemma get_by_id_eval rid w r :
  find_reaction rid (reactions (model w)) = Some r ->
  get_by_id rid w = (Return r, w).
Proof. intros H. unfold get_by_id. rewrite H. reflexivity. Qed.

Lemma set_lower_bound_eval rid v w r :
  find_reaction rid (reactions (model w)) = Some r ->
  (v <= r_upper_bound r)%Q ->
  set_lower_bound rid v w
  = (Return tt,
     mkWorld
       (with_reactions
          (alter_reaction (with_lower_bound v) rid (reactions (model w)))
          (model w))
       (remember (UndoLowerBound rid (r_lower_bound r)) (contexts w))
       (solver_log w)).
Proof.
  intros H Hle. unfold set_lower_bound.
  rewrite H, (Qlt_bool_ge _ _ Hle). reflexivity.
Qed.

(** The setter refuses a lower bound above the upper bound. *)
Lemma set_lower_bound_raises rid v w r :
  find_reaction rid (reactions (model w)) = Some r ->
  (r_upper_bound r < v)%Q ->
  set_lower_bound rid v w = (Raise ValueError, w).
Proof.
  intros H Hlt. unfold set_lower_bound.
  rewrite H, (Qlt_bool_lt _ _ Hlt). reflexivity.
Qed.

Lemma solver_log_leave w : solver_log (leave w) = solver_log w.
Proof. unfold leave. destruct (contexts w); reflexivity. Qed.

(** The result and the log of a scoped block are those of its body. *)
Lemma with_model_outcome {A} (body : M A) w :
  (with_model body w).1 = (body (enter w)).1
  /\ solver_log (with_model body w).2 = solver_log (body (enter w)).2.
Proof.
  unfold with_model. destruct (body (enter w)) as [r w1]. simpl.
  rewrite solver_log_leave. auto.
Qed.

(** A level's probe, when the analyzer's two reactions are in the model
    and the level is within the sink's upper bound: one solver call on
    the forced model, then the appends. *)
Lemma step_result lo fo self fva processes per_step level w r :
  has_id (biomass_reaction_id self) (model w) = true ->
  find_reaction (product_sink_reaction_id self) (reactions (model w))
  = Some r ->
  (level <= r_upper_bound r)%Q ->
  let probe := forced (biomass_reaction_id self)
                 (product_sink_reaction_id self) level (model w) in
  FVSEOF.step lo fo self fva processes per_step level w
  = (match representative_fluxes lo fo fva processes
             (length (solver_log w)) probe with
     | Some value => append_fluxes value (reaction_ids (model w)) per_step
     | None => Raise OptimizationError
     end,
     mkWorld (model w) (contexts w)
       (solver_log w ++ [sweep_call fva processes probe])).
Proof.
  intros Hb Hr Hle probe.
  pose proof (find_reaction_id _ _ _ Hr) as Hid.
  pose proof (forced_bounds (biomass_reaction_id self) _ level _ _ Hr)
    as (_ & _ & Hids).
  fold probe in Hids.
  destruct (preserving_step lo fo self fva processes per_step level w)
    as [Hm Hc].
  destruct (FVSEOF.step lo fo self fva processes per_step level w)
    as [res w'] eqn:E.
  simpl in Hm, Hc.
  assert (H : res = match representative_fluxes lo fo fva processes
                            (length (solver_log w)) probe with
                    | Some value =>
                        append_fluxes value (reaction_ids (model w)) per_step
                    | None => Raise OptimizationError
                    end
              /\ solver_log w'
                 = solver_log w ++ [sweep_call fva processes probe]).
  { change res with (res, w').1. change w' with (res, w').2 at 2.
    rewrite <- E. unfold FVSEOF.step.
    match goal with
    | |- (with_model ?body w).1 = _ /\ _ =>
        destruct (with_model_outcome body w) as [-> ->]
    end.
    rewrite (bind_Return _ _ _ _ _ (set_objective_eval _ (enter w) Hb)).
    erewrite bind_Return by (apply get_by_id_eval; exact Hr).
    erewrite bind_Return
      by (apply set_lower_bound_eval; [rewrite Hid; exact Hr | exact Hle]).
    rewrite Hid. simpl contexts. simpl solver_log.
    change (with_reactions _ _) with probe.
    unfold representative_fluxes, sweep_call.
    destruct fva.
    - unfold bind at 1 3, flux_variability_analysis. simpl.
      destruct (fo (length (solver_log w)) probe (95 # 100)%Q processes)
        as [df|]; simpl; [|auto].
      unfold bind, get_model. simpl.
      rewrite Hids, append_flux_fold. simpl. auto.
    - unfold bind at 1 3, loopless_solution. simpl.
      destruct (lo (length (solver_log w)) probe) as [sol|]; simpl; [|auto].
      unfold bind, get_model. simpl.
      rewrite Hids, append_flux_fold. simpl. auto. }
  destruct H as [-> Hlog]. f_equal.
  rewrite <- (world_eta w'). rewrite Hm, Hc, Hlog. reflexivity.
Qed.

(** Without one of the two reactions the probe raises before any solve. *)
Lemma step_missing lo fo self fva processes per_step level w :
  has_id (biomass_reaction_id self) (model w) = false
  \/ find_reaction (product_sink_reaction_id self) (reactions (model w))
     = None ->
  exists key,
    FVSEOF.step lo fo self fva processes per_step level w
    = (Raise (KeyError key), w).
Proof.
  intros H. unfold FVSEOF.step, with_model.
  unfold bind at 1. unfold set_objective. simpl.
  destruct (has_id (biomass_reaction_id self) (model w)) eqn:Hb.
  - destruct H as [H|H]; [discriminate|].
    unfold bind at 1. unfold get_by_id. simpl. rewrite H. simpl.
    unfold leave. simpl. unfold with_objective. simpl.
    rewrite model_eta, world_eta. eauto.
  - simpl. unfold leave. simpl. rewrite world_eta. eauto.
Qed.

(** A level above the sink's upper bound is refused by the setter, before
    any solve. *)
Lemma step_above lo fo self fva processes per_step level w r :
  has_id (biomass_reaction_id self) (model w) = true ->
  find_reaction (product_sink_reaction_id self) (reactions (model w))
  = Some r ->
  (r_upper_bound r < level)%Q ->
  FVSEOF.step lo fo self fva processes per_step level w
  = (Raise ValueError, w).
Proof.
  intros Hb Hr Hlt.
  pose proof (find_reaction_id _ _ _ Hr) as Hid.
  unfold FVSEOF.step, with_model.
  rewrite (bind_Return _ _ _ _ _ (set_objective_eval _ (enter w) Hb)).
  erewrite bind_Return by (apply get_by_id_eval; exact Hr).
  erewrite bind_Raise
    by (apply set_lower_bound_raises with r; [rewrite Hid; exact Hr | exact Hlt]).
  unfold leave. simpl. unfold with_objective. simpl.
  rewrite model_eta, world_eta. reflexivity.
Qed.

Lemma length_snoc {V} (l : list V) x : length (l ++ [x]) = S (length l).
Proof. rewrite length_app. simpl. lia. Qed.

(** The loop over the levels: each level that is reached adds its solver
    call, on the model forced to that level; the loop returns only after
    every level, with the series the solver's answers give. *)
Lemma sweep_fold lo fo self fva processes levels :
  forall d w res w',
    fold_each levels (FVSEOF.step lo fo self fva processes) d w = (res, w') ->
    model w' = model w /\ contexts w' = contexts w
    /\ exists j,
         (j <= length levels)%nat
         /\ solver_log w'
            = solver_log w
              ++ sweep_calls fva processes (biomass_reaction_id self)
                   (product_sink_reaction_id self) (model w) (take j levels)
         /\ forall d',
              res = Return d' ->
              j = length levels
              /\ sweep_from lo fo fva processes (biomass_reaction_id self)
                   (product_sink_reaction_id self) (model w)
                   (length (solver_log w)) levels d = Return d'
              /\ (levels <> [] ->
                  has_id (biomass_reaction_id self) (model w) = true
                  /\ is_Some (find_reaction (product_sink_reaction_id self)
                                (reactions (model w)))).
Proof.
  induction levels as [|level levels IH]; simpl; intros d w res w' H.
  - injection H as <- <-. split; [reflexivity|]. split; [reflexivity|].
    exists 0%nat. split; [lia|]. split; [rewrite app_nil_r; reflexivity|].
    intros d' [= <-]. split; [reflexivity|]. split; [reflexivity|].
    intros Hne. contradiction.
  - destruct (has_id (biomass_reaction_id self) (model w)) eqn:Hb.
    + destruct (find_reaction (product_sink_reaction_id self)
                  (reactions (model w))) as [r|] eqn:Hr.
      * destruct (Qlt_le_dec (r_upper_bound r) level) as [Hlt|Hle].
        { unfold bind in H.
          rewrite (step_above lo fo self fva processes d level w r Hb Hr Hlt)
            in H.
          injection H as <- <-.
          split; [reflexivity|]. split; [reflexivity|].
          exists 0%nat. split; [lia|].
          split; [rewrite app_nil_r; reflexivity|].
          intros d' [=]. }
        pose proof (step_result lo fo self fva processes d level w r Hb Hr
                      Hle) as Hstep.
        simpl in Hstep.
        set (probe := forced (biomass_reaction_id self)
                        (product_sink_reaction_id self) level (model w)) in *.
        set (w1 := mkWorld (model w) (contexts w)
                     (solver_log w ++ [sweep_call fva processes probe])) in *.
        unfold bind in H. rewrite Hstep in H.
        destruct (representative_fluxes lo fo fva processes
                    (length (solver_log w)) probe) as [value|].
        -- destruct (append_fluxes value (reaction_ids (model w)) d)
             as [d1|e].
           ++ apply IH in H as (Hm & Hc & j & Hj & Hlog & Hret).
              split; [exact Hm|]. split; [exact Hc|].
              exists (S j). split; [lia|]. split.
              { rewrite Hlog. simpl. rewrite <- app_assoc. reflexivity. }
              intros d' Hd'. destruct (Hret d' Hd') as (-> & Hs & _).
              split; [reflexivity|]. split; [|eauto].
              simpl in Hs. rewrite length_snoc in Hs. exact Hs.
           ++ injection H as <- <-. split; [reflexivity|].
              split; [reflexivity|].
              exists 1%nat. split; [lia|]. split; [reflexivity|].
              intros d' [=].
        -- injection H as <- <-. split; [reflexivity|].
           split; [reflexivity|].
           exists 1%nat. split; [lia|]. split; [reflexivity|].
           intros d' [=].
      * destruct (step_missing lo fo self fva processes d level w)
          as [key Hk]; [auto|].
        unfold bind in H. rewrite Hk in H. injection H as <- <-.
        split; [reflexivity|]. split; [reflexivity|].
        exists 0%nat. split; [lia|]. split; [rewrite app_nil_r; reflexivity|].
        intros d' [=].
    + destruct (step_missing lo fo self fva processes d level w)
        as [key Hk]; [auto|].
      unfold bind in H. rewrite Hk in H. injection H as <- <-.
      split; [reflexivity|]. split; [reflexivity|].
      exists 0%nat. split; [lia|]. split; [rewrite app_nil_r; reflexivity|].
      intros d' [=].
Qed.

Lemma steps_lower_bounds_length self n_steps :
  length (FVSEOF.steps_lower_bounds self n_steps) = n_steps.
Proof. unfold FVSEOF.steps_lower_bounds. rewrite length_map, length_seq. reflexivity. Qed.

(** The sweep of [run]. *)
Lemma sweep_spec lo fo self n_steps fva processes w res w' :
  FVSEOF.sweep lo fo self n_steps fva processes w = (res, w') ->
  exists j,
    (j <= n_steps)%nat
    /\ solver_log w'
       = solver_log w
         ++ sweep_calls fva processes (biomass_reaction_id self)
              (product_sink_reaction_id self) (model w)
              (take j (FVSEOF.steps_lower_bounds self n_steps))
    /\ forall per_step,
         res = Return per_step ->
         j = n_steps
         /\ sweep_from lo fo fva processes (biomass_reaction_id self)
              (product_sink_reaction_id self) (model w)
              (length (solver_log w)) (FVSEOF.steps_lower_bounds self n_steps)
              (list_to_map (map (fun r_id => (r_id, []))
                              (reaction_ids (model w))))
            = Return per_step
         /\ (n_steps <> 0%nat ->
             has_id (biomass_reaction_id self) (model w) = true
             /\ is_Some (find_reaction (product_sink_reaction_id self)
                           (reactions (model w)))).
Proof.
  unfold FVSEOF.sweep, bind at 1. simpl. intros H.
  apply sweep_fold in H as (_ & _ & j & Hj & Hlog & Hret).
  rewrite steps_lower_bounds_length in Hj.
  exists j. split; [exact Hj|]. split; [exact Hlog|].
  intros per_step Hp. destruct (Hret per_step Hp) as (-> & Hs & Hne).
  rewrite steps_lower_bounds_length.
  split; [reflexivity|]. split; [exact Hs|].
  intros Hn. apply Hne. intros Hnil.
  apply (f_equal length) in Hnil.
  rewrite steps_lower_bounds_length in Hnil. simpl in Hnil. contradiction.
Qed.

(** ** The solver calls of the essentiality probes *)

(** The knockout of a reaction whose upper bound is negative is refused
    by the setter of the lower bound, outside the [try]. *)
Lemma check_essential_reaction_refused oracle self rid w r :
  has_id (biomass_reaction_id self) (model w) = true ->
  find_reaction rid (reactions (model w)) = Some r ->
  (r_upper_bound r < 0)%Q ->
  check_essential_reaction oracle self rid w = (Raise ValueError, w).
Proof.
  intros Hb Hr Hlt.
  pose proof (find_reaction_id _ _ _ Hr) as Hid.
  unfold check_essential_reaction, with_model.
  rewrite (bind_Return _ _ _ _ _ (set_objective_eval _ (enter w) Hb)).
  erewrite bind_Return by (apply get_by_id_eval; exact Hr).
  erewrite bind_Raise
    by (apply set_lower_bound_raises with r; [rewrite Hid; exact Hr | exact Hlt]).
  unfold leave. simpl. unfold with_objective. simpl.
  rewrite model_eta, world_eta. reflexivity.
Qed.

Lemma check_essential_reaction_log oracle self rid w :
  let w' := (check_essential_reaction oracle self rid w).2 in
  solver_log w' = solver_log w
  \/ solver_log w'
     = solver_log w
       ++ [LooplessCall (knockout (biomass_reaction_id self) rid (model w))].
Proof.
  simpl.
  destruct (has_id (biomass_reaction_id self) (model w)) eqn:Hb.
  - destruct (find_reaction rid (reactions (model w))) as [r|] eqn:Hr.
    + destruct (Qlt_le_dec (r_upper_bound r) 0) as [Hlt|Hle].
      * left.
        rewrite (check_essential_reaction_refused oracle self rid w r Hb Hr
                   Hlt).
        reflexivity.
      * right.
        apply (check_essential_reaction_result oracle self rid w r Hb Hr Hle).
    + left. unfold check_essential_reaction.
      match goal with
      | |- solver_log (with_model ?body w).2 = _ =>
          destruct (with_model_outcome body w) as [_ ->]
      end.
      rewrite (bind_Return _ _ _ _ _ (set_objective_eval _ (enter w) Hb)).
      unfold bind, get_by_id. simpl. rewrite Hr. reflexivity.
  - left. unfold check_essential_reaction.
    match goal with
    | |- solver_log (with_model ?body w).2 = _ =>
        destruct (with_model_outcome body w) as [_ ->]
    end.
    unfold bind, set_objective. simpl. rewrite Hb. reflexivity.
Qed.

Lemma find_essentiality_fold_log oracle self tt ids :
  forall acc w res w',
    fold_each ids (FVSEOF.find_essentiality oracle self tt) acc w
    = (res, w') ->
    exists rest,
      solver_log w' = solver_log w ++ rest
      /\ Forall (is_knockout_call (biomass_reaction_id self) (model w)) rest.
Proof.
  induction ids as [|rid ids IH]; simpl; intros acc w res w' H.
  - injection H as <- <-. exists []. rewrite app_nil_r. auto.
  - unfold bind at 1 in H. unfold FVSEOF.find_essentiality at 1 in H.
    destruct (tt !! rid) as [t|].
    + unfold bind at 1 in H. unfold FVSEOF.check_essential_reaction in H.
      pose proof (check_essential_reaction_log oracle self rid w) as Hlog.
      destruct (preserving_check_essential oracle self rid w) as [Hm _].
      destruct (check_essential_reaction oracle self rid w) as [[e|e] w1];
        simpl in Hlog, Hm.
      * simpl in H. apply IH in H as (rest & Hrest & Hall).
        rewrite Hm in Hall.
        destruct Hlog as [Hlog|Hlog]; rewrite Hlog in Hrest.
        -- exists rest. auto.
        -- exists (LooplessCall
                     (knockout (biomass_reaction_id self) rid (model w))
                   :: rest).
           split; [rewrite Hrest, <- app_assoc; reflexivity|].
           constructor; [exists rid; reflexivity | exact Hall].
      * injection H as <- <-.
        destruct Hlog as [Hlog|Hlog]; rewrite Hlog.
        -- exists []. rewrite app_nil_r. auto.
        -- eexists. split; [reflexivity|].
           constructor; [exists rid; reflexivity | constructor].
    + simpl in H. apply IH in H. exact H.
Qed.

(** All the solver calls of a run that returned: the sweep, one call per
    level, then the essentiality probes. *)
Lemma fvseof_run_log lo fo pf self n_steps ce fva processes w tbl w' :
  FVSEOF.run lo fo pf self n_steps ce fva processes w = (Return tbl, w') ->
  exists rest,
    solver_log w'
    = solver_log w
      ++ sweep_calls fva processes (biomass_reaction_id self)
           (product_sink_reaction_id self) (model w)
           (FVSEOF.steps_lower_bounds self n_steps)
      ++ rest
    /\ Forall (is_knockout_call (biomass_reaction_id self) (model w)) rest.
Proof.
  intros H.
  apply fvseof_run_inv in H
    as (per_step & w1 & tt & slopes & ess & df_data
        & Hsweep & _ & _ & Hess & _).
  pose proof (preserving_model _ _ _ _ (preserving_sweep _ _ _ _ _ _) Hsweep)
    as Hm.
  apply sweep_spec in Hsweep as (j & _ & Hlog & Hret).
  destruct (Hret per_step eq_refl) as (-> & _).
  rewrite <- (steps_lower_bounds_length self n_steps) in Hlog at 1.
  rewrite firstn_all in Hlog.
  destruct ce.
  - apply find_essentiality_fold_log in Hess as (rest & Hrest & Hall).
    exists rest. rewrite Hm in Hall. split; [|exact Hall].
    rewrite Hrest, Hlog, <- app_assoc. reflexivity.
  - apply ret_inv in Hess as [_ ->]. exists [].
    rewrite app_nil_r. auto.
Qed.

(** ** The levels *)

Lemma Q_of_nat_pos k : (0 < k)%nat -> ~ (Q_of_nat k == 0)%Q.
Proof.
  intros Hk H. unfold Q_of_nat in H.
  change 0%Q with (inject_Z 0) in H.
  apply (proj1 (inject_Z_injective _ _)) in H. lia.
Qed.

Lemma fraction_below_one i k : (i < k)%nat -> ~ (Q_of_nat i / Q_of_nat k == 1)%Q.
Proof.
  intros Hik H.
  assert (Hk : ~ (Q_of_nat k == 0)%Q) by (apply Q_of_nat_pos; lia).
  assert (Heq : (Q_of_nat i == Q_of_nat k)%Q).
  { rewrite <- (Qmult_div_r (Q_of_nat i) (Q_of_nat k) Hk), H.
    apply Qmult_1_r. }
  unfold Q_of_nat in Heq.
  apply (proj1 (inject_Z_injective _ _)) in Heq. lia.
Qed.

Lemma level_not_full_yield i k y :
  (i < k)%nat -> ~ (y == 0)%Q -> ~ (Q_of_nat i / Q_of_nat k * y == y)%Q.
Proof.
  intros Hik Hy H. apply (fraction_below_one i k Hik).
  apply (Qmult_inj_r _ _ y Hy). rewrite H. symmetry. apply Qmult_1_l.
Qed.

Lemma steps_lower_bounds_lookup self k i :
  (i < k)%nat ->
  FVSEOF.steps_lower_bounds self k !! i
  = Some (Q_of_nat i / Q_of_nat k * product_max_theoretical_yield self)%Q.
Proof.
  intros Hik. unfold FVSEOF.steps_lower_bounds.
  rewrite list_lookup_fmap, lookup_seq_lt by exact Hik. reflexivity.
Qed.

(** ** The order of the tables *)

Lemma fseof_target_type_is_target_type low high t :
  fseof_target_type low high = Some t -> t = "Up" \/ t = "Down".
Proof.
  intros H. apply fseof_target_type_Some in H as [_ ->].
  destruct (Qlt_bool (Qabs low) (Qabs high)); auto.
Qed.

Lemma fvseof_target_type_is_target_type f l t :
  fvseof_target_type f l = Some t -> is_target_type t.
Proof.
  unfold fvseof_target_type, is_target_type.
  destruct (negb (Qeq_bool f 0) && negb (Qeq_bool l 0)); [|discriminate].
  destruct (Qle_bool 0 (f * l)).
  - destruct (Qlt_bool (Qabs f) (Qabs l)); intros [= <-]; auto.
  - destruct (Qlt_bool (f * l) 0); [|discriminate]. intros [= <-]; auto.
Qed.

(** What the sort key says about two rows with target types. *)
Lemma descending_order t1 s1 t2 s2 :
  is_target_type t1 -> is_target_type t2 ->
  descending t1 s1 t2 s2 = true ->
  (t1 = "Reverse" -> t2 <> "Up")
  /\ (t1 = "Down" -> t2 = "Down")
  /\ (t1 = t2 -> (s2 <= s1)%Q).
Proof.
  unfold descending.
  intros [-> | [-> | ->]] [-> | [-> | ->]]; simpl; intros H;
    try discriminate H;
    (split; [|split]); intros E; try discriminate E; try reflexivity;
    try discriminate; try (apply Qle_bool_iff; exact H).
Qed.

Lemma fseof_rows_have_types oracle self ce fl fh ids w df_data w' :
  fold_each ids (FSEOF_FS.classify oracle self ce fl fh) [] w
  = (Return df_data, w') ->
  Forall (fun row =>
            FSEOF_FS.target_type (FSEOF_FS.data row) = "Up"
            \/ FSEOF_FS.target_type (FSEOF_FS.data row) = "Down")
    (map FSEOF_FS.add_abs_diff df_data).
Proof.
  intros H. apply fseof_classify_fold in H as (new & -> & Hnew & _).
  simpl. rewrite Forall_map. eapply Forall_impl; [exact Hnew|]. simpl.
  intros d (_ & _ & _ & Ht).
  apply fseof_target_type_is_target_type in Ht. exact Ht.
Qed.

Lemma fvseof_rows_have_types ce levels per_step tt slopes ess ids w1 w df_data w' :
  fold_each ids (FVSEOF.assign_target_type per_step) ∅ w1 = (Return tt, w1) ->
  fold_each ids (FVSEOF.combine ce levels per_step tt slopes ess) [] w
  = (Return df_data, w') ->
  Forall (fun row => is_target_type (FVSEOF.target_type row)) df_data.
Proof.
  intros Htt H. apply combine_fold in H as (new & -> & Hnew & _).
  apply assign_target_type_fold in Htt as (_ & _ & Htt).
  simpl. eapply Forall_impl; [exact Hnew|]. simpl.
  intros row (_ & Ht & _). rewrite Htt in Ht.
  destruct (decide (FVSEOF.reaction_id row ∈ ids));
    [|rewrite lookup_empty in Ht; discriminate].
  unfold series_target_type in Ht.
  destruct (per_step !! FVSEOF.reaction_id row) as [fs|];
    [|rewrite lookup_empty in Ht; discriminate].
  destruct (fs !! 0%nat) as [f|]; [|rewrite lookup_empty in Ht; discriminate].
  destruct (last fs) as [l|]; [|rewrite lookup_empty in Ht; discriminate].
  destruct (fvseof_target_type f l) as [t|] eqn:E;
    [|rewrite lookup_empty in Ht; discriminate].
  injection Ht as <-. eapply fvseof_target_type_is_target_type, E.
Qed.

Lemma Forall_perm {V} (P : V -> Prop) l l' :
  Permutation l l' -> Forall P l -> Forall P l'.
Proof. intros Hp. rewrite !Forall_forall. intros H x Hx. apply H. rewrite Hp. exact Hx. Qed.

(** ** The series recorded by the sweep *)

Lemma append_fluxes_Return value ids :
  NoDup ids ->
  forall d d',
    append_fluxes value ids d = Return d' ->
    forall rid,
      rid ∈ ids ->
      forall fs, d !! rid = Some fs -> d' !! rid = Some (fs ++ [value rid]).
Proof.
  induction 1 as [|rid0 ids Hnin Hnd IH]; simpl; intros d d' H rid Hin fs Hfs.
  - apply elem_of_nil in Hin. contradiction.
  - destruct (d !! rid0) as [fs0|] eqn:Hfs0; [|discriminate].
    destruct (decide (rid = rid0)) as [->|Hne].
    + rewrite Hfs in Hfs0. injection Hfs0 as <-.
      clear IH Hin. revert H Hnin.
      generalize (lookup_insert_eq d rid0 (fs ++ [value rid0])).
      generalize (<[rid0 := fs ++ [value rid0]]> d). clear.
      induction ids as [|rid1 ids IH]; simpl; intros d1 Hl H Hnin.
      * injection H as <-. exact Hl.
      * destruct (d1 !! rid1) as [fs1|]; [|discriminate].
        assert (Hne : rid1 <> rid0) by set_solver.
        apply (IH (<[rid1 := fs1 ++ [value rid1]]> d1)); [|exact H|set_solver].
        rewrite lookup_insert_ne by exact Hne. exact Hl.
    + apply (IH _ _ H rid); [set_solver|].
      rewrite lookup_insert_ne by congruence. exact Hfs.
Qed.

(** With unique reaction ids, the series of a reaction after the sweep is
    what it was, followed by the representative flux of each level. *)
Lemma sweep_from_series lo fo fva processes biomass sink m levels :
  NoDup (reaction_ids m) ->
  forall i d d',
    sweep_from lo fo fva processes biomass sink m i levels d = Return d' ->
    exists values,
      length values = length levels
      /\ (forall j level,
            levels !! j = Some level ->
            exists value,
              values !! j = Some value
              /\ representative_fluxes lo fo fva processes (i + j)
                   (forced biomass sink level m) = Some value)
      /\ forall rid fs,
           rid ∈ reaction_ids m -> d !! rid = Some fs ->
           d' !! rid = Some (fs ++ map (fun value => value rid) values).
Proof.
  intros Hnd. induction levels as [|level levels IH]; simpl; intros i d d' H.
  - injection H as <-. exists []. split; [reflexivity|]. split.
    + intros j level Hj. discriminate.
    + intros rid fs _ Hfs. rewrite app_nil_r. exact Hfs.
  - destruct (representative_fluxes lo fo fva processes i
                (forced biomass sink level m)) as [value|] eqn:Hv;
      [|discriminate].
    destruct (append_fluxes value (reaction_ids m) d) as [d1|e] eqn:Hd1;
      [|discriminate].
    apply IH in H as (values & Hlen & Hvals & Hser).
    exists (value :: values). split; [simpl; congruence|]. split.
    + intros [|j] lvl Hj; simpl in Hj.
      * injection Hj as <-. exists value. rewrite Nat.add_0_r. auto.
      * destruct (Hvals j lvl Hj) as (v & Hv1 & Hv2).
        exists v. split; [exact Hv1|].
        replace (i + S j)%nat with (S i + j)%nat by lia. exact Hv2.
    + intros rid fs Hin Hfs.
      rewrite (Hser rid (fs ++ [value rid]) Hin
                 (append_fluxes_Return _ _ Hnd _ _ Hd1 rid Hin fs Hfs)).
      rewrite <- app_assoc. reflexivity.
Qed.

Lemma initial_series ids rid :
  rid ∈ ids ->
  (list_to_map (map (fun r_id => (r_id, [])) ids) : gmap string (list Q))
    !! rid = Some [].
Proof.
  intros Hin. induction ids as [|rid0 ids IH]; simpl.
  - apply elem_of_nil in Hin. contradiction.
  - destruct (decide (rid = rid0)) as [->|Hne].
    + apply lookup_insert_eq.
    + rewrite lookup_insert_ne by congruence. apply IH. set_solver.
Qed.

(** ** The classification of FVSEOF.run *)

Lemma Qeq_bool_false x y : Qeq_bool x y = false <-> ~ (x == y)%Q.
Proof.
  split.
  - intros H E. apply Qeq_bool_iff in E. congruence.
  - intros H. destruct (Qeq_bool x y) eqn:E; [|reflexivity].
    apply Qeq_bool_iff in E. contradiction.
Qed.

Lemma Qle_bool_false x y : Qle_bool x y = false <-> (y < x)%Q.
Proof.
  split.
  - intros H. apply Qnot_le_lt. intros E. apply Qle_bool_iff in E. congruence.
  - intros H. destruct (Qle_bool x y) eqn:E; [|reflexivity].
    apply Qle_bool_iff in E. exfalso. exact (Qlt_not_le _ _ H E).
Qed.

Lemma Qlt_bool_false x y : Qlt_bool x y = false <-> (y <= x)%Q.
Proof.
  unfold Qlt_bool. rewrite negb_false_iff. apply Qle_bool_iff.
Qed.

Lemma fvseof_target_type_is_Some f l :
  is_Some (fvseof_target_type f l) <-> ~ ((f == 0)%Q \/ (l == 0)%Q).
Proof.
  unfold fvseof_target_type.
  destruct (Qeq_bool f 0) eqn:Ef; simpl.
  { apply Qeq_bool_iff in Ef. split; [intros [? ?]; discriminate | tauto]. }
  destruct (Qeq_bool l 0) eqn:El; simpl.
  { apply Qeq_bool_iff in El. split; [intros [? ?]; discriminate | tauto]. }
  apply Qeq_bool_false in Ef, El.
  destruct (Qle_bool 0 (f * l)) eqn:Ep.
  - split; [tauto | eauto].
  - apply Qle_bool_false in Ep. apply Qlt_bool_iff in Ep. rewrite Ep.
    split; [tauto | eauto].
Qed.

Lemma fvseof_target_type_Some f l t :
  fvseof_target_type f l = Some t ->
  (t = "Up" <-> (0 <= f * l)%Q /\ (Qabs f < Qabs l)%Q)
  /\ (t = "Down" <-> (0 <= f * l)%Q /\ (Qabs l <= Qabs f)%Q)
  /\ (t = "Reverse" <-> (f * l < 0)%Q).
Proof.
  unfold fvseof_target_type.
  destruct (negb (Qeq_bool f 0) && negb (Qeq_bool l 0)); [|discriminate].
  destruct (Qle_bool 0 (f * l)) eqn:Ep.
  - apply Qle_bool_iff in Ep.
    destruct (Qlt_bool (Qabs f) (Qabs l)) eqn:Ea; intros [= <-].
    + apply Qlt_bool_iff in Ea. repeat split; auto; try discriminate.
      * intros [_ H]. exfalso. exact (Qlt_not_le _ _ Ea H).
      * intros H. exfalso. exact (Qlt_not_le _ _ H Ep).
    + apply Qlt_bool_false in Ea. repeat split; auto; try discriminate.
      * intros [_ H]. exfalso. exact (Qlt_not_le _ _ H Ea).
      * intros H. exfalso. exact (Qlt_not_le _ _ H Ep).
  - apply Qle_bool_false in Ep.
    destruct (Qlt_bool (f * l) 0); [|discriminate]. intros [= <-].
    repeat split; auto; try discriminate.
    + intros [H _]. exfalso. exact (Qlt_not_le _ _ Ep H).
    + intros [H _]. exfalso. exact (Qlt_not_le _ _ Ep H).
Qed.

(** ** Runs that reach the fit *)

Lemma assign_target_type_returns per_step ids :
  (forall rid, rid ∈ ids ->
     exists fs, per_step !! rid = Some fs /\ fs <> []) ->
  forall acc w,
    exists tt,
      fold_each ids (FVSEOF.assign_target_type per_step) acc w
      = (Return tt, w).
Proof.
  induction ids as [|rid ids IH]; simpl; intros Hs acc w.
  - exists acc. reflexivity.
  - destruct (Hs rid) as (fs & Hfs & Hne); [apply list_elem_of_here|].
    assert (Hstep : exists acc1,
               FVSEOF.assign_target_type per_step acc rid w
               = (Return acc1, w)).
    { unfold FVSEOF.assign_target_type, bind, getitem, index, index_last.
      rewrite Hfs. simpl.
      destruct fs as [|f fs]; [contradiction|]. simpl.
      destruct (negb (Qeq_bool f 0)); [|eauto].
      rewrite last_cons.
      destruct (last fs) as [l|]; simpl;
        (destruct (negb (Qeq_bool _ 0)); [|eauto]);
        (destruct (Qle_bool 0 _);
         [destruct (Qlt_bool _ _); eauto
         |destruct (Qlt_bool _ 0); eauto]). }
    destruct Hstep as [acc1 Hstep].
    rewrite (bind_Return _ _ _ _ _ Hstep).
    apply IH. intros rid' Hin. apply Hs. apply list_elem_of_further, Hin.
Qed.

Lemma fit_slope_raises polyfit levels per_step ids :
  (forall rid, rid ∈ ids -> is_Some (per_step !! rid)) ->
  (exists rid fs,
     rid ∈ ids /\ per_step !! rid = Some fs /\ polyfit levels fs = None) ->
  forall acc w,
    fold_each ids (FVSEOF.fit_slope polyfit levels per_step) acc w
    = (Raise LinAlgError, w).
Proof.
  induction ids as [|rid0 ids IH]; simpl; intros Hs (rid & fs & Hin & Hfs & Hpf)
    acc w.
  - apply elem_of_nil in Hin. contradiction.
  - destruct (Hs rid0) as [fs0 Hfs0]; [apply list_elem_of_here|].
    unfold bind at 1, FVSEOF.fit_slope at 1, bind, getitem.
    rewrite Hfs0. simpl.
    destruct (polyfit levels fs0) as [s|] eqn:Es; [|reflexivity].
    simpl. apply IH.
    + intros rid' Hin'. apply Hs. apply list_elem_of_further, Hin'.
    + exists rid, fs. split; [|auto].
      apply elem_of_cons in Hin as [->|Hin]; [|exact Hin].
      rewrite Hfs in Hfs0. injection Hfs0 as <-. congruence.
Qed.

(** The series of a sweep over one level, with unique reaction ids. *)
Lemma single_level_series lo fo self fva processes w per_step w1 :
  NoDup (reaction_ids (model w)) ->
  FVSEOF.sweep lo fo self 1 fva processes w = (Return per_step, w1) ->
  exists level value,
    FVSEOF.steps_lower_bounds self 1 = [level]
    /\ representative_fluxes lo fo fva processes (length (solver_log w))
         (forced (biomass_reaction_id self) (product_sink_reaction_id self)
            level (model w)) = Some value
    /\ solver_log w1
       = solver_log w
         ++ [sweep_call fva processes
               (forced (biomass_reaction_id self)
                  (product_sink_reaction_id self) level (model w))]
    /\ forall rid,
         rid ∈ reaction_ids (model w) -> per_step !! rid = Some [value rid].
Proof.
  intros Hnd H.
  apply sweep_spec in H as (j & _ & Hlog & Hret).
  destruct (Hret per_step eq_refl) as (-> & Hfrom & _).
  apply (sweep_from_series _ _ _ _ _ _ _ _ Hnd) in Hfrom
    as (values & Hlen & Hvals & Hser).
  remember (FVSEOF.steps_lower_bounds self 1) as levels eqn:El.
  assert (Hl : levels
               = [(Q_of_nat 0 / Q_of_nat 1
                   * product_max_theoretical_yield self)%Q])
    by (subst levels; reflexivity).
  rewrite Hl in *. simpl in Hlen.
  destruct values as [|value [|? ?]]; try discriminate Hlen.
  destruct (Hvals 0%nat _ eq_refl) as (v & [= <-] & Hv).
  rewrite Nat.add_0_r in Hv.
  eexists. exists value. split; [reflexivity|]. split; [exact Hv|].
  split; [exact Hlog|].
  intros rid Hrid.
  rewrite (Hser rid [] Hrid (initial_series _ _ Hrid)). reflexivity.
Qed.

(** * Further properties *)

(** ** The capacity probes and the constructor *)

Lemma world_eq w w' :
  model w' = model w -> contexts w' = contexts w ->
  solver_log w' = solver_log w -> w' = w.
Proof. destruct w, w'; simpl; intros -> -> ->; reflexivity. Qed.

(** A capacity probe: one solver call on the model with the objective
    set, and the objective's flux, or the solver's error. *)
Lemma calc_yield_result oracle rid w :
  has_id rid (model w) = true ->
  calc_product_maximal_theoretical_yield oracle rid w
  = (match oracle (length (solver_log w)) (with_objective rid (model w)) with
     | Some sol => Return (sol rid)
     | None => Raise OptimizationError
     end,
     mkWorld (model w) (contexts w)
       (solver_log w ++ [LooplessCall (with_objective rid (model w))])).
Proof.
  intros Hb.
  destruct (preserving_calc_yield oracle rid w) as [Hm Hc].
  destruct (calc_product_maximal_theoretical_yield oracle rid w)
    as [res w'] eqn:E.
  simpl in Hm, Hc.
  assert (H : res = match oracle (length (solver_log w))
                            (with_objective rid (model w)) with
                    | Some sol => Return (sol rid)
                    | None => Raise OptimizationError
                    end
              /\ solver_log w'
                 = solver_log w ++ [LooplessCall (with_objective rid (model w))]).
  { change res with (res, w').1. change w' with (res, w').2 at 2.
    rewrite <- E. unfold calc_product_maximal_theoretical_yield.
    match goal with
    | |- (with_model ?body w).1 = _ /\ _ =>
        destruct (with_model_outcome body w) as [-> ->]
    end.
    rewrite (bind_Return _ _ _ _ _ (set_objective_eval _ (enter w) Hb)).
    unfold bind, loopless_solution. simpl.
    destruct (oracle (length (solver_log w)) (with_objective rid (model w)));
      simpl; auto. }
  destruct H as [-> Hlog]. f_equal.
  rewrite <- (world_eta w'). rewrite Hm, Hc, Hlog. reflexivity.
Qed.

Lemma calc_growth_result oracle rid w :
  has_id rid (model w) = true ->
  calc_maximal_biomass_growth oracle rid w
  = (match oracle (length (solver_log w)) (with_objective rid (model w)) with
     | Some sol => Return (sol rid)
     | None => Raise OptimizationError
     end,
     mkWorld (model w) (contexts w)
       (solver_log w ++ [LooplessCall (with_objective rid (model w))])).
Proof. exact (calc_yield_result oracle rid w). Qed.

Lemma has_id_with_sink_self suffix target m :
  has_id (target ++ suffix)%string (with_sink suffix target m) = true.
Proof.
  unfold has_id, with_sink, reaction_ids. simpl.
  rewrite map_app, existsb_app. simpl.
  rewrite String.eqb_refl, orb_true_r. reflexivity.
Qed.

Lemma has_id_with_sink_old suffix target rid m :
  has_id rid m = true -> has_id rid (with_sink suffix target m) = true.
Proof.
  unfold has_id, with_sink, reaction_ids. simpl. intros H.
  rewrite map_app, existsb_app, H. reflexivity.
Qed.

(** The constructor, past its assertions and with a fresh sink id: the
    sink is registered, then the two probes run. *)
Lemma init_result oracle suffix biomass target threshold w :
  biomass ∈ reaction_ids (model w) ->
  target ∈ metabolites (model w) ->
  (target ++ suffix)%string ∉ reaction_ids (model w) ->
  let sink := (target ++ suffix)%string in
  let m1 := with_sink suffix target (model w) in
  let i := length (solver_log w) in
  let c1 := LooplessCall (with_objective sink m1) in
  let c2 := LooplessCall (with_objective biomass m1) in
  let ctx := remember (UndoAddReaction sink) (contexts w) in
  init oracle suffix biomass target threshold w
  = match oracle i (with_objective sink m1) with
    | None => (Raise OptimizationError, mkWorld m1 ctx (solver_log w ++ [c1]))
    | Some sol1 =>
        match oracle (S i) (with_objective biomass m1) with
        | None =>
            (Raise OptimizationError,
             mkWorld m1 ctx (solver_log w ++ [c1; c2]))
        | Some sol2 =>
            (Return (mkAnalyzer biomass target sink (sol1 sink) (sol2 biomass)
                       threshold),
             mkWorld m1 ctx (solver_log w ++ [c1; c2]))
        end
    end.
Proof.
  intros Hb Ht Hs sink m1 i c1 c2 ctx.
  rewrite init_unfold.
  pose proof Hb as Hb'. pose proof Ht as Ht'.
  apply existsb_eqb_elem_of in Hb', Ht'. rewrite Hb', Ht'.
  apply has_id_elem_of in Hb.
  rewrite <- has_id_elem_of in Hs. apply not_true_is_false in Hs.
  unfold construct.
  rewrite (bind_Return _ _ _ _ _ (add_product_sink_reaction_spec _ _ _ Ht)).
  rewrite Hs.
  unfold bind at 1.
  rewrite calc_yield_result by (simpl; apply has_id_with_sink_self).
  simpl model. simpl solver_log. simpl contexts.
  fold sink. fold (with_sink suffix target (model w)). fold m1. fold i.
  fold c1. fold ctx.
  destruct (oracle i (with_objective sink m1)) as [sol1|]; [|reflexivity].
  unfold bind at 1.
  rewrite calc_growth_result
    by (simpl; apply has_id_with_sink_old; exact Hb).
  simpl model. simpl solver_log. simpl contexts.
  rewrite length_snoc. fold c2. rewrite <- app_assoc. simpl.
  subst i. destruct (oracle (S _) _) as [sol2|]; reflexivity.
Qed.

(** ** The essentiality check, off the expected path *)

Lemma find_reaction_None rid m :
  rid ∉ reaction_ids m -> find_reaction rid (reactions m) = None.
Proof.
  intros H. destruct (find_reaction rid (reactions m)) as [r|] eqn:E;
    [|reflexivity].
  exfalso. apply H. apply has_id_elem_of, find_reaction_has_id. eauto.
Qed.

Lemma float_lt_mono f q q' :
  (q <= q')%Q -> float_lt f q = true -> float_lt f q' = true.
Proof.
  intros Hq. destruct f as [x| | |]; simpl; auto.
  rewrite !Qlt_bool_iff. intros H. eapply Qlt_le_trans; eauto.
Qed.

Lemma check_essential_reaction_missing oracle self rid w :
  has_id (biomass_reaction_id self) (model w) = false
  \/ find_reaction rid (reactions (model w)) = None ->
  exists key, (check_essential_reaction oracle self rid w).1 = Raise (KeyError key).
Proof.
  intros H. unfold check_essential_reaction.
  match goal with
  | |- exists _, (with_model ?body w).1 = _ =>
      destruct (with_model_outcome body w) as [-> _]
  end.
  destruct (has_id (biomass_reaction_id self) (model w)) eqn:Hb.
  - destruct H as [H|H]; [discriminate|].
    rewrite (bind_Return _ _ _ _ _ (set_objective_eval _ (enter w) Hb)).
    unfold bind, get_by_id. simpl. rewrite H. eauto.
  - unfold bind, set_objective. simpl. rewrite Hb. eauto.
Qed.

(** An essentiality check that returns has asked the solver exactly once. *)
Lemma check_essential_reaction_Return oracle self rid w e w' :
  check_essential_reaction oracle self rid w = (Return e, w') ->
  model w' = model w
  /\ solver_log w'
     = solver_log w
       ++ [LooplessCall (knockout (biomass_reaction_id self) rid (model w))].
Proof.
  intros H.
  split; [apply (preserving_model _ _ _ _ (preserving_check_essential _ _ _) H)|].
  destruct (has_id (biomass_reaction_id self) (model w)) eqn:Hb.
  - destruct (find_reaction rid (reactions (model w))) as [r|] eqn:Hr.
    + destruct (Qlt_le_dec (r_upper_bound r) 0) as [Hlt|Hle].
      { rewrite (check_essential_reaction_refused oracle self rid w r Hb Hr
                   Hlt) in H.
        discriminate. }
      destruct (check_essential_reaction_result oracle self rid w r Hb Hr Hle)
        as [_ Hlog].
      rewrite H in Hlog. exact Hlog.
    + destruct (check_essential_reaction_missing oracle self rid w) as [k Hk];
        [auto|]. rewrite H in Hk. discriminate.
  - destruct (check_essential_reaction_missing oracle self rid w) as [k Hk];
      [auto|]. rewrite H in Hk. discriminate.
Qed.

(** ** The sampling of FSEOF_FS *)

Lemma replicate_snoc {V} n (x : V) : replicate n x ++ [x] = x :: replicate n x.
Proof. induction n as [|n IH]; simpl; [reflexivity | rewrite IH; reflexivity]. Qed.

(** The sampling loop, when it returns: [n] solver calls on the model as
    it stands, whose answers are recorded in turn. *)
Lemma sample_Return oracle n :
  forall d w d' w',
    FSEOF_FS.sample oracle n d w = (Return d', w') ->
    exists sols,
      length sols = n
      /\ (forall k sol,
             sols !! k = Some sol ->
             oracle (length (solver_log w) + k)%nat (model w) = Some sol)
      /\ d' = recorded (reaction_ids (model w)) sols d
      /\ w' = mkWorld (model w) (contexts w)
                (solver_log w ++ replicate n (LooplessCall (model w))).
Proof.
  induction n as [|n IH]; simpl; intros d w d' w' H.
  - apply ret_inv in H as [<- ->]. exists []. split; [reflexivity|].
    split; [intros k sol Hk; discriminate|]. split; [reflexivity|].
    rewrite app_nil_r, world_eta. reflexivity.
  - apply bind_Return_inv in H as (sol & w1 & H1 & H).
    unfold loopless_solution in H1.
    destruct (oracle (length (solver_log w)) (model w)) as [sol0|] eqn:Esol;
      [|discriminate].
    injection H1 as <- <-.
    unfold bind at 1 in H. simpl in H.
    apply IH in H as (sols & Hlen & Hsols & -> & ->). simpl.
    exists (sol0 :: sols). split; [simpl; congruence|]. split.
    + intros [|k] s Hk; simpl in Hk.
      * injection Hk as <-. rewrite Nat.add_0_r. exact Esol.
      * specialize (Hsols k s Hk). simpl in Hsols.
        rewrite length_snoc in Hsols.
        replace (length (solver_log w) + S k)%nat
          with (S (length (solver_log w)) + k)%nat by lia.
        exact Hsols.
    + split; [reflexivity|]. rewrite <- app_assoc. reflexivity.
Qed.

(** The sampling loop raises the solver's error at the first failing
    solve. *)
Lemma sample_fails oracle n :
  forall d w,
    (exists j, (j < n)%nat
               /\ oracle (length (solver_log w) + j)%nat (model w) = None) ->
    exists w', FSEOF_FS.sample oracle n d w = (Raise OptimizationError, w').
Proof.
  induction n as [|n IH]; simpl; intros d w (j & Hj & Hfail); [lia|].
  unfold bind at 1. unfold loopless_solution.
  destruct (oracle (length (solver_log w)) (model w)) as [sol|] eqn:Esol;
    [|eauto].
  unfold bind at 1. simpl. apply IH. simpl.
  destruct j as [|j].
  - rewrite Nat.add_0_r in Hfail. congruence.
  - exists j. split; [lia|]. rewrite length_snoc.
    replace (S (length (solver_log w)) + j)%nat
      with (length (solver_log w) + S j)%nat by lia.
    exact Hfail.
Qed.

(** One round of recording, with unique ids: every id of the model gets
    the flux of the solution appended to its list. *)
Lemma record_round sol ids :
  NoDup ids ->
  forall d rid,
    fold_left (FSEOF_FS.record_flux sol) ids d !! rid
    = if decide (rid ∈ ids)
      then Some (default [] (d !! rid) ++ [sol rid])
      else d !! rid.
Proof.
  induction 1 as [|rid0 ids Hnin Hnd IH]; simpl; intros d rid.
  - destruct (decide (rid ∈ [])) as [Hin|]; [|reflexivity].
    apply elem_of_nil in Hin. contradiction.
  - rewrite IH. unfold FSEOF_FS.record_flux.
    destruct (decide (rid = rid0)) as [->|Hne].
    + destruct (decide (rid0 ∈ ids)); [contradiction|].
      destruct (decide (rid0 ∈ rid0 :: ids)) as [_|Hn];
        [|exfalso; apply Hn; apply list_elem_of_here].
      destruct (d !! rid0) as [fs|]; rewrite lookup_insert_eq; reflexivity.
    + assert (Hl : forall v : list Q, <[rid0 := v]> d !! rid = d !! rid)
        by (intros v; apply lookup_insert_ne; congruence).
      destruct (decide (rid ∈ ids)) as [Hi|Hi],
               (decide (rid ∈ rid0 :: ids)) as [Hj|Hj].
      * destruct (d !! rid0) as [fs|]; rewrite Hl; reflexivity.
      * exfalso. apply Hj. apply list_elem_of_further. exact Hi.
      * exfalso. apply elem_of_cons in Hj as [Hj|Hj];
          [exact (Hne Hj) | exact (Hi Hj)].
      * destruct (d !! rid0) as [fs|]; rewrite Hl; reflexivity.
Qed.

Lemma recorded_lookup ids sols :
  NoDup ids ->
  forall d rid,
    rid ∈ ids -> sols <> [] ->
    recorded ids sols d !! rid
    = Some (default [] (d !! rid) ++ map (fun sol => sol rid) sols).
Proof.
  intros Hnd. unfold recorded.
  induction sols as [|sol sols IH]; intros d rid Hin Hne; [contradiction|].
  simpl. destruct sols as [|sol' sols].
  - simpl. rewrite record_round by exact Hnd.
    destruct (decide (rid ∈ ids)); [reflexivity | contradiction].
  - rewrite IH by (auto || discriminate).
    rewrite record_round by exact Hnd.
    destruct (decide (rid ∈ ids)); [|contradiction].
    simpl. rewrite <- app_assoc. reflexivity.
Qed.

(** One of the two sampling blocks of [run], when the analyzer's two
    reactions are in the model and the level is within the sink's upper
    bound: the sampling loop on the forced model, then the means, then
    the model as it was. *)
Lemma fluxes_at_unfold oracle self fraction n w r :
  has_id (biomass_reaction_id self) (model w) = true ->
  find_reaction (product_sink_reaction_id self) (reactions (model w))
  = Some r ->
  (product_max_theoretical_yield self * fraction <= r_upper_bound r)%Q ->
  exists ctx,
    FSEOF_FS.fluxes_at oracle self fraction n w
    = (match (FSEOF_FS.sample oracle n ∅
                (mkWorld
                   (forced (biomass_reaction_id self)
                      (product_sink_reaction_id self)
                      (product_max_theoretical_yield self * fraction)
                      (model w))
                   ctx (solver_log w))).1 with
       | Return d => Return (mean <$> d)
       | Raise e => Raise e
       end,
       mkWorld (model w) (contexts w)
         (solver_log
            (FSEOF_FS.sample oracle n ∅
               (mkWorld
                  (forced (biomass_reaction_id self)
                     (product_sink_reaction_id self)
                     (product_max_theoretical_yield self * fraction)
                     (model w))
                  ctx (solver_log w))).2)).
Proof.
  intros Hb Hr Hle.
  pose proof (find_reaction_id _ _ _ Hr) as Hid.
  destruct (preserving_fluxes_at oracle self fraction n w) as [Hm Hc].
  destruct (FSEOF_FS.fluxes_at oracle self fraction n w) as [res w'] eqn:E.
  simpl in Hm, Hc.
  exists ([UndoLowerBound (product_sink_reaction_id self) (r_lower_bound r);
           UndoObjective (objective (model w))] :: contexts w).
  rewrite <- (world_eta w'), Hm, Hc.
  change res with (res, w').1. change w' with (res, w').2 at 2.
  rewrite <- E. unfold FSEOF_FS.fluxes_at.
  match goal with
  | |- context [with_model ?body w] =>
      destruct (with_model_outcome body w) as [-> ->]
  end.
  rewrite (bind_Return _ _ _ _ _ (set_objective_eval _ (enter w) Hb)).
  erewrite bind_Return by (apply get_by_id_eval; exact Hr).
  erewrite bind_Return
    by (apply set_lower_bound_eval; [rewrite Hid; exact Hr | exact Hle]).
  rewrite Hid. simpl contexts. simpl solver_log.
  unfold FSEOF_FS.get_average_fluxes_from_n_solutions, bind, forced.
  simpl.
  match goal with
  | |- context [FSEOF_FS.sample oracle n ∅ ?W] =>
      destruct (FSEOF_FS.sample oracle n ∅ W) as [[d|e] w4] eqn:Es
  end; simpl; reflexivity.
Qed.

(** A level above the sink's upper bound is refused by the setter, before
    any solve. *)
Lemma fluxes_at_above oracle self fraction n w r :
  has_id (biomass_reaction_id self) (model w) = true ->
  find_reaction (product_sink_reaction_id self) (reactions (model w))
  = Some r ->
  (r_upper_bound r < product_max_theoretical_yield self * fraction)%Q ->
  FSEOF_FS.fluxes_at oracle self fraction n w = (Raise ValueError, w).
Proof.
  intros Hb Hr Hlt.
  pose proof (find_reaction_id _ _ _ Hr) as Hid.
  unfold FSEOF_FS.fluxes_at, with_model.
  rewrite (bind_Return _ _ _ _ _ (set_objective_eval _ (enter w) Hb)).
  erewrite bind_Return by (apply get_by_id_eval; exact Hr).
  erewrite bind_Raise
    by (apply set_lower_bound_raises with r; [rewrite Hid; exact Hr | exact Hlt]).
  unfold leave. simpl. unfold with_objective. simpl.
  rewrite model_eta, world_eta. reflexivity.
Qed.

Lemma fluxes_at_missing oracle self fraction n w :
  has_id (biomass_reaction_id self) (model w) = false
  \/ find_reaction (product_sink_reaction_id self) (reactions (model w))
     = None ->
  exists key,
    (FSEOF_FS.fluxes_at oracle self fraction n w).1 = Raise (KeyError key).
Proof.
  intros H. unfold FSEOF_FS.fluxes_at.
  match goal with
  | |- exists _, (with_model ?body w).1 = _ =>
      destruct (with_model_outcome body w) as [-> _]
  end.
  destruct (has_id (biomass_reaction_id self) (model w)) eqn:Hb.
  - destruct H as [H|H]; [discriminate|].
    rewrite (bind_Return _ _ _ _ _ (set_objective_eval _ (enter w) Hb)).
    unfold bind, get_by_id. simpl. rewrite H. eauto.
  - unfold bind, set_objective. simpl. rewrite Hb. eauto.
Qed.

(** A sampling block that returns: [n] solver calls on the forced model,
    and the means of their answers. *)
Lemma fluxes_at_Return oracle self fraction n w fluxes w' :
  FSEOF_FS.fluxes_at oracle self fraction n w = (Return fluxes, w') ->
  has_id (biomass_reaction_id self) (model w) = true
  /\ has_id (product_sink_reaction_id self) (model w) = true
  /\ exists sols,
      length sols = n
      /\ (forall k sol,
             sols !! k = Some sol ->
             oracle (length (solver_log w) + k)%nat
               (forced (biomass_reaction_id self)
                  (product_sink_reaction_id self)
                  (product_max_theoretical_yield self * fraction)
                  (model w))
             = Some sol)
      /\ fluxes = mean <$> recorded (reaction_ids (model w)) sols ∅
      /\ w' = mkWorld (model w) (contexts w)
                (solver_log w
                 ++ replicate n
                      (LooplessCall
                         (forced (biomass_reaction_id self)
                            (product_sink_reaction_id self)
                            (product_max_theoretical_yield self * fraction)
                            (model w)))).
Proof.
  intros H.
  destruct (has_id (biomass_reaction_id self) (model w)) eqn:Hb.
  2:{ destruct (fluxes_at_missing oracle self fraction n w) as [k Hk];
        [auto|]. rewrite H in Hk. discriminate. }
  destruct (find_reaction (product_sink_reaction_id self)
              (reactions (model w))) as [r|] eqn:Hr.
  2:{ destruct (fluxes_at_missing oracle self fraction n w) as [k Hk];
        [auto|]. rewrite H in Hk. discriminate. }
  destruct (Qlt_le_dec (r_upper_bound r)
              (product_max_theoretical_yield self * fraction)) as [Hlt|Hle].
  { rewrite (fluxes_at_above oracle self fraction n w r Hb Hr Hlt) in H.
    discriminate. }
  split; [reflexivity|]. split; [apply find_reaction_has_id; rewrite Hr; eauto|].
  destruct (fluxes_at_unfold oracle self fraction n w r Hb Hr Hle) as [ctx E].
  rewrite H in E.
  pose proof (forced_bounds (biomass_reaction_id self) _
                (product_max_theoretical_yield self * fraction) _ _ Hr)
    as (_ & _ & Hids).
  match type of E with
  | context [FSEOF_FS.sample oracle n ∅ ?W] =>
      destruct (FSEOF_FS.sample oracle n ∅ W) as [[d|e] w4] eqn:Es
  end; simpl in E; [|discriminate].
  apply sample_Return in Es as (sols & Hlen & Hsols & -> & ->).
  simpl in Hsols, E. rewrite Hids in E.
  injection E as -> ->.
  exists sols. auto.
Qed.

(** A sampling block without samples returns the empty dict and leaves
    the world as it was. *)
Lemma fluxes_at_no_samples oracle self fraction w :
  has_id (biomass_reaction_id self) (model w) = true ->
  has_id (product_sink_reaction_id self) (model w) = true ->
  (product_max_theoretical_yield self * fraction
   <= upper_bound_of (product_sink_reaction_id self) (model w))%Q ->
  FSEOF_FS.fluxes_at oracle self fraction 0 w = (Return ∅, w).
Proof.
  intros Hb Hs Hle. apply find_reaction_has_id in Hs as [r Hr].
  unfold upper_bound_of in Hle. rewrite Hr in Hle.
  destruct (fluxes_at_unfold oracle self fraction 0 w r Hb Hr Hle)
    as [ctx ->].
  simpl. rewrite fmap_empty, world_eta. reflexivity.
Qed.

(** A failing solve in a sampling block ends the block with the solver's
    error. *)
Lemma fluxes_at_fails oracle self fraction n w :
  has_id (biomass_reaction_id self) (model w) = true ->
  has_id (product_sink_reaction_id self) (model w) = true ->
  (product_max_theoretical_yield self * fraction
   <= upper_bound_of (product_sink_reaction_id self) (model w))%Q ->
  (exists j,
      (j < n)%nat
      /\ oracle (length (solver_log w) + j)%nat
           (forced (biomass_reaction_id self) (product_sink_reaction_id self)
              (product_max_theoretical_yield self * fraction) (model w))
         = None) ->
  exists w',
    FSEOF_FS.fluxes_at oracle self fraction n w
    = (Raise OptimizationError, w')
    /\ model w' = model w /\ contexts w' = contexts w.
Proof.
  intros Hb Hs Hle Hfail. apply find_reaction_has_id in Hs as [r Hr].
  unfold upper_bound_of in Hle. rewrite Hr in Hle.
  destruct (fluxes_at_unfold oracle self fraction n w r Hb Hr Hle)
    as [ctx ->].
  match goal with
  | |- context [FSEOF_FS.sample oracle n ∅ ?W] =>
      destruct (sample_fails oracle n ∅ W Hfail) as [w4 ->]
  end.
  simpl. eauto.
Qed.

(** ** The rows of FSEOF_FS.run, with their names and flags *)

Lemma get_by_id_inv rid w r w' :
  get_by_id rid w = (Return r, w') ->
  find_reaction rid (reactions (model w)) = Some r /\ w' = w.
Proof.
  unfold get_by_id.
  destruct (find_reaction rid (reactions (model w))) as [r0|];
    intros [= <- <-]; auto.
Qed.

Lemma fseof_classify_log oracle self ce fl fh acc rid w acc' w' :
  FSEOF_FS.classify oracle self ce fl fh acc rid w = (Return acc', w') ->
  model w' = model w
  /\ ((acc' = acc /\ solver_log w' = solver_log w)
      \/ exists d,
           acc' = acc ++ [d]
           /\ fseof_row_ok oracle self ce (model w) d
           /\ length (solver_log w')
              = (length (solver_log w) + (if ce then 1 else 0))%nat).
Proof.
  unfold FSEOF_FS.classify. intros H.
  apply bind_Return_inv in H as (low & w1 & H1 & H).
  apply getitem_inv in H1 as [Hl ->].
  apply bind_Return_inv in H as (high & w1 & H1 & H).
  apply getitem_inv in H1 as [Hh ->].
  destruct (Qlt_bool 0 (low * high)).
  - apply bind_Return_inv in H as (r & w1 & H1 & H).
    apply get_by_id_inv in H1 as [Hr ->].
    apply bind_Return_inv in H as (e & w2 & H1 & H).
    apply ret_inv in H as [<- ->].
    destruct ce.
    + apply bind_Return_inv in H1 as (e0 & w3 & H1 & H).
      apply ret_inv in H as [<- ->].
      pose proof (check_essential_reaction_Return _ _ _ _ _ _ H1)
        as [Hm Hlog].
      split; [exact Hm|]. right. eexists. split; [reflexivity|]. split.
      * split; simpl; eauto 10.
      * rewrite Hlog, length_snoc. lia.
    + apply ret_inv in H1 as [<- ->].
      split; [reflexivity|]. right. eexists. split; [reflexivity|]. split.
      * split; simpl; eauto.
      * lia.
  - apply ret_inv in H as [<- ->]. auto.
Qed.

Lemma fseof_classify_fold_log oracle self ce fl fh ids :
  forall acc w df_data w',
    fold_each ids (FSEOF_FS.classify oracle self ce fl fh) acc w
    = (Return df_data, w') ->
    model w' = model w
    /\ exists new,
        df_data = acc ++ new
        /\ length (solver_log w')
           = (length (solver_log w) + (if ce then length new else 0))%nat
        /\ Forall (fseof_row_ok oracle self ce (model w)) new.
Proof.
  induction ids as [|rid ids IH]; simpl; intros acc w df_data w' H.
  - apply ret_inv in H as [<- ->]. split; [reflexivity|].
    exists []. rewrite app_nil_r. split; [reflexivity|].
    split; [destruct ce; simpl; lia | constructor].
  - apply bind_Return_inv in H as (acc1 & w1 & H1 & H2).
    apply fseof_classify_log in H1 as [Hm1 H1].
    apply IH in H2 as (Hm2 & new & -> & Hlen & Hnew).
    rewrite Hm1 in Hm2, Hnew. split; [exact Hm2|].
    destruct H1 as [[-> Hlog] | (d & -> & Hd & Hlog)].
    + exists new. split; [reflexivity|]. split; [|exact Hnew].
      rewrite Hlen, Hlog. reflexivity.
    + exists (d :: new). rewrite <- app_assoc. split; [reflexivity|].
      split; [|constructor; assumption].
      rewrite Hlen, Hlog. destruct ce; simpl; lia.
Qed.

Lemma fseof_run_log oracle self fraction_low fraction_high ce n w tbl w' :
  FSEOF_FS.run oracle self fraction_low fraction_high ce n w
  = (Return tbl, w') ->
  exists df_data,
    tbl = sort_values FSEOF_FS.may_precede
            (map FSEOF_FS.add_abs_diff df_data)
    /\ length (solver_log w')
       = (length (solver_log w) + 2 * n
          + (if ce then length df_data else 0))%nat
    /\ Forall (fseof_row_ok oracle self ce (model w)) df_data.
Proof.
  intros H.
  apply fseof_run_inv in H
    as (fl & w1 & fh & w2 & df & H1 & H2 & H3 & _ & ->).
  apply fluxes_at_Return in H1 as (_ & _ & sols1 & _ & _ & _ & ->).
  apply fluxes_at_Return in H2 as (_ & _ & sols2 & _ & _ & _ & ->).
  apply fseof_classify_fold_log in H3 as (_ & new & -> & Hlen & Hnew).
  simpl in Hlen, Hnew. exists new. split; [reflexivity|].
  split; [|exact Hnew].
  rewrite Hlen, !length_app, !length_replicate. lia.
Qed.


(** ** The rows of FVSEOF.run, with their gene rules, flags and steps *)

(** The loop over the level indices copies the first fluxes of the
    series, one per level. *)
Lemma steps_fold (fs : list Q) k :
  forall a acc w steps w',
    fold_each (seq a k)
      (fun acc i => let! f := index fs i in ret (acc ++ [f])) acc w
    = (Return steps, w') ->
    w' = w
    /\ steps = acc ++ take k (drop a fs)
    /\ length (take k (drop a fs)) = k.
Proof.
  induction k as [|k IH]; simpl; intros a acc w steps w' H.
  - apply ret_inv in H as [<- ->]. rewrite take_0, app_nil_r. auto.
  - apply bind_Return_inv in H as (acc1 & w1 & H1 & H).
    apply bind_Return_inv in H1 as (f & w2 & H1 & H2).
    apply index_inv in H1 as [Hf ->].
    apply ret_inv in H2 as [<- ->].
    apply IH in H as (-> & -> & Hlen).
    rewrite (drop_S _ _ _ Hf). simpl. rewrite <- app_assoc, Hlen. auto.
Qed.

Lemma combine_row ce levels per_step tt slopes ess acc rid w acc' w' :
  FVSEOF.combine ce levels per_step tt slopes ess acc rid w
  = (Return acc', w') ->
  w' = w
  /\ match tt !! rid with
     | Some _ =>
         exists row,
           acc' = acc ++ [row]
           /\ fvseof_row_ok ce levels per_step ess (model w) row
     | None => acc' = acc
     end.
Proof.
  unfold FVSEOF.combine. destruct (tt !! rid) as [t|].
  - intros H.
    apply bind_Return_inv in H as (s & w1 & H1 & H).
    apply getitem_inv in H1 as [Hs ->].
    apply bind_Return_inv in H as (r & w1 & H1 & H).
    apply get_by_id_inv in H1 as [Hr ->].
    apply bind_Return_inv in H as (e & w2 & H1 & H).
    apply bind_Return_inv in H as (fs & w3 & H2 & H).
    apply getitem_inv in H2 as [Hfs ->].
    apply bind_Return_inv in H as (steps & w4 & H3 & H).
    apply steps_fold in H3 as (-> & -> & Hlen).
    apply ret_inv in H as [<- ->].
    rewrite drop_0 in *. simpl.
    assert (He : w2 = w
                 /\ if ce then exists e0, ess !! rid = Some e0 /\ e = Some e0
                    else e = None).
    { destruct ce.
      - apply bind_Return_inv in H1 as (e0 & w5 & H1 & H).
        apply getitem_inv in H1 as [He ->].
        apply ret_inv in H as [<- ->]. eauto.
      - apply ret_inv in H1 as [<- ->]. auto. }
    destruct He as [-> He]. split; [reflexivity|].
    eexists. split; [reflexivity|].
    unfold fvseof_row_ok. simpl. split; [eauto|]. split; [exact He|].
    eauto.
  - intros H. apply ret_inv in H as [<- ->]. auto.
Qed.

Lemma combine_fold_rows ce levels per_step tt slopes ess ids :
  forall acc w df_data w',
    fold_each ids (FVSEOF.combine ce levels per_step tt slopes ess) acc w
    = (Return df_data, w') ->
    w' = w
    /\ exists new,
         df_data = acc ++ new
         /\ length new = length (typed tt ids)
         /\ Forall (fvseof_row_ok ce levels per_step ess (model w)) new.
Proof.
  unfold typed.
  induction ids as [|rid ids IH]; simpl; intros acc w df_data w' H.
  - apply ret_inv in H as [<- ->]. split; [reflexivity|].
    exists []. rewrite app_nil_r. auto.
  - apply bind_Return_inv in H as (acc1 & w1 & H1 & H2).
    apply combine_row in H1 as [-> H1].
    apply IH in H2 as (-> & new & -> & Hlen & Hnew).
    split; [reflexivity|].
    destruct (tt !! rid) as [t|] eqn:Et.
    + destruct H1 as (row & -> & Hrow).
      exists (row :: new). rewrite <- app_assoc. split; [reflexivity|].
      rewrite filter_cons_True by (rewrite Et; eauto).
      simpl. rewrite Hlen. split; [reflexivity|]. constructor; assumption.
    + subst acc1. exists new. split; [reflexivity|].
      rewrite filter_cons_False by (rewrite Et; intros [? ?]; discriminate).
      auto.
Qed.

(** The essentiality loop, when it returns: one solver call for every
    reaction with a target type, and every flag it stores is the answer
    of a check on the same model. *)
Lemma find_essentiality_fold_count oracle self tt ids :
  forall acc w ess w',
    fold_each ids (FVSEOF.find_essentiality oracle self tt) acc w
    = (Return ess, w') ->
    model w' = model w
    /\ length (solver_log w')
       = (length (solver_log w) + length (typed tt ids))%nat
    /\ forall rid e,
         ess !! rid = Some e ->
         acc !! rid = Some e
         \/ exists w1 w2,
              model w1 = model w
              /\ check_essential_reaction oracle self rid w1 = (Return e, w2).
Proof.
  unfold typed.
  induction ids as [|rid ids IH]; simpl; intros acc w ess w' H.
  - apply ret_inv in H as [<- ->]. split; [reflexivity|].
    split; [simpl; lia | auto].
  - apply bind_Return_inv in H as (acc1 & w1 & H1 & H2).
    unfold FVSEOF.find_essentiality in H1.
    destruct (tt !! rid) as [t|] eqn:Et.
    + apply bind_Return_inv in H1 as (e & w2 & H1 & H).
      apply ret_inv in H as [<- ->].
      unfold FVSEOF.check_essential_reaction in H1.
      pose proof (check_essential_reaction_Return _ _ _ _ _ _ H1)
        as [Hm Hlog].
      apply IH in H2 as (Hm2 & Hlen & Hess).
      rewrite Hm in Hm2, Hess. split; [exact Hm2|].
      rewrite filter_cons_True by (rewrite Et; eauto).
      split; [rewrite Hlen, Hlog, length_snoc; simpl; lia|].
      intros rid0 e0 H0. apply Hess in H0 as [H0|H0]; [|auto].
      destruct (decide (rid0 = rid)) as [->|Hne].
      * rewrite lookup_insert_eq in H0. injection H0 as <-.
        right. exists w, w2. auto.
      * rewrite lookup_insert_ne in H0 by congruence. auto.
    + apply ret_inv in H1 as [<- ->].
      apply IH in H2 as (Hm2 & Hlen & Hess). split; [exact Hm2|].
      rewrite filter_cons_False by (rewrite Et; intros [? ?]; discriminate).
      auto.
Qed.

Lemma fvseof_run_rows lo fo pf self n_steps ce fva processes w tbl w' :
  FVSEOF.run lo fo pf self n_steps ce fva processes w = (Return tbl, w') ->
  exists per_step w1 ess df_data,
    FVSEOF.sweep lo fo self n_steps fva processes w = (Return per_step, w1)
    /\ tbl = sort_values FVSEOF.may_precede df_data
    /\ length (solver_log w')
       = (length (solver_log w) + n_steps
          + (if ce then length df_data else 0))%nat
    /\ Forall (fvseof_row_ok ce (FVSEOF.steps_lower_bounds self n_steps)
                 per_step ess (model w)) df_data
    /\ forall rid e,
         ess !! rid = Some e ->
         exists w2 w3,
           model w2 = model w
           /\ check_essential_reaction lo self rid w2 = (Return e, w3).
Proof.
  intros H.
  apply fvseof_run_inv in H
    as (per_step & w1 & tt & slopes & ess & df_data
        & Hsweep & _ & _ & Hess & Hdf & _ & ->).
  exists per_step, w1, ess, df_data. split; [exact Hsweep|].
  split; [reflexivity|].
  pose proof (preserving_model _ _ _ _ (preserving_sweep _ _ _ _ _ _) Hsweep)
    as Hm1.
  destruct (sweep_spec _ _ _ _ _ _ _ _ _ Hsweep) as (j & _ & Hlog & Hret).
  destruct (Hret per_step eq_refl) as (-> & _ & _).
  assert (Hlen1 : length (solver_log w1)
                  = (length (solver_log w) + n_steps)%nat).
  { rewrite Hlog, length_app. unfold sweep_calls.
    rewrite length_map, length_take, steps_lower_bounds_length. lia. }
  apply combine_fold_rows in Hdf as (_ & new & Hnew & Hcount & Hrows).
  simpl in Hnew. subst new.
  destruct ce.
  - apply find_essentiality_fold_count in Hess as (Hm2 & Hlen2 & Hflags).
    rewrite Hm2, Hm1 in Hrows. rewrite Hm1 in Hflags.
    split; [rewrite Hlen2, Hlen1, Hcount; reflexivity|].
    split; [exact Hrows|].
    intros rid e He. apply Hflags in He as [He|He]; [|exact He].
    rewrite lookup_empty in He. discriminate.
  - apply ret_inv in Hess as [<- ->]. rewrite Hm1 in Hrows.
    split; [rewrite Hlen1; lia|]. split; [exact Hrows|].
    intros rid e He. rewrite lookup_empty in He. discriminate.
Qed.

(** ** A run of FVSEOF without target *)

Lemma assign_target_type_skip per_step ids :
  Forall (fun rid =>
    exists fs f l,
      per_step !! rid = Some fs /\ fs !! 0%nat = Some f /\ last fs = Some l
      /\ ((f == 0)%Q \/ (l == 0)%Q)) ids ->
  forall acc w,
    fold_each ids (FVSEOF.assign_target_type per_step) acc w
    = (Return acc, w).
Proof.
  induction 1 as [|rid ids (fs & f & l & Hfs & Hf & Hl & Hz) _ IH];
    intros acc w; simpl; [reflexivity|].
  rewrite (bind_Return _ _ _ acc w); [apply IH|].
  unfold FVSEOF.assign_target_type, getitem, index, index_last.
  rewrite Hfs. unfold bind at 1, ret at 1. rewrite Hf.
  unfold bind at 1, ret at 1.
  destruct (Qeq_bool f 0) eqn:Ef; simpl; [reflexivity|].
  rewrite Hl. unfold bind at 1, ret at 1.
  destruct Hz as [Hz|Hz].
  - apply Qeq_bool_iff in Hz. congruence.
  - apply Qeq_bool_iff in Hz. rewrite Hz. reflexivity.
Qed.

Lemma fit_slope_returns polyfit levels per_step ids :
  Forall (fun rid =>
    exists fs, per_step !! rid = Some fs /\ is_Some (polyfit levels fs)) ids ->
  forall acc w,
    exists slopes,
      fold_each ids (FVSEOF.fit_slope polyfit levels per_step) acc w
      = (Return slopes, w).
Proof.
  induction 1 as [|rid ids (fs & Hfs & [s Hs]) _ IH]; intros acc w; simpl;
    [eexists; reflexivity|].
  destruct (IH (<[rid := s]> acc) w) as [slopes E].
  exists slopes.
  rewrite (bind_Return _ _ _ (<[rid := s]> acc) w); [exact E|].
  unfold FVSEOF.fit_slope, getitem. rewrite Hfs.
  unfold bind, ret. rewrite Hs. reflexivity.
Qed.

Lemma find_essentiality_untyped oracle self ids :
  forall acc w,
    fold_each ids (FVSEOF.find_essentiality oracle self ∅) acc w
    = (Return acc, w).
Proof.
  induction ids as [|rid ids IH]; intros acc w; simpl; [reflexivity|].
  rewrite (bind_Return _ _ _ acc w); [apply IH|].
  unfold FVSEOF.find_essentiality. rewrite lookup_empty. reflexivity.
Qed.

Lemma combine_untyped ce levels per_step slopes ess ids :
  forall acc w,
    fold_each ids (FVSEOF.combine ce levels per_step ∅ slopes ess) acc w
    = (Return acc, w).
Proof.
  induction ids as [|rid ids IH]; intros acc w; simpl; [reflexivity|].
  rewrite (bind_Return _ _ _ acc w); [apply IH|].
  unfold FVSEOF.combine. rewrite lookup_empty. reflexivity.
Qed.

(** ** The sink, and the fit on a single point *)

Lemma find_reaction_app rid rs rs' :
  find_reaction rid (rs ++ rs')
  = match find_reaction rid rs with
    | Some r => Some r
    | None => find_reaction rid rs'
    end.
Proof.
  induction rs as [|r rs IH]; simpl; [reflexivity|].
  destruct (String.eqb (r_id r) rid); [reflexivity | exact IH].
Qed.

(** What an injector leaves: the sink appended when its id was free, the
    world as it was when the id was taken. *)
Lemma add_product_sink_reaction_cases suffix target w :
  target ∈ metabolites (model w) ->
  exists w1,
    add_product_sink_reaction suffix target w
    = (Return (target ++ suffix)%string, w1)
    /\ ((target ++ suffix)%string ∉ reaction_ids (model w) ->
        model w1 = with_sink suffix target (model w))
    /\ ((target ++ suffix)%string ∈ reaction_ids (model w) -> w1 = w).
Proof.
  intros Ht. rewrite (add_product_sink_reaction_spec _ _ _ Ht).
  eexists. split; [reflexivity|].
  destruct (has_id (target ++ suffix)%string (model w)) eqn:E.
  - split; [|reflexivity]. intros H. apply has_id_elem_of in E. contradiction.
  - split; [reflexivity|]. intros H. apply has_id_elem_of in H. congruence.
Qed.

(** The closed form has no slope for a single point: its denominator
    is 0. *)
Lemma strict_fit_single x ys : strict_fit [x] ys = None.
Proof.
  unfold strict_fit, least_squares_slope.
  assert (H : Qeq_bool
                (Q_of_nat (length [x]) * dot [x] [x]
                 - py_sum [x] * py_sum [x]) 0 = true).
  { apply Qeq_bool_iff. unfold dot, py_sum, Q_of_nat. simpl. ring. }
  rewrite H. reflexivity.
Qed.

(** * The claims *)

(** ** The worked examples *)

Example fseof_init_example :
  FSEOF_FS.init (example_solver "P_sink") "BIO" "P" (1 # 2)%Q example_world
  = (Return fseof_self, fseof_world).
Proof. vm_compute. reflexivity. Qed.

Example fvseof_init_example :
  FVSEOF.init (example_solver "P_fvseof_sink") "BIO" "P" (1 # 2)%Q
    example_world
  = (Return fvseof_self, fvseof_world).
Proof. vm_compute. reflexivity. Qed.

Example idle_init_example :
  FSEOF_FS.init idle_solver "BIO" "P" (1 # 2)%Q example_world
  = (Return idle_self, idle_world).
Proof. vm_compute. reflexivity. Qed.

(** Knocking R1 out makes the example infeasible, so R1 is essential;
    without R2 growth is a fifth of the baseline, below the half asked
    for; R3 is not essential. *)
Example essential_reactions_example :
  (FSEOF_FS.check_essential_reaction (example_solver "P_sink") fseof_self
     "R1" fseof_world).1 = Return true
  /\ (FSEOF_FS.check_essential_reaction (example_solver "P_sink") fseof_self
        "R2" fseof_world).1 = Return true
  /\ (FSEOF_FS.check_essential_reaction (example_solver "P_sink") fseof_self
        "R3" fseof_world).1 = Return false.
Proof. vm_compute. auto. Qed.

Example idle_fvseof_init_example :
  FVSEOF.init idle_solver "BIO" "P" (1 # 2)%Q example_world
  = (Return idle_fvseof_self, idle_fvseof_world).
Proof. vm_compute. reflexivity. Qed.

Lemma example_ids_are_unique : NoDup (reaction_ids (model fvseof_world)).
Proof. apply (bool_decide_unpack _). vm_compute. reflexivity. Qed.

(** ** C1: the order of the result tables *)

(** C1, as the code has it.  Both tables are sorted by target type,
    descending as a string, then by score, descending.  As strings
    "Up" > "Reverse" > "Down", so in a table of FVSEOF.run the "Up" rows
    come first, then the "Reverse" rows, then the "Down" rows: a row after
    a "Reverse" row is not "Up", and a row after a "Down" row is "Down".
    A table of FSEOF_FS.run has "Up" and "Down" rows only, the "Up" rows
    first.  Among rows of one type the FSEOF score (the absolute
    difference of the mean fluxes) and the absolute value of the FVSEOF
    slope do not increase down the table. *)
Theorem tables_are_sorted :
  forall (lo : nat -> Model -> option (string -> Q))
         (fo : nat -> Model -> Q -> nat -> option (string -> fva_row))
         (pf : list Q -> list Q -> option Q) (self : Analyzer) (w : World),
    (forall fraction_low fraction_high ce n tbl w',
        FSEOF_FS.run lo self fraction_low fraction_high ce n w
        = (Return tbl, w') ->
        forall i j a b,
          (i < j)%nat -> tbl !! i = Some a -> tbl !! j = Some b ->
          let ta := FSEOF_FS.target_type (FSEOF_FS.data a) in
          let tb := FSEOF_FS.target_type (FSEOF_FS.data b) in
          (ta = "Up" \/ ta = "Down")
          /\ (tb = "Up" \/ tb = "Down")
          /\ (ta = "Down" -> tb = "Down")
          /\ (ta = tb ->
              (FSEOF_FS.abs_diff_mean_fluxes b
               <= FSEOF_FS.abs_diff_mean_fluxes a)%Q)
          /\ FSEOF_FS.abs_diff_mean_fluxes a
             = Qabs (FSEOF_FS.mean_flux_low (FSEOF_FS.data a)
                     - FSEOF_FS.mean_flux_high (FSEOF_FS.data a)))
    /\ (forall n_steps ce fva processes tbl w',
          FVSEOF.run lo fo pf self n_steps ce fva processes w
          = (Return tbl, w') ->
          forall i j a b,
            (i < j)%nat -> tbl !! i = Some a -> tbl !! j = Some b ->
            let ta := FVSEOF.target_type a in
            let tb := FVSEOF.target_type b in
            (ta = "Up" \/ ta = "Down" \/ ta = "Reverse")
            /\ (tb = "Up" \/ tb = "Down" \/ tb = "Reverse")
            /\ (ta = "Reverse" -> tb <> "Up")
            /\ (ta = "Down" -> tb = "Down")
            /\ (ta = tb ->
                (Qabs (FVSEOF.slope b) <= Qabs (FVSEOF.slope a))%Q)).
Proof.
  intros lo fo pf self w. split.
  - intros fraction_low fraction_high ce n tbl w' H i j a b Hij Ha Hb ta tb.
    apply fseof_run_inv in H
      as (fl & w1 & fh & w2 & df_data & _ & _ & Hfold & _ & ->).
    pose proof (fseof_rows_have_types _ _ _ _ _ _ _ _ _ Hfold) as Htypes.
    apply (Forall_perm _ _ _
             (sort_values_perm FSEOF_FS.may_precede _)) in Htypes.
    assert (HP : Forall (fun row =>
                   is_target_type (FSEOF_FS.target_type (FSEOF_FS.data row)))
                   (sort_values FSEOF_FS.may_precede
                      (map FSEOF_FS.add_abs_diff df_data))).
    { eapply Forall_impl; [exact Htypes|]. simpl. unfold is_target_type. tauto. }
    assert (Hab : FSEOF_FS.may_precede a b = true).
    { eapply (Sorted_lookup (fun x y => FSEOF_FS.may_precede x y = true)
                _ _ _ HP
                (sort_values_Sorted FSEOF_FS.may_precede _ _)
                i j a b Hij Ha Hb). }
    rewrite Forall_forall in Htypes.
    assert (Hta := Htypes a (list_elem_of_lookup_2 _ _ _ Ha)).
    assert (Htb := Htypes b (list_elem_of_lookup_2 _ _ _ Hb)).
    fold ta in Hta. fold tb in Htb.
    unfold FSEOF_FS.may_precede in Hab. fold ta tb in Hab.
    apply descending_order in Hab as (_ & Hd & Hs);
      [|unfold is_target_type; tauto|unfold is_target_type; tauto].
    split; [exact Hta|]. split; [exact Htb|]. split; [exact Hd|].
    split; [exact Hs|].
    apply list_elem_of_lookup_2 in Ha.
    rewrite <- (sort_values_perm FSEOF_FS.may_precede) in Ha.
    apply list_elem_of_fmap in Ha as (d & -> & _). reflexivity.
  - intros n_steps ce fva processes tbl w' H i j a b Hij Ha Hb ta tb.
    apply fvseof_run_inv in H
      as (per_step & w1 & tt & slopes & ess & df_data
          & _ & Htt & _ & _ & Hfold & _ & ->).
    pose proof (fvseof_rows_have_types _ _ _ _ _ _ _ _ _ _ _ Htt Hfold)
      as Htypes.
    apply (Forall_perm _ _ _
             (sort_values_perm FVSEOF.may_precede _)) in Htypes.
    assert (Hab : FVSEOF.may_precede a b = true).
    { eapply (Sorted_lookup (fun x y => FVSEOF.may_precede x y = true)
                _ _ _ Htypes
                (sort_values_Sorted FVSEOF.may_precede _ _)
                i j a b Hij Ha Hb). }
    rewrite Forall_forall in Htypes.
    assert (Hta := Htypes a (list_elem_of_lookup_2 _ _ _ Ha)).
    assert (Htb := Htypes b (list_elem_of_lookup_2 _ _ _ Hb)).
    fold ta in Hta. fold tb in Htb.
    unfold FVSEOF.may_precede in Hab. fold ta tb in Hab.
    apply descending_order in Hab as (Hr & Hd & Hs); auto.
    Unshelve.
    + intros x y z Hx Hy Hz. apply descending_trans; assumption.
    + intros x y. apply descending_total.
    + intros x y z Hx Hy Hz. apply descending_trans; assumption.
    + intros x y. apply descending_total.
Qed.

(** C1 as stated fails on FVSEOF.run: in the table of the example the two
    "Reverse" rows stand before the two "Down" rows. *)
Lemma reverse_rows_precede_down_rows :
  exists tbl w',
    FVSEOF.run (example_solver "P_fvseof_sink") (example_fva "P_fvseof_sink")
      strict_fit fvseof_self 4 false true 1 fvseof_world
    = (Return tbl, w')
    /\ map (fun row => (FVSEOF.reaction_id row, FVSEOF.target_type row)) tbl
       = [("R1", "Up"); ("R2", "Reverse"); ("R3", "Reverse");
          ("R4", "Down"); ("BIO", "Down")]
    /\ exists a b,
         tbl !! 1%nat = Some a /\ tbl !! 3%nat = Some b
         /\ FVSEOF.target_type a = "Reverse"
         /\ FVSEOF.target_type b = "Down".
Proof.
  pose (outcome := FVSEOF.run (example_solver "P_fvseof_sink")
                     (example_fva "P_fvseof_sink") strict_fit fvseof_self 4
                     false true 1 fvseof_world).
  exists (table_of outcome), outcome.2.
  split; [vm_compute; reflexivity|].
  split; [vm_compute; reflexivity|].
  vm_compute. eexists. eexists. repeat split.
Qed.

Lemma tables_are_sorted_witness :
  exists a b,
    table_of
      (FVSEOF.run (example_solver "P_fvseof_sink")
         (example_fva "P_fvseof_sink") strict_fit fvseof_self 4 false true 1
         fvseof_world) !! 1%nat = Some a
    /\ table_of
         (FVSEOF.run (example_solver "P_fvseof_sink")
            (example_fva "P_fvseof_sink") strict_fit fvseof_self 4 false true
            1 fvseof_world) !! 2%nat = Some b
    /\ FVSEOF.target_type a = "Reverse"
    /\ FVSEOF.target_type b = "Reverse"
    /\ (Qabs (FVSEOF.slope b) <= Qabs (FVSEOF.slope a))%Q.
Proof.
  pose (outcome := FVSEOF.run (example_solver "P_fvseof_sink")
                     (example_fva "P_fvseof_sink") strict_fit fvseof_self 4
                     false true 1 fvseof_world).
  destruct (table_of outcome !! 1%nat) as [a|] eqn:Ha;
    [|vm_compute in Ha; discriminate Ha].
  destruct (table_of outcome !! 2%nat) as [b|] eqn:Hb;
    [|vm_compute in Hb; discriminate Hb].
  exists a, b. split; [exact Ha|]. split; [exact Hb|].
  assert (Hta : FVSEOF.target_type a = "Reverse").
  { vm_compute in Ha. injection Ha as <-. reflexivity. }
  assert (Htb : FVSEOF.target_type b = "Reverse").
  { vm_compute in Hb. injection Hb as <-. reflexivity. }
  split; [exact Hta|]. split; [exact Htb|].
  destruct (tables_are_sorted (example_solver "P_fvseof_sink")
              (example_fva "P_fvseof_sink") strict_fit fvseof_self
              fvseof_world) as [_ Hsorted].
  apply (Hsorted 4%nat false true 1%nat (table_of outcome) outcome.2
           ltac:(vm_compute; reflexivity) 1%nat 2%nat a b
           ltac:(lia) Ha Hb).
  rewrite Hta, Htb. reflexivity.
Defined.

(** ** C2: the essentiality check *)




(** ** C3: the rows of FSEOF_FS.run *)

(** C3.  When FSEOF_FS.run returns a table, then with the mean fluxes of
    its two sampling blocks: every reaction of the model has a mean flux
    at both levels, and a row for it is in the table if and only if the
    product of the two is strictly positive; every row belongs to a
    reaction of the model, carries its two mean fluxes, has target type
    "Up" when |high| > |low| and "Down" otherwise, and its score is
    |low - high|. *)
Theorem fseof_rows_are_same_sign_reactions :
  forall (lo : nat -> Model -> option (string -> Q)) (self : Analyzer)
         (fraction_low fraction_high : Q) (check_essentiality : bool)
         (n : nat) (w : World) (tbl : list FSEOF_FS.Row) (w' : World),
    FSEOF_FS.run lo self fraction_low fraction_high check_essentiality n w
    = (Return tbl, w') ->
    exists fluxes_low w1 fluxes_high w2,
      FSEOF_FS.fluxes_at lo self fraction_low n w = (Return fluxes_low, w1)
      /\ FSEOF_FS.fluxes_at lo self fraction_high n w1
         = (Return fluxes_high, w2)
      /\ (forall rid,
             rid ∈ reaction_ids (model w) ->
             exists low high,
               fluxes_low !! rid = Some low
               /\ fluxes_high !! rid = Some high
               /\ ((exists row,
                       row ∈ tbl
                       /\ FSEOF_FS.reaction_id (FSEOF_FS.data row) = rid)
                   <-> (0 < low * high)%Q))
      /\ (forall row,
             row ∈ tbl ->
             let d := FSEOF_FS.data row in
             let low := FSEOF_FS.mean_flux_low d in
             let high := FSEOF_FS.mean_flux_high d in
             FSEOF_FS.reaction_id d ∈ reaction_ids (model w)
             /\ fluxes_low !! FSEOF_FS.reaction_id d = Some low
             /\ fluxes_high !! FSEOF_FS.reaction_id d = Some high
             /\ ((Qabs low < Qabs high)%Q -> FSEOF_FS.target_type d = "Up")
             /\ ((Qabs high <= Qabs low)%Q -> FSEOF_FS.target_type d = "Down")
             /\ FSEOF_FS.abs_diff_mean_fluxes row = Qabs (low - high)).
Proof.
  intros lo self fraction_low fraction_high ce n w tbl w' H.
  apply fseof_run_inv in H
    as (fl & w1 & fh & w2 & df_data & H1 & H2 & H3 & _ & ->).
  apply fseof_classify_fold in H3 as (new & Hd & Hnew & Hids).
  simpl in Hd. subst new.
  exists fl, w1, fh, w2. split; [exact H1|]. split; [exact H2|].
  rewrite Forall_forall in Hnew. rewrite Forall_forall in Hids.
  assert (Hrow : forall row,
             row ∈ sort_values FSEOF_FS.may_precede
                     (map FSEOF_FS.add_abs_diff df_data) <->
             exists d, d ∈ df_data /\ row = FSEOF_FS.add_abs_diff d).
  { intros row.
    rewrite <- (sort_values_perm FSEOF_FS.may_precede
                  (map FSEOF_FS.add_abs_diff df_data)).
    rewrite list_elem_of_fmap. split; intros (d & ? & ?); eauto. }
  split.
  - intros rid Hrid.
    destruct (Hids rid Hrid) as (low & high & Hl & Hh & Hsome).
    exists low, high. split; [exact Hl|]. split; [exact Hh|]. split.
    + intros (row & Hin & Hid). apply Hrow in Hin as (d & Hin & ->).
      simpl in Hid. subst rid.
      destruct (Hnew d Hin) as (_ & Hl' & Hh' & Ht).
      rewrite Hl in Hl'. rewrite Hh in Hh'.
      injection Hl' as ->. injection Hh' as ->.
      apply fseof_target_type_Some in Ht. tauto.
    + intros Hp.
      destruct Hsome as (d & Hin & Hid).
      { unfold fseof_target_type. apply Qlt_bool_iff in Hp. rewrite Hp. eauto. }
      exists (FSEOF_FS.add_abs_diff d). split; [|exact Hid].
      apply Hrow. eauto.
  - intros row Hin. apply Hrow in Hin as (d & Hin & ->). simpl.
    destruct (Hnew d Hin) as (Hid & Hl & Hh & Ht).
    apply fseof_target_type_Some in Ht as [_ Ht].
    repeat split; auto.
    + intros Hlt. apply Qlt_bool_iff in Hlt. rewrite Hlt in Ht. exact Ht.
    + intros Hle.
      destruct (Qlt_bool (Qabs (FSEOF_FS.mean_flux_low d))
                  (Qabs (FSEOF_FS.mean_flux_high d))) eqn:E; [|exact Ht].
      apply Qlt_bool_iff in E. exfalso. exact (Qlt_not_le _ _ E Hle).
Qed.

Lemma fseof_rows_are_same_sign_reactions_witness :
  exists fluxes_low w1 fluxes_high w2,
    FSEOF_FS.fluxes_at (example_solver "P_sink") fseof_self (1 # 10) 2
      fseof_world = (Return fluxes_low, w1)
    /\ FSEOF_FS.fluxes_at (example_solver "P_sink") fseof_self (2 # 10) 2 w1
       = (Return fluxes_high, w2)
    /\ exists low high,
         fluxes_low !! "R3" = Some low /\ fluxes_high !! "R3" = Some high
         /\ ~ (0 < low * high)%Q.
Proof.
  pose (outcome := FSEOF_FS.run (example_solver "P_sink") fseof_self
                     (1 # 10) (2 # 10) true 2 fseof_world).
  destruct (fseof_rows_are_same_sign_reactions (example_solver "P_sink")
              fseof_self (1 # 10) (2 # 10) true 2 fseof_world
              (table_of outcome) outcome.2)
    as (fl & w1 & fh & w2 & H1 & H2 & Hids & _).
  - vm_compute. reflexivity.
  - exists fl, w1, fh, w2. split; [exact H1|]. split; [exact H2|].
    destruct (Hids "R3") as (low & high & Hl & Hh & Hiff).
    + apply existsb_eqb_elem_of. reflexivity.
    + exists low, high. split; [exact Hl|]. split; [exact Hh|].
      intros Hp. apply Hiff in Hp as (row & Hin & Hid).
      apply list_elem_of_In in Hin. vm_compute in Hin.
      repeat (destruct Hin as [<- | Hin]; [discriminate Hid|]).
      contradiction.
Defined.

(** ** C4: the rows of FVSEOF.run *)

(** C4.  When FVSEOF.run returns a table, then with the series recorded
    by its sweep: every reaction of the model has a series with a first
    and a last flux, and a row for it is in the table if and only if
    neither of the two is zero; every row belongs to a reaction of the
    model, has target type "Up" exactly when first * last >= 0 and
    |last| > |first|, "Down" exactly when first * last >= 0 and
    |last| <= |first|, "Reverse" exactly when first * last < 0, and its
    slope is what the degree-1 fit returns for the levels and the series.
    With unique reaction ids the series of a reaction holds, level by
    level, its representative flux for each of the n_steps levels. *)
Theorem fvseof_rows_are_classified :
  forall (lo : nat -> Model -> option (string -> Q))
         (fo : nat -> Model -> Q -> nat -> option (string -> fva_row))
         (pf : list Q -> list Q -> option Q) (self : Analyzer)
         (n_steps : nat) (check_essentiality fva : bool) (processes : nat)
         (w : World) (tbl : list FVSEOF.Row) (w' : World),
    FVSEOF.run lo fo pf self n_steps check_essentiality fva processes w
    = (Return tbl, w') ->
    let levels := FVSEOF.steps_lower_bounds self n_steps in
    exists per_step w1,
      FVSEOF.sweep lo fo self n_steps fva processes w = (Return per_step, w1)
      /\ (forall rid,
             rid ∈ reaction_ids (model w) ->
             exists fs flux_first flux_last,
               per_step !! rid = Some fs
               /\ fs !! 0%nat = Some flux_first /\ last fs = Some flux_last
               /\ ((exists row, row ∈ tbl /\ FVSEOF.reaction_id row = rid)
                   <-> ~ ((flux_first == 0)%Q \/ (flux_last == 0)%Q)))
      /\ (forall row,
             row ∈ tbl ->
             exists fs flux_first flux_last,
               FVSEOF.reaction_id row ∈ reaction_ids (model w)
               /\ per_step !! FVSEOF.reaction_id row = Some fs
               /\ fs !! 0%nat = Some flux_first /\ last fs = Some flux_last
               /\ (FVSEOF.target_type row = "Up"
                   <-> (0 <= flux_first * flux_last)%Q
                       /\ (Qabs flux_first < Qabs flux_last)%Q)
               /\ (FVSEOF.target_type row = "Down"
                   <-> (0 <= flux_first * flux_last)%Q
                       /\ (Qabs flux_last <= Qabs flux_first)%Q)
               /\ (FVSEOF.target_type row = "Reverse"
                   <-> (flux_first * flux_last < 0)%Q)
               /\ pf levels fs = Some (FVSEOF.slope row))
      /\ (NoDup (reaction_ids (model w)) ->
          exists values,
            length values = n_steps
            /\ (forall i level,
                   levels !! i = Some level ->
                   exists value,
                     values !! i = Some value
                     /\ representative_fluxes lo fo fva processes
                          (length (solver_log w) + i)
                          (forced (biomass_reaction_id self)
                             (product_sink_reaction_id self) level (model w))
                        = Some value)
            /\ forall rid,
                 rid ∈ reaction_ids (model w) ->
                 per_step !! rid = Some (map (fun value => value rid) values)).
Proof.
  intros lo fo pf self n_steps ce fva processes w tbl w' H levels.
  apply fvseof_run_inv in H
    as (per_step & w1 & tt & slopes & ess & df_data
        & Hsweep & Htt & Hfit & _ & Hcomb & _ & ->).
  exists per_step, w1. split; [exact Hsweep|].
  apply assign_target_type_fold in Htt as (_ & Hseries & Htt).
  apply fit_slope_fold in Hfit as (_ & Hfit).
  apply combine_fold in Hcomb as (new & Hd & Hnew & Hids).
  simpl in Hd. subst new.
  rewrite Forall_forall in Hseries. rewrite Forall_forall in Hfit.
  rewrite Forall_forall in Hnew. rewrite Forall_forall in Hids.
  assert (Hrow : forall row,
             row ∈ sort_values FVSEOF.may_precede df_data <-> row ∈ df_data).
  { intros row.
    rewrite <- (sort_values_perm FVSEOF.may_precede df_data). reflexivity. }
  assert (Htype : forall rid fs f l,
             rid ∈ reaction_ids (model w) ->
             per_step !! rid = Some fs -> fs !! 0%nat = Some f ->
             last fs = Some l ->
             tt !! rid = fvseof_target_type f l).
  { intros rid fs f l Hin Hfs Hf Hl. rewrite Htt.
    destruct (decide (rid ∈ reaction_ids (model w))); [|contradiction].
    unfold series_target_type. rewrite Hfs, Hf, Hl.
    destruct (fvseof_target_type f l); [reflexivity | apply lookup_empty]. }
  split; [|split].
  - intros rid Hrid.
    destruct (Hseries rid Hrid) as (fs & f & l & Hfs & Hf & Hl).
    exists fs, f, l. split; [exact Hfs|]. split; [exact Hf|].
    split; [exact Hl|].
    rewrite <- fvseof_target_type_is_Some,
      <- (Htype rid fs f l Hrid Hfs Hf Hl).
    split.
    + intros (row & Hin & <-). apply Hrow in Hin.
      destruct (Hnew row Hin) as (_ & Ht & _). eauto.
    + intros Hs. destruct (Hids rid Hrid Hs) as (row & Hin & Hid).
      exists row. split; [apply Hrow; exact Hin | exact Hid].
  - intros row Hin. apply Hrow in Hin.
    destruct (Hnew row Hin) as (Hrid & Ht & Hs).
    destruct (Hseries _ Hrid) as (fs & f & l & Hfs & Hf & Hl).
    destruct (Hfit _ Hrid) as (fs' & s & Hfs' & Hpf & Hs').
    rewrite Hfs in Hfs'. injection Hfs' as <-.
    rewrite Hs in Hs'. injection Hs' as <-.
    rewrite (Htype _ fs f l Hrid Hfs Hf Hl) in Ht.
    apply fvseof_target_type_Some in Ht as (Hup & Hdown & Hrev).
    exists fs, f, l. auto 10.
  - intros Hnd.
    apply sweep_spec in Hsweep as (j & _ & _ & Hret).
    destruct (Hret per_step eq_refl) as (_ & Hfrom & _).
    apply (sweep_from_series _ _ _ _ _ _ _ _ Hnd) in Hfrom
      as (values & Hlen & Hvals & Hser).
    rewrite steps_lower_bounds_length in Hlen.
    exists values. split; [exact Hlen|]. split; [exact Hvals|].
    intros rid Hrid.
    rewrite (Hser rid [] Hrid (initial_series _ _ Hrid)). reflexivity.
Qed.

Lemma fvseof_rows_are_classified_witness :
  exists per_step w1,
    FVSEOF.sweep (example_solver "P_fvseof_sink")
      (example_fva "P_fvseof_sink") fvseof_self 4 true 1 fvseof_world
    = (Return per_step, w1)
    /\ exists fs, per_step !! "R2" = Some fs /\ length fs = 4%nat.
Proof.
  pose (outcome := FVSEOF.run (example_solver "P_fvseof_sink")
                     (example_fva "P_fvseof_sink") strict_fit fvseof_self 4
                     true true 1 fvseof_world).
  destruct (fvseof_rows_are_classified (example_solver "P_fvseof_sink")
              (example_fva "P_fvseof_sink") strict_fit fvseof_self 4
              true true 1 fvseof_world (table_of outcome) outcome.2)
    as (per_step & w1 & Hsweep & _ & _ & Hvalues).
  - vm_compute. reflexivity.
  - exists per_step, w1. split; [exact Hsweep|].
    destruct (Hvalues example_ids_are_unique) as (values & Hlen & _ & Hser).
    eexists. split.
    + apply Hser. apply existsb_eqb_elem_of. reflexivity.
    + rewrite length_map. exact Hlen.
Defined.

(** ** C5: scoped probes leave the shared model as they found it *)

(** C5.  Every probe of either analyzer (the two capacity probes, the
    essentiality check, each flux-aggregation block of FSEOF_FS.run and
    each per-level step of FVSEOF.run), and each whole run, leaves the
    model and the open contexts exactly as before, whatever the outcome
    (normal return or an exception of the solver); construction leaves
    the model as it was or with the sink reaction appended, and nothing
    else changed. *)
Theorem probes_restore_the_model :
  forall (lo : nat -> Model -> option (string -> Q))
         (fo : nat -> Model -> Q -> nat -> option (string -> fva_row))
         (pf : list Q -> list Q -> option Q),
    (forall sink,
        preserving (FSEOF_FS.calc_product_maximal_theoretical_yield lo sink)
        /\ preserving (FVSEOF.calc_product_maximal_theoretical_yield lo sink))
    /\ (forall biomass,
        preserving (FSEOF_FS.calc_maximal_biomass_growth lo biomass)
        /\ preserving (FVSEOF.calc_maximal_biomass_growth lo biomass))
    /\ (forall self rid,
        preserving (FSEOF_FS.check_essential_reaction lo self rid)
        /\ preserving (FVSEOF.check_essential_reaction lo self rid))
    /\ (forall self fraction n,
        preserving (FSEOF_FS.fluxes_at lo self fraction n))
    /\ (forall self fva processes per_step level,
        preserving (FVSEOF.step lo fo self fva processes per_step level))
    /\ (forall self fraction_low fraction_high ce n,
        preserving (FSEOF_FS.run lo self fraction_low fraction_high ce n))
    /\ (forall self n_steps ce fva processes,
        preserving (FVSEOF.run lo fo pf self n_steps ce fva processes))
    /\ (forall biomass target threshold w,
        let w1 := (FSEOF_FS.init lo biomass target threshold w).2 in
        let w2 := (FVSEOF.init lo biomass target threshold w).2 in
        (model w1 = model w
         \/ model w1
            = mkModel
                (reactions (model w)
                 ++ [mkReaction (target ++ "_sink")%string "" "" 0%Q 1000%Q
                       [(target, (-1)%Q)]])
                (metabolites (model w)) (objective (model w)))
        /\ (model w2 = model w
            \/ model w2
               = mkModel
                   (reactions (model w)
                    ++ [mkReaction (target ++ "_fvseof_sink")%string "" ""
                          0%Q 1000%Q [(target, (-1)%Q)]])
                   (metabolites (model w)) (objective (model w)))).
Proof.
  intros lo fo pf.
  repeat match goal with
         | |- _ /\ _ => split
         | |- forall _, _ => intro
         end;
    try first
      [ apply preserving_calc_yield
      | apply preserving_calc_growth
      | apply preserving_check_essential
      | apply preserving_fluxes_at
      | apply preserving_step
      | apply preserving_fseof_run
      | apply preserving_fvseof_run ].
  intros w1 w2. split.
  - destruct (init_model lo "_sink" biomass target threshold w)
      as [H | [_ H]]; [left | right]; exact H.
  - destruct (init_model lo "_fvseof_sink" biomass target threshold w)
      as [H | [_ H]]; [left | right]; exact H.
Qed.

(** ** C6: the assertions of the constructors *)

(** C6.  Constructing either analyzer with a biomass reaction id that is
    not a reaction id of the model, or a target metabolite id that is not
    a metabolite id of the model, raises an AssertionError and leaves the
    world untouched: no reaction added, no solver call logged.  With both
    ids present the constructor raises no AssertionError. *)
Theorem init_checks_ids :
  forall (lo : nat -> Model -> option (string -> Q))
         (biomass target : string) (threshold : Q) (w : World),
    (biomass ∉ reaction_ids (model w) \/ target ∉ metabolites (model w) ->
     (exists msg,
         FSEOF_FS.init lo biomass target threshold w
         = (Raise (AssertionError msg), w))
     /\ (exists msg,
         FVSEOF.init lo biomass target threshold w
         = (Raise (AssertionError msg), w)))
    /\ (biomass ∈ reaction_ids (model w) -> target ∈ metabolites (model w) ->
        not_assertion (FSEOF_FS.init lo biomass target threshold w).1
        /\ not_assertion (FVSEOF.init lo biomass target threshold w).1).
Proof.
  intros lo biomass target threshold w. split.
  - intros H. split; apply init_rejects; exact H.
  - intros Hb Ht. split; apply init_accepts; assumption.
Qed.

Lemma init_checks_ids_witness :
  (exists msg,
      FSEOF_FS.init (example_solver "P_sink") "GROWTH" "P" (1 # 2)%Q
        example_world
      = (Raise (AssertionError msg), example_world))
  /\ not_assertion
       (FSEOF_FS.init (example_solver "P_sink") "BIO" "P" (1 # 2)%Q
          example_world).1.
Proof.
  split.
  - apply (init_checks_ids (example_solver "P_sink") "GROWTH" "P" (1 # 2)%Q
             example_world).
    left. rewrite <- existsb_eqb_elem_of. vm_compute. discriminate.
  - apply (init_checks_ids (example_solver "P_sink") "BIO" "P" (1 # 2)%Q
             example_world);
      apply existsb_eqb_elem_of; reflexivity.
Defined.

(** ** C7: the sink reaction *)

(** C7, as the code has it.  For a target metabolite of the model, the
    FSEOF_FS injector returns the id  target + "_sink"  and the FVSEOF
    injector, run next on the same model, returns
    target + "_fvseof_sink" ; the two ids always differ.  An injector
    whose id is free appends a new reaction that consumes one unit of the
    target (coefficient -1) with bounds [0, 1000].  An injector whose id
    is already taken adds nothing: the world stays as it was, and the id
    it returns names the reaction that was there, with the stoichiometry
    and the bounds that reaction has. *)
Theorem sink_reactions_are_distinct :
  forall (target : string) (w : World),
    target ∈ metabolites (model w) ->
    let id1 := (target ++ "_sink")%string in
    let id2 := (target ++ "_fvseof_sink")%string in
    let sink1 := mkReaction id1 "" "" 0%Q 1000%Q [(target, (-1)%Q)] in
    let sink2 := mkReaction id2 "" "" 0%Q 1000%Q [(target, (-1)%Q)] in
    id1 <> id2
    /\ exists w1 w2,
         FSEOF_FS.add_product_sink_reaction target w = (Return id1, w1)
         /\ FVSEOF.add_product_sink_reaction target w1 = (Return id2, w2)
         /\ (id1 ∉ reaction_ids (model w) ->
             reactions (model w1) = reactions (model w) ++ [sink1]
             /\ find_reaction id1 (reactions (model w2)) = Some sink1)
         /\ (id1 ∈ reaction_ids (model w) -> w1 = w)
         /\ (id2 ∉ reaction_ids (model w) ->
             reactions (model w2) = reactions (model w1) ++ [sink2]
             /\ find_reaction id2 (reactions (model w2)) = Some sink2)
         /\ (id2 ∈ reaction_ids (model w) -> w2 = w1)
         /\ (id1 ∉ reaction_ids (model w) ->
             id2 ∉ reaction_ids (model w) ->
             reactions (model w2) = reactions (model w) ++ [sink1; sink2])
         /\ (forall r,
                find_reaction id1 (reactions (model w)) = Some r ->
                find_reaction id1 (reactions (model w2)) = Some r)
         /\ (forall r,
                find_reaction id2 (reactions (model w)) = Some r ->
                find_reaction id2 (reactions (model w2)) = Some r).
Proof.
  intros target w Ht id1 id2 sink1 sink2.
  assert (Hne : id1 <> id2).
  { intros H. apply append_inj_l in H. discriminate. }
  split; [exact Hne|].
  unfold FSEOF_FS.add_product_sink_reaction, FVSEOF.add_product_sink_reaction.
  destruct (add_product_sink_reaction_cases "_sink" target w Ht)
    as (w1 & E1 & Hfree1 & Htaken1).
  fold id1 in E1, Hfree1, Htaken1.
  assert (Hm1 : metabolites (model w1) = metabolites (model w)).
  { destruct (decide (id1 ∈ reaction_ids (model w))) as [Hin|Hnin].
    - rewrite (Htaken1 Hin). reflexivity.
    - rewrite (Hfree1 Hnin). reflexivity. }
  assert (Ht1 : target ∈ metabolites (model w1)) by (rewrite Hm1; exact Ht).
  destruct (add_product_sink_reaction_cases "_fvseof_sink" target w1 Ht1)
    as (w2 & E2 & Hfree2 & Htaken2).
  fold id2 in E2, Hfree2, Htaken2.
  exists w1, w2. split; [exact E1|]. split; [exact E2|].
  assert (Hrs1 : exists tail1,
             reactions (model w1) = reactions (model w) ++ tail1
             /\ (id1 ∉ reaction_ids (model w) -> tail1 = [sink1])
             /\ (id1 ∈ reaction_ids (model w) -> tail1 = [])
             /\ find_reaction id2 tail1 = None).
  { destruct (decide (id1 ∈ reaction_ids (model w))) as [Hin|Hnin].
    - exists []. rewrite (Htaken1 Hin), app_nil_r.
      repeat split; auto. intros H. contradiction.
    - exists [sink1]. rewrite (Hfree1 Hnin).
      repeat split; auto; [intros H; contradiction|].
      simpl. destruct (String.eqb id1 id2) eqn:E; [|reflexivity].
      apply String.eqb_eq in E. contradiction. }
  destruct Hrs1 as (tail1 & Hrs1 & Htail1 & Htail1' & Hf2).
  assert (Hin2 : id2 ∈ reaction_ids (model w1)
                 <-> id2 ∈ reaction_ids (model w)).
  { rewrite <- !has_id_elem_of, !find_reaction_has_id.
    rewrite Hrs1, find_reaction_app, Hf2.
    destruct (find_reaction id2 (reactions (model w))); reflexivity. }
  assert (Hrs2 : exists tail2,
             reactions (model w2) = reactions (model w1) ++ tail2
             /\ (id2 ∉ reaction_ids (model w) -> tail2 = [sink2])
             /\ (id2 ∈ reaction_ids (model w) -> tail2 = [])).
  { destruct (decide (id2 ∈ reaction_ids (model w))) as [Hin|Hnin].
    - exists []. rewrite (Htaken2 (proj2 Hin2 Hin)), app_nil_r.
      repeat split; auto. intros H. contradiction.
    - exists [sink2].
      rewrite (Hfree2 (fun H => Hnin (proj1 Hin2 H))).
      repeat split; auto. intros H. contradiction. }
  destruct Hrs2 as (tail2 & Hrs2 & Htail2 & Htail2').
  assert (Hfind_free : forall rid (rs : list Reaction),
             find_reaction rid rs = None <-> rid ∉ map r_id rs).
  { intros rid rs. induction rs as [|r rs IH]; simpl.
    - split; [intros _ H; apply elem_of_nil in H; exact H | reflexivity].
    - rewrite elem_of_cons. destruct (String.eqb (r_id r) rid) eqn:E.
      + apply String.eqb_eq in E. split; [discriminate|].
        intros H. exfalso. apply H. left. congruence.
      + apply String.eqb_neq in E. rewrite IH. split.
        * intros H [H'|H']; [congruence | contradiction].
        * intros H H'. apply H. right. exact H'. }
  split.
  { intros Hnin. rewrite Hrs1, (Htail1 Hnin). split; [reflexivity|].
    rewrite Hrs2, Hrs1, (Htail1 Hnin), !find_reaction_app.
    rewrite (proj2 (Hfind_free id1 (reactions (model w))) Hnin).
    simpl. rewrite String.eqb_refl. reflexivity. }
  split; [exact Htaken1|].
  split.
  { intros Hnin. rewrite Hrs2, (Htail2 Hnin). split; [reflexivity|].
    rewrite Hrs1, !find_reaction_app.
    rewrite (proj2 (Hfind_free id2 (reactions (model w))) Hnin), Hf2.
    simpl. rewrite String.eqb_refl. reflexivity. }
  split.
  { intros Hin. apply Htaken2, Hin2, Hin. }
  split.
  { intros H1 H2. rewrite Hrs2, Hrs1, (Htail1 H1), (Htail2 H2).
    rewrite <- app_assoc. reflexivity. }
  split; intros r Hr; rewrite Hrs2, Hrs1, !find_reaction_app, Hr;
    reflexivity.
Qed.

(** On the example model in which "P_sink" is already the id of a
    reaction with bounds [-3, 7] that produces A, the FSEOF_FS injector
    adds nothing and returns that id: the reaction it names does not
    consume P and does not have the bounds [0, 1000], and the constructor
    goes on to use it as the sink. *)
Lemma taken_sink_id_is_adopted :
  "P" ∈ metabolites (model taken_world)
  /\ FSEOF_FS.add_product_sink_reaction "P" taken_world
     = (Return "P_sink", taken_world)
  /\ find_reaction "P_sink" (reactions (model taken_world))
     = Some taken_reaction
  /\ r_metabolites taken_reaction = [("A", 1%Q)]
  /\ lower_bound_of "P_sink" (model taken_world) = (-3)%Q
  /\ upper_bound_of "P_sink" (model taken_world) = 7%Q
  /\ exists self w,
       FSEOF_FS.init (example_solver "P_sink") "BIO" "P" (1 # 2) taken_world
       = (Return self, w)
       /\ product_sink_reaction_id self = "P_sink"
       /\ model w = model taken_world.
Proof.
  split; [apply existsb_eqb_elem_of; reflexivity|].
  split; [vm_compute; reflexivity|].
  split; [reflexivity|]. split; [reflexivity|].
  split; [reflexivity|]. split; [reflexivity|].
  eexists _, _. split; [vm_compute; reflexivity|].
  split; reflexivity.
Qed.

Lemma sink_reactions_are_distinct_witness :
  exists w1 w2,
    FSEOF_FS.add_product_sink_reaction "P" example_world
    = (Return "P_sink", w1)
    /\ FVSEOF.add_product_sink_reaction "P" w1 = (Return "P_fvseof_sink", w2)
    /\ "P_sink" <> "P_fvseof_sink"
    /\ reactions (model w2)
       = reactions (model example_world)
         ++ [mkReaction "P_sink" "" "" 0%Q 1000%Q [("P", (-1)%Q)];
             mkReaction "P_fvseof_sink" "" "" 0%Q 1000%Q [("P", (-1)%Q)]].
Proof.
  destruct (sink_reactions_are_distinct "P" example_world)
    as (Hne & w1 & w2 & E1 & E2 & _ & _ & _ & _ & Hboth & _).
  - apply existsb_eqb_elem_of. reflexivity.
  - exists w1, w2. split; [exact E1|]. split; [exact E2|].
    split; [exact Hne|]. apply Hboth.
    + rewrite <- existsb_eqb_elem_of. vm_compute. discriminate.
    + rewrite <- existsb_eqb_elem_of. vm_compute. discriminate.
Defined.

(** ** C8: FVSEOF.run with a single step *)

(** C8.  FVSEOF.run does not look at n_steps itself, but with n_steps = 1
    the only level is 0, and the degree-1 fit is handed that single
    abscissa.  There np.polyfit raises LinAlgError; for a fit that does
    so, a run with n_steps = 1 never returns a table, so no slope of a
    single point is ever reported.  With unique reaction ids, a run whose
    sweep returns has asked the solver once, for the level 0, and raises
    LinAlgError at the first fit, before any slope is stored. *)
Theorem single_step_run_is_rejected :
  forall (lo : nat -> Model -> option (string -> Q))
         (fo : nat -> Model -> Q -> nat -> option (string -> fva_row))
         (pf : list Q -> list Q -> option Q) (self : Analyzer)
         (check_essentiality fva : bool) (processes : nat) (w : World),
    (forall x ys, (x == 0)%Q -> pf [x] ys = None) ->
    (forall tbl w',
        FVSEOF.run lo fo pf self 1 check_essentiality fva processes w
        <> (Return tbl, w'))
    /\ (forall per_step w1,
          NoDup (reaction_ids (model w)) ->
          FVSEOF.sweep lo fo self 1 fva processes w = (Return per_step, w1) ->
          exists level,
            FVSEOF.steps_lower_bounds self 1 = [level]
            /\ (level == 0)%Q
            /\ solver_log w1
               = solver_log w
                 ++ [sweep_call fva processes
                       (forced (biomass_reaction_id self)
                          (product_sink_reaction_id self) level (model w))]
            /\ FVSEOF.run lo fo pf self 1 check_essentiality fva processes w
               = (Raise LinAlgError, w1)).
Proof.
  intros lo fo pf self ce fva processes w Hpf.
  assert (Hlevel : exists level,
             FVSEOF.steps_lower_bounds self 1 = [level] /\ (level == 0)%Q).
  { eexists. split; [reflexivity|]. unfold Q_of_nat. simpl. unfold Qdiv.
    rewrite !Qmult_0_l. reflexivity. }
  destruct Hlevel as (level & Hlevels & H0).
  split.
  - intros tbl w' H.
    apply fvseof_run_inv in H
      as (per_step & w1 & tt & slopes & ess & df_data
          & _ & _ & Hfit & _ & Hcomb & Hne & _).
    rewrite Hlevels in Hfit.
    apply fit_slope_fold in Hfit as (_ & Hfit).
    apply combine_fold in Hcomb as (new & Hd & Hnew & _).
    simpl in Hd. subst new.
    destruct df_data as [|row rest]; [contradiction|].
    apply Forall_cons in Hnew as [(Hrid & _) _].
    rewrite Forall_forall in Hfit.
    destruct (Hfit _ Hrid) as (fs & s & _ & Hs & _).
    rewrite (Hpf level fs H0) in Hs. discriminate.
  - intros per_step w1 Hnd Hsweep.
    destruct (single_level_series _ _ _ _ _ _ _ _ Hnd Hsweep)
      as (level' & value & Hlevels' & _ & Hlog & Hseries).
    rewrite Hlevels in Hlevels'. injection Hlevels' as <-.
    exists level. split; [exact Hlevels|]. split; [exact H0|].
    split; [exact Hlog|].
    assert (Hm : model w1 = model w)
      by apply (preserving_model _ _ _ _ (preserving_sweep _ _ _ _ _ _)
                  Hsweep).
    destruct (sweep_spec _ _ _ _ _ _ _ _ _ Hsweep) as (j & _ & _ & Hret).
    destruct (Hret per_step eq_refl) as (_ & _ & Hin).
    destruct Hin as [Hb _]; [discriminate|].
    apply has_id_elem_of in Hb.
    unfold FVSEOF.run. rewrite (bind_Return _ _ _ _ _ Hsweep).
    unfold bind at 1. simpl. rewrite Hm.
    destruct (assign_target_type_returns per_step (reaction_ids (model w)))
      with (acc := (∅ : gmap string string)) (w := w1) as [tt Htt].
    { intros rid' Hin. exists [value rid']. split; [auto | discriminate]. }
    rewrite (bind_Return _ _ _ _ _ Htt).
    apply bind_Raise. rewrite Hlevels. apply fit_slope_raises.
    + intros rid' Hin. rewrite (Hseries _ Hin). eauto.
    + exists (biomass_reaction_id self), [value (biomass_reaction_id self)].
      split; [exact Hb|]. split; [apply Hseries; exact Hb|].
      apply Hpf. exact H0.
Qed.

Lemma single_step_run_is_rejected_witness :
  exists w1,
    FVSEOF.run (example_solver "P_fvseof_sink") (example_fva "P_fvseof_sink")
      strict_fit fvseof_self 1 false true 1 fvseof_world
    = (Raise LinAlgError, w1)
    /\ length (solver_log w1) = S (length (solver_log fvseof_world)).
Proof.
  pose (outcome := FVSEOF.sweep (example_solver "P_fvseof_sink")
                     (example_fva "P_fvseof_sink") fvseof_self 1 true 1
                     fvseof_world).
  destruct (single_step_run_is_rejected (example_solver "P_fvseof_sink")
              (example_fva "P_fvseof_sink") strict_fit fvseof_self false
              true 1 fvseof_world)
    as [_ Hrun].
  - intros x ys _. apply strict_fit_single.
  - destruct (Hrun (value_of ∅ outcome) outcome.2 example_ids_are_unique)
      as (level & _ & _ & Hlog & H).
    + vm_compute. reflexivity.
    + exists outcome.2. split; [exact H|].
      rewrite Hlog, length_snoc. reflexivity.
Defined.

(** ** C9: the levels of FVSEOF.run *)

(** C9, as the code has it.  FVSEOF.run(n_steps = k) sweeps the levels
    i/k * product_max_theoretical_yield for i = 0, ..., k-1, in that
    order: a run that returns has asked the solver once per level, first
    of all and in this order, each time on the model with the biomass
    reaction as objective and the sink's lower bound at the level; any
    later call is an essentiality probe; a sweep that raises has asked for
    an initial part of the levels.  For k >= 1 the first level is 0.  No
    level is the full yield when the yield is not 0 (when it is 0, every
    level equals it). *)
Theorem run_sweeps_the_levels :
  forall (lo : nat -> Model -> option (string -> Q))
         (fo : nat -> Model -> Q -> nat -> option (string -> fva_row))
         (pf : list Q -> list Q -> option Q)
         (self : Analyzer) (k : nat) (check_essentiality fva : bool)
         (processes : nat) (w : World),
    let yield := product_max_theoretical_yield self in
    let biomass := biomass_reaction_id self in
    let sink := product_sink_reaction_id self in
    let levels := FVSEOF.steps_lower_bounds self k in
    levels = map (fun i => (Q_of_nat i / Q_of_nat k * yield)%Q) (seq 0 k)
    /\ (forall tbl w',
          FVSEOF.run lo fo pf self k check_essentiality fva processes w
          = (Return tbl, w') ->
          exists rest,
            solver_log w'
            = solver_log w
              ++ map (fun level =>
                        sweep_call fva processes
                          (forced biomass sink level (model w))) levels
              ++ rest
            /\ Forall (is_knockout_call biomass (model w)) rest)
    /\ (forall res w1,
          FVSEOF.sweep lo fo self k fva processes w = (res, w1) ->
          exists j,
            (j <= k)%nat
            /\ solver_log w1
               = solver_log w
                 ++ map (fun level =>
                           sweep_call fva processes
                             (forced biomass sink level (model w)))
                      (take j levels))
    /\ (forall level,
          sink ∈ reaction_ids (model w) ->
          objective (forced biomass sink level (model w)) = biomass
          /\ lower_bound_of sink (forced biomass sink level (model w)) = level)
    /\ ((1 <= k)%nat ->
        exists first, levels !! 0%nat = Some first /\ (first == 0)%Q)
    /\ (~ (yield == 0)%Q ->
        forall level, level ∈ levels -> ~ (level == yield)%Q)
    /\ ((yield == 0)%Q ->
        forall level, level ∈ levels -> (level == yield)%Q).
Proof.
  intros lo fo pf self k ce fva processes w yield biomass sink levels.
  split; [reflexivity|]. split; [|split; [|split; [|split; [|split]]]].
  - intros tbl w' H. apply (fvseof_run_log _ _ _ _ _ _ _ _ _ _ _ H).
  - intros res w1 H. apply sweep_spec in H as (j & Hj & Hlog & _).
    exists j. auto.
  - intros level Hs. apply find_of_elem in Hs as [r Hr].
    destruct (forced_bounds biomass sink level (model w) r Hr)
      as (Ho & Hf & _).
    split; [exact Ho|]. unfold lower_bound_of. rewrite Hf. reflexivity.
  - intros Hk. subst levels.
    rewrite steps_lower_bounds_lookup by lia.
    eexists. split; [reflexivity|].
    unfold Q_of_nat at 1. simpl. unfold Qdiv. rewrite !Qmult_0_l. reflexivity.
  - intros Hy level Hin. subst levels.
    apply list_elem_of_lookup in Hin as [i Hi].
    assert (Hik : (i < k)%nat).
    { apply lookup_lt_Some in Hi.
      rewrite steps_lower_bounds_length in Hi. exact Hi. }
    rewrite steps_lower_bounds_lookup in Hi by exact Hik.
    injection Hi as <-. apply level_not_full_yield; assumption.
  - intros Hy level Hin. subst levels.
    apply list_elem_of_lookup in Hin as [i Hi].
    assert (Hik : (i < k)%nat).
    { apply lookup_lt_Some in Hi.
      rewrite steps_lower_bounds_length in Hi. exact Hi. }
    rewrite steps_lower_bounds_lookup in Hi by exact Hik.
    injection Hi as <-. fold yield. rewrite Hy. apply Qmult_0_r.
Qed.

(** C9 as stated fails when the maximal theoretical yield is 0: the one
    level of run(n_steps = 1) is then 0, which is the full yield, and the
    sweep asks the solver for it. *)
Lemma full_yield_is_probed_when_zero :
  exists level,
    FVSEOF.steps_lower_bounds idle_fvseof_self 1 = [level]
    /\ (level == product_max_theoretical_yield idle_fvseof_self)%Q
    /\ solver_log
         (FVSEOF.sweep idle_solver idle_fva idle_fvseof_self 1 true 1
            idle_fvseof_world).2
       = solver_log idle_fvseof_world
         ++ [FvaCall
               (forced "BIO" "P_fvseof_sink" level (model idle_fvseof_world))
               (95 # 100) 1].
Proof.
  eexists. split; [reflexivity|]. split; [reflexivity|].
  vm_compute. reflexivity.
Qed.

Lemma run_sweeps_the_levels_witness :
  exists rest,
    solver_log
      (FVSEOF.run (example_solver "P_fvseof_sink")
         (example_fva "P_fvseof_sink") strict_fit fvseof_self 4 true true 1
         fvseof_world).2
    = solver_log fvseof_world
      ++ map (fun level =>
                sweep_call true 1
                  (forced "BIO" "P_fvseof_sink" level (model fvseof_world)))
           (FVSEOF.steps_lower_bounds fvseof_self 4)
      ++ rest
    /\ (forall level,
          level ∈ FVSEOF.steps_lower_bounds fvseof_self 4 ->
          ~ (level == 10)%Q).
Proof.
  pose (outcome := FVSEOF.run (example_solver "P_fvseof_sink")
                     (example_fva "P_fvseof_sink") strict_fit fvseof_self 4
                     true true 1 fvseof_world).
  destruct (run_sweeps_the_levels (example_solver "P_fvseof_sink")
              (example_fva "P_fvseof_sink") strict_fit fvseof_self 4
              true true 1 fvseof_world)
    as (_ & Hrun & _ & _ & _ & Hne & _).
  destruct (Hrun (table_of outcome) outcome.2) as (rest & Hlog & _).
  - vm_compute. reflexivity.
  - exists rest. split; [exact Hlog|].
    apply Hne. intros H. vm_compute in H. discriminate.
Defined.

(** ** C10: FSEOF_FS.run without a surviving reaction *)

(** C10.  A run of FSEOF_FS in which both sampling blocks return and no
    reaction of the model passes the same-sign test does not return an
    empty table: it raises the KeyError of the missing column
    "target_type" from the sort of the column-less frame. *)
Theorem fseof_run_without_rows_raises :
  forall (lo : nat -> Model -> option (string -> Q)) (self : Analyzer)
         (fraction_low fraction_high : Q) (check_essentiality : bool)
         (n : nat) (w : World) fluxes_low w1 fluxes_high w2,
    FSEOF_FS.fluxes_at lo self fraction_low n w = (Return fluxes_low, w1) ->
    FSEOF_FS.fluxes_at lo self fraction_high n w1 = (Return fluxes_high, w2) ->
    Forall (fun rid =>
      exists low high,
        fluxes_low !! rid = Some low
        /\ fluxes_high !! rid = Some high
        /\ ~ (0 < low * high)%Q) (reaction_ids (model w)) ->
    FSEOF_FS.run lo self fraction_low fraction_high check_essentiality n w
    = (Raise (KeyError "target_type"), w2).
Proof.
  intros lo self fraction_low fraction_high ce n w fl w1 fh w2 H1 H2 Hall.
  assert (Hm : model w2 = model w).
  { rewrite (preserving_model _ _ _ _ (preserving_fluxes_at _ _ _ _) H2).
    apply (preserving_model _ _ _ _ (preserving_fluxes_at _ _ _ _) H1). }
  unfold FSEOF_FS.run.
  rewrite (bind_Return _ _ _ _ _ H1), (bind_Return _ _ _ _ _ H2).
  unfold bind at 1. simpl. rewrite Hm.
  rewrite (bind_Return _ _ _ _ _
             (fseof_classify_fold_skip lo self ce fl fh _ w2 Hall)).
  reflexivity.
Qed.

Lemma fseof_run_without_rows_raises_witness :
  exists w2,
    FSEOF_FS.run idle_solver idle_self (1 # 10) (2 # 10) true 2 idle_world
    = (Raise (KeyError "target_type"), w2).
Proof.
  pose (low := FSEOF_FS.fluxes_at idle_solver idle_self (1 # 10) 2 idle_world).
  pose (high := FSEOF_FS.fluxes_at idle_solver idle_self (2 # 10) 2 low.2).
  exists high.2.
  apply (fseof_run_without_rows_raises idle_solver idle_self (1 # 10) (2 # 10)
           true 2 idle_world (value_of ∅ low) low.2 (value_of ∅ high) high.2).
  - vm_compute. reflexivity.
  - vm_compute. reflexivity.
  - repeat (apply Forall_cons; split;
              [eexists; eexists; split; [reflexivity|];
               split; [reflexivity|]; intros H; vm_compute in H; discriminate
              |]).
    apply Forall_nil. exact I.
Defined.

(** * Further properties of the code *)

(** ** Construction *)

(** X1.  Past its assertions and with a free sink id, the constructor of
    either class (suffix "_sink" or "_fvseof_sink") registers the sink and
    asks the solver exactly twice: first with the sink as objective, then
    with the biomass reaction as objective, both times on the model whose
    sink still has its bounds [0, 1000].  The two fluxes it reads off are
    stored as the maximal theoretical yield and the maximal growth. *)
Theorem constructor_runs_two_probes :
  forall (lo : nat -> Model -> option (string -> Q))
         (suffix biomass target : string) (threshold : Q) (w : World)
         (sol1 sol2 : string -> Q),
    let sink := (target ++ suffix)%string in
    let m1 := with_sink suffix target (model w) in
    biomass ∈ reaction_ids (model w) ->
    target ∈ metabolites (model w) ->
    sink ∉ reaction_ids (model w) ->
    lo (length (solver_log w)) (with_objective sink m1) = Some sol1 ->
    lo (S (length (solver_log w))) (with_objective biomass m1) = Some sol2 ->
    exists w',
      init lo suffix biomass target threshold w
      = (Return (mkAnalyzer biomass target sink (sol1 sink) (sol2 biomass)
                   threshold), w')
      /\ model w' = m1
      /\ solver_log w'
         = solver_log w
           ++ [LooplessCall (with_objective sink m1);
               LooplessCall (with_objective biomass m1)]
      /\ lower_bound_of sink m1 = 0%Q
      /\ upper_bound_of sink m1 = 1000%Q.
Proof.
  intros lo suffix biomass target threshold w sol1 sol2 sink m1
    Hb Ht Hs H1 H2.
  pose proof (init_result lo suffix biomass target threshold w Hb Ht Hs)
    as Hinit.
  simpl in Hinit. fold sink m1 in Hinit. rewrite H1, H2 in Hinit.
  eexists. split; [exact Hinit|]. split; [reflexivity|].
  split; [reflexivity|].
  assert (Hf : find_reaction sink (reactions m1)
               = Some (sink_reaction suffix target)).
  { unfold m1, with_sink. simpl.
    rewrite <- has_id_elem_of in Hs. apply not_true_is_false in Hs.
    clear - Hs. unfold has_id, reaction_ids in Hs.
    induction (reactions (model w)) as [|r rs IH]; simpl in *.
    - unfold sink. rewrite String.eqb_refl. reflexivity.
    - rewrite String.eqb_sym.
      destruct (String.eqb sink (r_id r)); simpl in Hs;
        [discriminate | auto]. }
  unfold lower_bound_of, upper_bound_of. rewrite Hf. auto.
Qed.

Lemma constructor_runs_two_probes_witness :
  exists w',
    init (example_solver "P_sink") "_sink" "BIO" "P" (1 # 2) example_world
    = (Return fseof_self, w')
    /\ length (solver_log w') = 2%nat.
Proof.
  pose (m1 := with_sink "_sink" "P" (model example_world)).
  pose (sol1 := match example_solver "P_sink" 0
                        (with_objective "P_sink" m1) with
                | Some sol => sol
                | None => fun _ => 0%Q
                end).
  pose (sol2 := match example_solver "P_sink" 1 (with_objective "BIO" m1) with
                | Some sol => sol
                | None => fun _ => 0%Q
                end).
  destruct (constructor_runs_two_probes (example_solver "P_sink") "_sink"
              "BIO" "P" (1 # 2) example_world sol1 sol2)
    as (w' & Hinit & _ & Hlog & _).
  - apply existsb_eqb_elem_of. reflexivity.
  - apply existsb_eqb_elem_of. reflexivity.
  - rewrite <- existsb_eqb_elem_of. vm_compute. discriminate.
  - reflexivity.
  - reflexivity.
  - exists w'. split; [exact Hinit|]. rewrite Hlog. reflexivity.
Defined.

(** X2.  When one of the two probes of the constructor fails, the
    constructor raises the solver's error, and the sink reaction it had
    registered stays in the model. *)
Theorem failed_construction_keeps_the_sink :
  forall (lo : nat -> Model -> option (string -> Q))
         (suffix biomass target : string) (threshold : Q) (w : World),
    let sink := (target ++ suffix)%string in
    let m1 := with_sink suffix target (model w) in
    biomass ∈ reaction_ids (model w) ->
    target ∈ metabolites (model w) ->
    sink ∉ reaction_ids (model w) ->
    lo (length (solver_log w)) (with_objective sink m1) = None
    \/ lo (S (length (solver_log w))) (with_objective biomass m1) = None ->
    exists w',
      init lo suffix biomass target threshold w
      = (Raise OptimizationError, w')
      /\ model w' = m1
      /\ find_reaction sink (reactions (model w'))
         = Some (mkReaction sink "" "" 0%Q 1000%Q [(target, (-1)%Q)]).
Proof.
  intros lo suffix biomass target threshold w sink m1 Hb Ht Hs Hfail.
  pose proof (init_result lo suffix biomass target threshold w Hb Ht Hs)
    as Hinit.
  simpl in Hinit. fold sink m1 in Hinit.
  assert (Hf : find_reaction sink (reactions m1)
               = Some (mkReaction sink "" "" 0%Q 1000%Q [(target, (-1)%Q)])).
  { unfold m1, with_sink. simpl.
    rewrite <- has_id_elem_of in Hs. apply not_true_is_false in Hs.
    clear - Hs. unfold has_id, reaction_ids in Hs.
    induction (reactions (model w)) as [|r rs IH]; simpl in *.
    - unfold sink. rewrite String.eqb_refl. reflexivity.
    - rewrite String.eqb_sym.
      destruct (String.eqb sink (r_id r)); simpl in Hs;
        [discriminate | auto]. }
  destruct (lo (length (solver_log w)) (with_objective sink m1)) as [sol1|].
  - destruct Hfail as [Hfail|Hfail]; [discriminate|].
    rewrite Hfail in Hinit. eexists. split; [exact Hinit|]. auto.
  - eexists. split; [exact Hinit|]. auto.
Qed.

Lemma failed_construction_keeps_the_sink_witness :
  exists w',
    init failing_solver "_sink" "BIO" "P" (1 # 2) example_world
    = (Raise OptimizationError, w')
    /\ find_reaction "P_sink" (reactions (model w'))
       = Some (mkReaction "P_sink" "" "" 0%Q 1000%Q [("P", (-1)%Q)]).
Proof.
  destruct (failed_construction_keeps_the_sink failing_solver "_sink" "BIO"
              "P" (1 # 2) example_world)
    as (w' & Hinit & _ & Hf).
  - apply existsb_eqb_elem_of. reflexivity.
  - apply existsb_eqb_elem_of. reflexivity.
  - rewrite <- existsb_eqb_elem_of. vm_compute. discriminate.
  - left. reflexivity.
  - exists w'. auto.
Defined.

(** ** The essentiality check *)

(** X3.  The bare [except] of the essentiality check covers the solve
    only: for a reaction id that is not in the model the lookup raises a
    KeyError out of the method, before any solver call, and the objective
    set just before is put back. *)
Theorem unknown_reaction_raises_key_error :
  forall (lo : nat -> Model -> option (string -> Q)) (self : Analyzer)
         (reaction_id : string) (w : World),
    biomass_reaction_id self ∈ reaction_ids (model w) ->
    reaction_id ∉ reaction_ids (model w) ->
    check_essential_reaction lo self reaction_id w
    = (Raise (KeyError reaction_id), w).
Proof.
  intros lo self rid w Hb Hr.
  apply has_id_elem_of in Hb. apply find_reaction_None in Hr.
  destruct (preserving_check_essential lo self rid w) as [Hm Hc].
  destruct (check_essential_reaction lo self rid w) as [res w'] eqn:E.
  simpl in Hm, Hc.
  assert (H : res = Raise (KeyError rid) /\ solver_log w' = solver_log w).
  { change res with (res, w').1. change w' with (res, w').2 at 2.
    rewrite <- E. unfold check_essential_reaction.
    match goal with
    | |- (with_model ?body w).1 = _ /\ _ =>
        destruct (with_model_outcome body w) as [-> ->]
    end.
    rewrite (bind_Return _ _ _ _ _ (set_objective_eval _ (enter w) Hb)).
    unfold bind, get_by_id. simpl. rewrite Hr. auto. }
  destruct H as [-> Hlog]. f_equal. apply world_eq; assumption.
Qed.

Lemma unknown_reaction_raises_key_error_witness :
  check_essential_reaction (example_solver "P_sink") fseof_self "R9"
    fseof_world
  = (Raise (KeyError "R9"), fseof_world).
Proof.
  apply unknown_reaction_raises_key_error.
  - apply existsb_eqb_elem_of. reflexivity.
  - rewrite <- existsb_eqb_elem_of. vm_compute. discriminate.
Defined.

(** X4.  Essentiality grows with the threshold: on the same model and
    solver answer, a reaction that is essential for one threshold is
    essential for every larger one. *)
Theorem essential_for_larger_thresholds :
  forall (lo : nat -> Model -> option (string -> Q)) (self self' : Analyzer)
         (reaction_id : string) (w : World),
    biomass_reaction_id self ∈ reaction_ids (model w) ->
    reaction_id ∈ reaction_ids (model w) ->
    biomass_reaction_id self' = biomass_reaction_id self ->
    maximal_biomass_growth self' = maximal_biomass_growth self ->
    (check_essential_reaction_threshold self
     <= check_essential_reaction_threshold self')%Q ->
    (check_essential_reaction lo self reaction_id w).1 = Return true ->
    (check_essential_reaction lo self' reaction_id w).1 = Return true.
Proof.
  intros lo self self' rid w Hb Hr Eb Eg Hle H.
  apply has_id_elem_of in Hb. apply find_of_elem in Hr as [r Hr].
  destruct (Qlt_le_dec (r_upper_bound r) 0) as [Hlt|Hub].
  { rewrite (check_essential_reaction_refused lo self rid w r Hb Hr Hlt)
      in H.
    discriminate. }
  destruct (check_essential_reaction_result lo self rid w r Hb Hr Hub)
    as [Hres _].
  assert (Hb' : has_id (biomass_reaction_id self') (model w) = true)
    by (rewrite Eb; exact Hb).
  destruct (check_essential_reaction_result lo self' rid w r Hb' Hr Hub)
    as [Hres' _].
  rewrite Hres in H. rewrite Hres'. rewrite Eb, Eg.
  destruct (lo (length (solver_log w))
              (knockout (biomass_reaction_id self) rid (model w)))
    as [sol|]; [|reflexivity].
  injection H as H. f_equal. eapply float_lt_mono; eauto.
Qed.

Lemma essential_for_larger_thresholds_witness :
  (check_essential_reaction (example_solver "P_sink")
     (mkAnalyzer "BIO" "P" "P_sink" 10 1 (3 # 4)) "R2" fseof_world).1
  = Return true.
Proof.
  apply (essential_for_larger_thresholds (example_solver "P_sink") fseof_self).
  - apply existsb_eqb_elem_of. reflexivity.
  - apply existsb_eqb_elem_of. reflexivity.
  - reflexivity.
  - reflexivity.
  - vm_compute. discriminate.
  - vm_compute. reflexivity.
Defined.

(** ** The sampling of FSEOF_FS *)

(** X5.  A sampling block of FSEOF_FS.run that returns has asked the solver
    exactly [n] times, every time for the model with the biomass reaction
    as objective and the sink's lower bound at yield * fraction, and has
    left the model as it was.  With unique reaction ids and [n] at least 1,
    the mean flux of every reaction of the model is the sum of its [n]
    sampled fluxes divided by [n]. *)
Theorem sampling_averages_n_solutions :
  forall (lo : nat -> Model -> option (string -> Q)) (self : Analyzer)
         (fraction : Q) (n : nat) (w : World) (fluxes : gmap string Q)
         (w' : World),
    let probe := forced (biomass_reaction_id self)
                   (product_sink_reaction_id self)
                   (product_max_theoretical_yield self * fraction)
                   (model w) in
    FSEOF_FS.fluxes_at lo self fraction n w = (Return fluxes, w') ->
    model w' = model w
    /\ solver_log w' = solver_log w ++ replicate n (LooplessCall probe)
    /\ exists sols,
         length sols = n
         /\ (forall k sol,
                sols !! k = Some sol ->
                lo (length (solver_log w) + k)%nat probe = Some sol)
         /\ (NoDup (reaction_ids (model w)) -> n <> 0%nat ->
             forall rid,
               rid ∈ reaction_ids (model w) ->
               fluxes !! rid
               = Some (py_sum (map (fun sol => sol rid) sols) / Q_of_nat n)%Q).
Proof.
  intros lo self fraction n w fluxes w' probe H.
  apply fluxes_at_Return in H
    as (_ & _ & sols & Hlen & Hsols & -> & ->).
  fold probe. split; [reflexivity|]. split; [reflexivity|].
  exists sols. split; [exact Hlen|]. split; [exact Hsols|].
  intros Hnd Hn rid Hin.
  rewrite lookup_fmap, (recorded_lookup _ _ Hnd _ _ Hin).
  - rewrite lookup_empty. simpl. unfold mean.
    rewrite length_map, Hlen. reflexivity.
  - intros ->. simpl in Hlen. congruence.
Qed.

Lemma sampling_averages_n_solutions_witness :
  exists fluxes w',
    FSEOF_FS.fluxes_at (example_solver "P_sink") fseof_self (1 # 10) 2
      fseof_world = (Return fluxes, w')
    /\ length (solver_log w') = 4%nat.
Proof.
  pose (outcome := FSEOF_FS.fluxes_at (example_solver "P_sink") fseof_self
                     (1 # 10) 2 fseof_world).
  destruct (sampling_averages_n_solutions (example_solver "P_sink")
              fseof_self (1 # 10) 2 fseof_world
              (match outcome.1 with Return f => f | Raise _ => ∅ end)
              outcome.2)
    as (_ & Hlog & _).
  - vm_compute. reflexivity.
  - exists (match outcome.1 with Return f => f | Raise _ => ∅ end), outcome.2.
    split; [vm_compute; reflexivity|]. rewrite Hlog. reflexivity.
Defined.

(** X6.  FSEOF_FS.run with [n = 0], on a model that holds the analyzer's
    two reactions and whose sink admits the two levels (they do not exceed
    its upper bound): both sampling blocks return an empty dict without a
    solver call, and the run raises KeyError for the first reaction id of
    the model, leaving model, contexts and solver log as they were. *)
Theorem run_without_samples_raises_key_error :
  forall (lo : nat -> Model -> option (string -> Q)) (self : Analyzer)
         (fraction_low fraction_high : Q) (check_essentiality : bool)
         (w : World),
    biomass_reaction_id self ∈ reaction_ids (model w) ->
    product_sink_reaction_id self ∈ reaction_ids (model w) ->
    (product_max_theoretical_yield self * fraction_low
     <= upper_bound_of (product_sink_reaction_id self) (model w))%Q ->
    (product_max_theoretical_yield self * fraction_high
     <= upper_bound_of (product_sink_reaction_id self) (model w))%Q ->
    exists rid rest,
      reaction_ids (model w) = rid :: rest
      /\ FSEOF_FS.run lo self fraction_low fraction_high check_essentiality
           0 w
         = (Raise (KeyError rid), w).
Proof.
  intros lo self fl fh ce w Hb Hs Hl Hh.
  destruct (reaction_ids (model w)) as [|rid rest] eqn:Hids;
    [apply elem_of_nil in Hb; contradiction|].
  rewrite <- Hids in Hb, Hs.
  apply has_id_elem_of in Hb, Hs.
  exists rid, rest. split; [reflexivity|].
  unfold FSEOF_FS.run.
  rewrite (bind_Return _ _ _ _ _
             (fluxes_at_no_samples lo self fl w Hb Hs Hl)).
  rewrite (bind_Return _ _ _ _ _
             (fluxes_at_no_samples lo self fh w Hb Hs Hh)).
  unfold bind at 1. unfold get_model at 1. rewrite Hids. simpl.
  unfold bind, FSEOF_FS.classify, bind, getitem. rewrite lookup_empty.
  reflexivity.
Qed.

Lemma run_without_samples_raises_key_error_witness :
  FSEOF_FS.run (example_solver "P_sink") fseof_self (1 # 10) (2 # 10) true 0
    fseof_world
  = (Raise (KeyError "BIO"), fseof_world).
Proof.
  destruct (run_without_samples_raises_key_error (example_solver "P_sink")
              fseof_self (1 # 10) (2 # 10) true fseof_world)
    as (rid & rest & Hids & Hrun).
  - apply existsb_eqb_elem_of. reflexivity.
  - apply existsb_eqb_elem_of. reflexivity.
  - vm_compute. discriminate.
  - vm_compute. discriminate.
  - rewrite Hrun. vm_compute in Hids. injection Hids as <- _. reflexivity.
Defined.

(** X7.  A solve that fails during the first sampling block of
    FSEOF_FS.run (whose level the sink admits) is not caught: the run
    raises the solver's error, and the context manager has restored the
    model. *)
Theorem failed_sample_ends_the_run :
  forall (lo : nat -> Model -> option (string -> Q)) (self : Analyzer)
         (fraction_low fraction_high : Q) (check_essentiality : bool)
         (n j : nat) (w : World),
    biomass_reaction_id self ∈ reaction_ids (model w) ->
    product_sink_reaction_id self ∈ reaction_ids (model w) ->
    (product_max_theoretical_yield self * fraction_low
     <= upper_bound_of (product_sink_reaction_id self) (model w))%Q ->
    (j < n)%nat ->
    lo (length (solver_log w) + j)%nat
      (forced (biomass_reaction_id self) (product_sink_reaction_id self)
         (product_max_theoretical_yield self * fraction_low) (model w))
    = None ->
    exists w',
      FSEOF_FS.run lo self fraction_low fraction_high check_essentiality n w
      = (Raise OptimizationError, w')
      /\ model w' = model w
      /\ contexts w' = contexts w.
Proof.
  intros lo self fl fh ce n j w Hb Hs Hle Hj Hfail.
  apply has_id_elem_of in Hb, Hs.
  destruct (fluxes_at_fails lo self fl n w Hb Hs Hle) as (w' & E & Hm & Hc);
    [eauto|].
  exists w'. split; [|auto].
  unfold FSEOF_FS.run. apply bind_Raise. exact E.
Qed.

Lemma failed_sample_ends_the_run_witness :
  exists w',
    FSEOF_FS.run failing_solver fseof_self (1 # 10) (2 # 10) true 3
      fseof_world
    = (Raise OptimizationError, w')
    /\ model w' = model fseof_world.
Proof.
  destruct (failed_sample_ends_the_run failing_solver fseof_self (1 # 10)
              (2 # 10) true 3 0 fseof_world)
    as (w' & Hrun & Hm & _).
  - apply existsb_eqb_elem_of. reflexivity.
  - apply existsb_eqb_elem_of. reflexivity.
  - vm_compute. discriminate.
  - lia.
  - reflexivity.
  - exists w'. split; assumption.
Defined.

(** X16.  A level above the sink's upper bound is refused: when
    yield * fraction_low exceeds the upper bound of the sink, the
    assignment of the sink's lower bound in the first sampling block of
    FSEOF_FS.run raises ValueError; no solver call is made, and model,
    contexts and solver log are as they were. *)
Theorem level_above_the_sink_bound_is_refused :
  forall (lo : nat -> Model -> option (string -> Q)) (self : Analyzer)
         (fraction_low fraction_high : Q) (check_essentiality : bool)
         (n : nat) (w : World),
    biomass_reaction_id self ∈ reaction_ids (model w) ->
    product_sink_reaction_id self ∈ reaction_ids (model w) ->
    (upper_bound_of (product_sink_reaction_id self) (model w)
     < product_max_theoretical_yield self * fraction_low)%Q ->
    FSEOF_FS.run lo self fraction_low fraction_high check_essentiality n w
    = (Raise ValueError, w).
Proof.
  intros lo self fl fh ce n w Hb Hs Hlt.
  apply has_id_elem_of in Hb. apply find_of_elem in Hs as [r Hr].
  unfold upper_bound_of in Hlt. rewrite Hr in Hlt.
  unfold FSEOF_FS.run. apply bind_Raise.
  apply (fluxes_at_above lo self fl n w r Hb Hr Hlt).
Qed.

Lemma level_above_the_sink_bound_is_refused_witness :
  FSEOF_FS.run (example_solver "P_sink") fseof_self 200 300 true 2
    fseof_world
  = (Raise ValueError, fseof_world).
Proof.
  apply (level_above_the_sink_bound_is_refused (example_solver "P_sink")
           fseof_self 200 300 true 2 fseof_world).
  - apply existsb_eqb_elem_of. reflexivity.
  - apply existsb_eqb_elem_of. reflexivity.
  - vm_compute. reflexivity.
Defined.

(** ** The rows and the solver calls of FSEOF_FS.run *)

(** X8.  A run of FSEOF_FS.run that returns a table has asked the solver
    [n] times in each of its two sampling blocks and, with
    [check_essentiality], once more for every row of the table; without
    it, not once more. *)
Theorem fseof_run_counts_its_solves :
  forall (lo : nat -> Model -> option (string -> Q)) (self : Analyzer)
         (fraction_low fraction_high : Q) (check_essentiality : bool)
         (n : nat) (w : World) (tbl : list FSEOF_FS.Row) (w' : World),
    FSEOF_FS.run lo self fraction_low fraction_high check_essentiality n w
    = (Return tbl, w') ->
    length (solver_log w')
    = (length (solver_log w) + 2 * n
       + (if check_essentiality then length tbl else 0))%nat.
Proof.
  intros lo self fl fh ce n w tbl w' H.
  apply fseof_run_log in H as (df_data & -> & Hlen & _).
  rewrite Hlen.
  rewrite <- (Permutation_length
                (sort_values_perm FSEOF_FS.may_precede
                   (map FSEOF_FS.add_abs_diff df_data))).
  rewrite length_map. reflexivity.
Qed.

Lemma fseof_run_counts_its_solves_witness :
  exists tbl w',
    FSEOF_FS.run (example_solver "P_sink") fseof_self (1 # 10) (2 # 10) true
      2 fseof_world = (Return tbl, w')
    /\ length (solver_log w') = (length (solver_log fseof_world) + 4
                                 + length tbl)%nat.
Proof.
  pose (outcome := FSEOF_FS.run (example_solver "P_sink") fseof_self
                     (1 # 10) (2 # 10) true 2 fseof_world).
  exists (table_of outcome), outcome.2.
  assert (H : outcome = (Return (table_of outcome), outcome.2))
    by (vm_compute; reflexivity).
  split; [exact H|].
  exact (fseof_run_counts_its_solves _ _ _ _ _ _ _ _ _ H).
Defined.

(** X9.  Every row of the table of FSEOF_FS.run carries the name of its
    reaction in the model; with [check_essentiality] its flag is what
    check_essential_reaction returns for that reaction on the same model,
    and without it the row has no flag. *)
Theorem fseof_rows_carry_name_and_flag :
  forall (lo : nat -> Model -> option (string -> Q)) (self : Analyzer)
         (fraction_low fraction_high : Q) (check_essentiality : bool)
         (n : nat) (w : World) (tbl : list FSEOF_FS.Row) (w' : World),
    FSEOF_FS.run lo self fraction_low fraction_high check_essentiality n w
    = (Return tbl, w') ->
    forall row,
      row ∈ tbl ->
      let d := FSEOF_FS.data row in
      (exists r,
          find_reaction (FSEOF_FS.reaction_id d) (reactions (model w))
          = Some r
          /\ FSEOF_FS.reaction_name d = r_name r)
      /\ (check_essentiality = true ->
          exists e w1 w2,
            FSEOF_FS.essential d = Some e
            /\ model w1 = model w
            /\ check_essential_reaction lo self (FSEOF_FS.reaction_id d) w1
               = (Return e, w2))
      /\ (check_essentiality = false -> FSEOF_FS.essential d = None).
Proof.
  intros lo self fl fh ce n w tbl w' H row Hin d.
  apply fseof_run_log in H as (df_data & -> & _ & Hrows).
  rewrite <- (sort_values_perm FSEOF_FS.may_precede
                (map FSEOF_FS.add_abs_diff df_data)) in Hin.
  apply list_elem_of_fmap in Hin as (d0 & -> & Hin).
  rewrite Forall_forall in Hrows. apply Hrows in Hin as [Hname Hflag].
  subst d. simpl. split; [exact Hname|].
  split; intros ->; exact Hflag.
Qed.

Lemma fseof_rows_carry_name_and_flag_witness :
  exists tbl w',
    FSEOF_FS.run (example_solver "P_sink") fseof_self (1 # 10) (2 # 10) true
      2 fseof_world = (Return tbl, w')
    /\ tbl <> []
    /\ forall row,
         row ∈ tbl -> is_Some (FSEOF_FS.essential (FSEOF_FS.data row)).
Proof.
  pose (outcome := FSEOF_FS.run (example_solver "P_sink") fseof_self
                     (1 # 10) (2 # 10) true 2 fseof_world).
  assert (H : outcome = (Return (table_of outcome), outcome.2))
    by (vm_compute; reflexivity).
  exists (table_of outcome), outcome.2.
  split; [exact H|]. split; [vm_compute; discriminate|].
  intros row Hin.
  destruct (fseof_rows_carry_name_and_flag _ _ _ _ _ _ _ _ _ H row Hin)
    as (_ & Hflag & _).
  destruct (Hflag eq_refl) as (e & _ & _ & He & _). rewrite He. eauto.
Defined.

(** ** Edge cases of FVSEOF.run *)

(** X10.  FVSEOF.run with [n_steps = 0] on a model with at least one
    reaction: there is no level and no solver call, every series stays
    empty, and reading the first flux of the first reaction raises
    IndexError; model, contexts and solver log are as they were. *)
Theorem run_without_steps_raises_index_error :
  forall (lo : nat -> Model -> option (string -> Q))
         (fo : nat -> Model -> Q -> nat -> option (string -> fva_row))
         (pf : list Q -> list Q -> option Q) (self : Analyzer)
         (check_essentiality fva : bool) (processes : nat) (w : World),
    reaction_ids (model w) <> [] ->
    FVSEOF.run lo fo pf self 0 check_essentiality fva processes w
    = (Raise IndexError, w).
Proof.
  intros lo fo pf self ce fva processes w Hne.
  destruct (reaction_ids (model w)) as [|rid rest] eqn:Hids;
    [contradiction|].
  unfold FVSEOF.run.
  rewrite (bind_Return _ _ _
             (list_to_map (map (fun r_id => (r_id, []))
                             (reaction_ids (model w)))) w)
    by reflexivity.
  rewrite (bind_Return _ _ _ (model w) w) by reflexivity.
  apply bind_Raise. rewrite Hids. simpl fold_each. apply bind_Raise.
  unfold FVSEOF.assign_target_type.
  rewrite (bind_Return _ _ _ [] w); [reflexivity|].
  unfold getitem. rewrite lookup_insert_eq. reflexivity.
Qed.

Lemma run_without_steps_raises_index_error_witness :
  FVSEOF.run (example_solver "P_fvseof_sink") (example_fva "P_fvseof_sink")
    strict_fit fvseof_self 0 true false 1 fvseof_world
  = (Raise IndexError, fvseof_world).
Proof.
  apply (run_without_steps_raises_index_error
           (example_solver "P_fvseof_sink") (example_fva "P_fvseof_sink")
           strict_fit fvseof_self true false 1 fvseof_world).
  vm_compute. discriminate.
Defined.

(** X12.  When the solver (the variability analysis with [fva], the
    loopless solve without) fails at the first level of FVSEOF.run, a
    level the sink admits, the run raises the solver's error after that
    one call; the context manager has restored the model. *)
Theorem failed_first_level_ends_the_run :
  forall (lo : nat -> Model -> option (string -> Q))
         (fo : nat -> Model -> Q -> nat -> option (string -> fva_row))
         (pf : list Q -> list Q -> option Q) (self : Analyzer)
         (n_steps : nat) (check_essentiality fva : bool) (processes : nat)
         (w : World) (level : Q),
    let probe := forced (biomass_reaction_id self)
                   (product_sink_reaction_id self) level (model w) in
    biomass_reaction_id self ∈ reaction_ids (model w) ->
    product_sink_reaction_id self ∈ reaction_ids (model w) ->
    FVSEOF.steps_lower_bounds self n_steps !! 0%nat = Some level ->
    (level <= upper_bound_of (product_sink_reaction_id self) (model w))%Q ->
    representative_fluxes lo fo fva processes (length (solver_log w)) probe
    = None ->
    FVSEOF.run lo fo pf self n_steps check_essentiality fva processes w
    = (Raise OptimizationError,
       mkWorld (model w) (contexts w)
         (solver_log w ++ [sweep_call fva processes probe])).
Proof.
  intros lo fo pf self n_steps ce fva processes w level probe
    Hb Hs Hlevel Hle Hfail.
  apply has_id_elem_of in Hb, Hs.
  apply find_reaction_has_id in Hs as [r Hr].
  unfold upper_bound_of in Hle. rewrite Hr in Hle.
  unfold FVSEOF.run. apply bind_Raise.
  unfold FVSEOF.sweep, bind at 1, get_model at 1.
  destruct (FVSEOF.steps_lower_bounds self n_steps) as [|l ls];
    [discriminate|].
  injection Hlevel as ->. simpl fold_each. apply bind_Raise.
  rewrite (step_result lo fo self fva processes _ level w r Hb Hr Hle).
  fold probe. rewrite Hfail. reflexivity.
Qed.

Lemma failed_first_level_ends_the_run_witness :
  exists w',
    FVSEOF.run failing_solver (example_fva "P_fvseof_sink") strict_fit
      fvseof_self 3 true false 1 fvseof_world
    = (Raise OptimizationError, w')
    /\ model w' = model fvseof_world
    /\ length (solver_log w') = S (length (solver_log fvseof_world)).
Proof.
  eexists. split.
  - apply (failed_first_level_ends_the_run failing_solver
             (example_fva "P_fvseof_sink") strict_fit fvseof_self 3 true
             false 1 fvseof_world
             (Q_of_nat 0 / Q_of_nat 3
              * product_max_theoretical_yield fvseof_self)%Q).
    + apply existsb_eqb_elem_of. reflexivity.
    + apply existsb_eqb_elem_of. reflexivity.
    + reflexivity.
    + vm_compute. discriminate.
    + reflexivity.
  - split; [reflexivity|]. vm_compute. reflexivity.
Defined.

(** ** The rows and the solver calls of FVSEOF.run *)

(** X13.  A run of FVSEOF.run that returns a table has asked the solver
    once for each of the [n_steps] levels and, with [check_essentiality],
    once more for every row of the table; without it, not once more. *)
Theorem fvseof_run_counts_its_solves :
  forall (lo : nat -> Model -> option (string -> Q))
         (fo : nat -> Model -> Q -> nat -> option (string -> fva_row))
         (pf : list Q -> list Q -> option Q) (self : Analyzer)
         (n_steps : nat) (check_essentiality fva : bool) (processes : nat)
         (w : World) (tbl : list FVSEOF.Row) (w' : World),
    FVSEOF.run lo fo pf self n_steps check_essentiality fva processes w
    = (Return tbl, w') ->
    length (solver_log w')
    = (length (solver_log w) + n_steps
       + (if check_essentiality then length tbl else 0))%nat.
Proof.
  intros lo fo pf self n_steps ce fva processes w tbl w' H.
  apply fvseof_run_rows in H
    as (per_step & w1 & ess & df_data & _ & -> & Hlen & _).
  rewrite Hlen.
  rewrite <- (Permutation_length
                (sort_values_perm FVSEOF.may_precede df_data)).
  reflexivity.
Qed.

Lemma fvseof_run_counts_its_solves_witness :
  exists tbl w',
    FVSEOF.run (example_solver "P_fvseof_sink") (example_fva "P_fvseof_sink")
      strict_fit fvseof_self 3 true true 1 fvseof_world
    = (Return tbl, w')
    /\ length (solver_log w')
       = (length (solver_log fvseof_world) + 3 + length tbl)%nat.
Proof.
  pose (outcome := FVSEOF.run (example_solver "P_fvseof_sink")
                     (example_fva "P_fvseof_sink") strict_fit
                     fvseof_self 3 true true 1 fvseof_world).
  assert (H : outcome = (Return (table_of outcome), outcome.2))
    by (vm_compute; reflexivity).
  exists (table_of outcome), outcome.2. split; [exact H|].
  exact (fvseof_run_counts_its_solves _ _ _ _ _ _ _ _ _ _ _ H).
Defined.

(** X14.  Every row of the table of FVSEOF.run carries the gene rule of
    its reaction in the model and one flux per level, taken in order from
    the series the sweep recorded for the reaction (the whole series when
    the reaction ids are unique); with [check_essentiality] its flag is
    what check_essential_reaction returns for that reaction on the same
    model, and without it the row has no flag. *)
Theorem fvseof_rows_carry_rule_flag_and_steps :
  forall (lo : nat -> Model -> option (string -> Q))
         (fo : nat -> Model -> Q -> nat -> option (string -> fva_row))
         (pf : list Q -> list Q -> option Q) (self : Analyzer)
         (n_steps : nat) (check_essentiality fva : bool) (processes : nat)
         (w : World) (tbl : list FVSEOF.Row) (w' : World),
    FVSEOF.run lo fo pf self n_steps check_essentiality fva processes w
    = (Return tbl, w') ->
    exists per_step w1,
      FVSEOF.sweep lo fo self n_steps fva processes w = (Return per_step, w1)
      /\ forall row,
           row ∈ tbl ->
           (exists r,
               find_reaction (FVSEOF.reaction_id row) (reactions (model w))
               = Some r
               /\ FVSEOF.gene_reaction_rule row = r_gene_reaction_rule r)
           /\ (exists fs,
                  per_step !! FVSEOF.reaction_id row = Some fs
                  /\ FVSEOF.steps row = take n_steps fs
                  /\ length (FVSEOF.steps row) = n_steps
                  /\ (NoDup (reaction_ids (model w)) ->
                      FVSEOF.steps row = fs))
           /\ (check_essentiality = true ->
               exists e w2 w3,
                 FVSEOF.essentiality row = Some e
                 /\ model w2 = model w
                 /\ check_essential_reaction lo self (FVSEOF.reaction_id row)
                      w2 = (Return e, w3))
           /\ (check_essentiality = false -> FVSEOF.essentiality row = None).
Proof.
  intros lo fo pf self n_steps ce fva processes w tbl w' H.
  apply fvseof_run_rows in H
    as (per_step & w1 & ess & df_data & Hsweep & -> & _ & Hrows & Hflags).
  exists per_step, w1. split; [exact Hsweep|].
  intros row Hin.
  rewrite <- (sort_values_perm FVSEOF.may_precede df_data) in Hin.
  rewrite Forall_forall in Hrows.
  destruct (Hrows row Hin) as (Hrule & Hflag & fs & Hfs & Hsteps & Hlen).
  rewrite steps_lower_bounds_length in Hsteps, Hlen.
  split; [exact Hrule|]. split.
  - exists fs. split; [exact Hfs|]. split; [exact Hsteps|].
    split; [exact Hlen|]. intros Hnd.
    destruct Hrule as (r & Hr & _).
    assert (Hid : FVSEOF.reaction_id row ∈ reaction_ids (model w)).
    { apply has_id_elem_of, find_reaction_has_id. rewrite Hr. eauto. }
    destruct (sweep_spec _ _ _ _ _ _ _ _ _ Hsweep) as (j & _ & _ & Hret).
    destruct (Hret per_step eq_refl) as (_ & Hfrom & _).
    apply (sweep_from_series _ _ _ _ _ _ _ _ Hnd) in Hfrom
      as (values & Hvalues & _ & Hseries).
    rewrite (Hseries _ [] Hid (initial_series _ _ Hid)) in Hfs.
    injection Hfs as <-. rewrite Hsteps. apply take_ge.
    simpl. rewrite length_map, Hvalues, steps_lower_bounds_length. lia.
  - split.
    + intros ->. destruct Hflag as (e & He & Hrow).
      destruct (Hflags _ _ He) as (w2 & w3 & Hm & Hcheck).
      exists e, w2, w3. auto.
    + intros ->. exact Hflag.
Qed.

Lemma fvseof_rows_carry_rule_flag_and_steps_witness :
  exists tbl w',
    FVSEOF.run (example_solver "P_fvseof_sink") (example_fva "P_fvseof_sink")
      strict_fit fvseof_self 3 true true 1 fvseof_world
    = (Return tbl, w')
    /\ tbl <> []
    /\ forall row,
         row ∈ tbl ->
         length (FVSEOF.steps row) = 3%nat
         /\ is_Some (FVSEOF.essentiality row).
Proof.
  pose (outcome := FVSEOF.run (example_solver "P_fvseof_sink")
                     (example_fva "P_fvseof_sink") strict_fit
                     fvseof_self 3 true true 1 fvseof_world).
  assert (H : outcome = (Return (table_of outcome), outcome.2))
    by (vm_compute; reflexivity).
  exists (table_of outcome), outcome.2.
  split; [exact H|]. split; [vm_compute; discriminate|].
  intros row Hin.
  destruct (fvseof_rows_carry_rule_flag_and_steps _ _ _ _ _ _ _ _ _ _ _ H)
    as (per_step & w1 & _ & Hrows).
  destruct (Hrows row Hin) as (_ & (fs & _ & _ & Hlen & _) & Hflag & _).
  split; [exact Hlen|].
  destruct (Hflag eq_refl) as (e & _ & _ & He & _). rewrite He. eauto.
Defined.

(** X15.  A run of FVSEOF.run whose sweep returns, whose fits succeed and
    in which every reaction of the model has a first or a last flux equal
    to 0 does not return an empty table: no reaction gets a target type,
    no essentiality probe is made, and the sort of the column-less frame
    raises the KeyError of the missing column "target_type". *)
Theorem fvseof_run_without_rows_raises :
  forall (lo : nat -> Model -> option (string -> Q))
         (fo : nat -> Model -> Q -> nat -> option (string -> fva_row))
         (pf : list Q -> list Q -> option Q) (self : Analyzer)
         (n_steps : nat) (check_essentiality fva : bool) (processes : nat)
         (w : World) (per_step : gmap string (list Q)) (w1 : World),
    FVSEOF.sweep lo fo self n_steps fva processes w = (Return per_step, w1) ->
    Forall (fun rid =>
      exists fs flux_first flux_last,
        per_step !! rid = Some fs
        /\ fs !! 0%nat = Some flux_first /\ last fs = Some flux_last
        /\ ((flux_first == 0)%Q \/ (flux_last == 0)%Q)
        /\ is_Some (pf (FVSEOF.steps_lower_bounds self n_steps) fs))
      (reaction_ids (model w)) ->
    FVSEOF.run lo fo pf self n_steps check_essentiality fva processes w
    = (Raise (KeyError "target_type"), w1).
Proof.
  intros lo fo pf self n_steps ce fva processes w per_step w1 Hsweep Hall.
  pose proof (preserving_model _ _ _ _ (preserving_sweep _ _ _ _ _ _) Hsweep)
    as Hm.
  unfold FVSEOF.run.
  rewrite (bind_Return _ _ _ _ _ Hsweep).
  unfold bind at 1, get_model at 1. rewrite Hm.
  erewrite bind_Return; cycle 1.
  { apply assign_target_type_skip.
    eapply Forall_impl; [exact Hall|]. simpl.
    intros rid (fs & f & l & ? & ? & ? & ? & _). eauto 10. }
  destruct (fit_slope_returns pf (FVSEOF.steps_lower_bounds self n_steps)
              per_step (reaction_ids (model w))) with (acc := (∅ : gmap string Q))
    (w := w1) as [slopes Hfit].
  { eapply Forall_impl; [exact Hall|]. simpl.
    intros rid (fs & f & l & ? & _ & _ & _ & ?). eauto. }
  rewrite (bind_Return _ _ _ _ _ Hfit).
  assert (Hess : (if ce then
                    fold_each (reaction_ids (model w))
                      (FVSEOF.find_essentiality lo self ∅) ∅
                  else ret ∅) w1 = (Return ∅, w1)).
  { destruct ce; [apply find_essentiality_untyped | reflexivity]. }
  rewrite (bind_Return _ _ _ _ _ Hess).
  rewrite (bind_Return _ _ _ _ _ (combine_untyped _ _ _ _ _ _ _ _)).
  reflexivity.
Qed.

Lemma fvseof_run_without_rows_raises_witness :
  exists w1,
    FVSEOF.run (example_solver "P_fvseof_sink") idle_fva strict_fit
      fvseof_self 4 true true 1 fvseof_world
    = (Raise (KeyError "target_type"), w1)
    /\ length (solver_log w1) = (length (solver_log fvseof_world) + 4)%nat.
Proof.
  pose (outcome := FVSEOF.sweep (example_solver "P_fvseof_sink") idle_fva
                     fvseof_self 4 true 1 fvseof_world).
  exists outcome.2. split; [|vm_compute; reflexivity].
  apply (fvseof_run_without_rows_raises (example_solver "P_fvseof_sink")
           idle_fva strict_fit fvseof_self 4 true true 1 fvseof_world
           (value_of ∅ outcome) outcome.2).
  - vm_compute. reflexivity.
  - repeat (apply Forall_cons; split;
              [eexists _, _, _; split; [vm_compute; reflexivity|];
               split; [reflexivity|]; split; [reflexivity|];
               split; [left; reflexivity | vm_compute; eauto]
              |]).
    apply Forall_nil. exact I.
Defined.
